(** * Annotation engine of the PDF editor: coordinates, store, hit testing

    A shallow embedding of the [AnnotationManager] class
    (static/js/modules/interactiveLoading.js) and of
    [Utils.calculateBoundingBox] (utils.js), followed by the properties
    proved about them.

    Modelling conventions.
    - A JavaScript [number] is a real number ([R]): arithmetic is exact, so
      statements "up to floating-point tolerance" are proved as equalities.
      Division by zero is not modelled (in [R] it yields an unspecified
      value); every result that depends on a quotient carries the
      precondition that the divisor is non zero.
    - Annotation records are objects with identity.  They live in a heap
      (a list indexed by location); the page arrays of [this.annotations]
      hold locations, and a mutation "in place" is a heap update.
    - [this.annotations] is a JavaScript [Map], iterated in insertion order:
      an association list.  The key [`page_${n}`] is represented by the page
      number [n] itself ([parseInt(pageKey.replace('page_', ''))] recovers it).
    - Methods that mutate the manager or may raise are computations in a
      state-and-exception monad [M].
    - The DOM, the canvas and the clock are outside the model: their inputs
      are parameters ([Env], fresh identifiers, timestamps), their outputs
      (pixels, sidebar list) are dropped; [editor.showNotification] is kept
      as a log because it is the only signal a caller can observe. *)

From Stdlib Require Import Reals Lra Lia String List Bool Arith.
From stdpp Require Import base decidable option list.

#[global] Instance Rle_decision : RelDecision Rle := Rle_dec.
#[global] Instance Rlt_decision : RelDecision Rlt := Rlt_dec.
#[global] Instance Rgt_decision : RelDecision Rgt := Rgt_dec.
#[global] Instance Rge_decision : RelDecision Rge := Rge_dec.
#[global] Instance Req_decision : EqDecision R := Req_dec_T.

(** ** Plain data *)

Record Point := mkPoint { pt_x : R; pt_y : R }.

(** The viewport object handed over by the page renderer
    ([page.getViewport({scale, rotation})]). *)
Record Viewport := mkViewport {
  width : R;
  height : R;
  rotation : R;
  scale : R
}.

Record Coordinates := mkCoordinates {
  startX : R;
  startY : R;
  endX : R;
  endY : R
}.

(** An annotation object.  [path] and [content] are optional properties:
    [None] is an absent ([undefined]) property. *)
Module Annotation.
Record t := mk {
  id : string;
  type : string;
  color : string;
  coordinates : Coordinates;
  path : option (list Point);
  page : nat;
  content : option string;
  timestamp : string
}.

Definition set_coordinates (c : Coordinates) (a : t) : t :=
  mk (id a) (type a) (color a) c (path a) (page a) (content a) (timestamp a).

Definition set_path (p : option (list Point)) (a : t) : t :=
  mk (id a) (type a) (color a) (coordinates a) p (page a) (content a)
     (timestamp a).
End Annotation.

(** Object identity: a location in the heap. *)
Abbreviation loc := nat.
Abbreviation Heap := (list Annotation.t).

(** ** config.js *)

Module COLORS.
Definition UNDERLINE_RED : string := "#ff0000".
Definition NOTE_BACKGROUND : string := "#ffd700".
End COLORS.

Module CONFIG.
Definition DEFAULT_COLOR : string := "#ffff00".
Definition DEFAULT_TOOL : string := "select".
End CONFIG.

(** ** utils.js *)

Module Utils.

Record BoundingBox := mkBox { minX : R; minY : R; maxX : R; maxY : R }.

(** The body of the [path.forEach] callback. *)
Definition extend (b : BoundingBox) (point : Point) : BoundingBox :=
  {| minX := Rmin (minX b) (pt_x point);
     minY := Rmin (minY b) (pt_y point);
     maxX := Rmax (maxX b) (pt_x point);
     maxY := Rmax (maxY b) (pt_y point) |}.

(** [calculateBoundingBox(path)]; [None] is the [null] result.  The
    accumulators start at [path[0]] and the loop visits every point,
    [path[0]] included. *)
Definition calculateBoundingBox (path : option (list Point))
  : option BoundingBox :=
  match path with
  | None => None
  | Some [] => None
  | Some ((p0 :: _) as points) =>
      Some (fold_left extend points
              {| minX := pt_x p0; minY := pt_y p0;
                 maxX := pt_x p0; maxY := pt_y p0 |})
  end.

End Utils.

(** ** Coordinate transformer and geometry (pure methods) *)

Section Geometry.
Open Scope R_scope.

Definition canvasToNormalized (x y : R) (viewport : Viewport) : Point :=
  {| pt_x := x / width viewport; pt_y := y / height viewport |}.

Definition normalizedToCanvas (normalizedX normalizedY : R)
    (viewport : Viewport) : Point :=
  {| pt_x := normalizedX * width viewport;
     pt_y := normalizedY * height viewport |}.

(** [areCoordinatesNormalized(annotation, viewport)]; the viewport may be
    [null]. *)
Definition areCoordinatesNormalized (annotation : Annotation.t)
    (viewport : option Viewport) : bool :=
  match viewport with
  | None => true
  | Some _ =>
      let c := Annotation.coordinates annotation in
      let maxCoord :=
        Rmax (Rmax (Rmax (Rabs (startX c)) (Rabs (startY c)))
                   (Rabs (endX c)))
             (Rabs (endY c)) in
      bool_decide (maxCoord <= 2)
  end.

Definition distanceToLineSegment (px py x1 y1 x2 y2 : R) : R :=
  let A := px - x1 in
  let B := py - y1 in
  let C := x2 - x1 in
  let D := y2 - y1 in
  let dot := A * C + B * D in
  let lenSq := C * C + D * D in
  if decide (lenSq = 0) then sqrt (A * A + B * B)
  else
    let param := dot / lenSq in
    let closest :=
      if decide (param < 0) then (x1, y1)
      else if decide (param > 1) then (x2, y2)
      else (x1 + param * C, y1 + param * D) in
    let dx := px - fst closest in
    let dy := py - snd closest in
    sqrt (dx * dx + dy * dy).

End Geometry.

(** *** The same method with the division made visible

    On real numbers a quotient by zero is just some number, so the model
    above cannot tell whether the test [lenSq === 0] is there.  Here the
    quotient of two finite numbers is a number only when the divisor is
    not zero: [None] is the [NaN] (or infinity) a division by zero
    yields, which every later operation of the method hands on to its
    result. *)

Module Checked.
Open Scope R_scope.

(** [a / b] *)
Definition quotient (a b : R) : option R :=
  if decide (b = 0) then None else Some (a / b).

Definition distanceToLineSegment (px py x1 y1 x2 y2 : R) : option R :=
  let A := px - x1 in
  let B := py - y1 in
  let C := x2 - x1 in
  let D := y2 - y1 in
  let dot := A * C + B * D in
  let lenSq := C * C + D * D in
  if decide (lenSq = 0) then Some (sqrt (A * A + B * B))
  else
    match quotient dot lenSq with
    | Some param =>
        let closest :=
          if decide (param < 0) then (x1, y1)
          else if decide (param > 1) then (x2, y2)
          else (x1 + param * C, y1 + param * D) in
        let dx := px - fst closest in
        let dy := py - snd closest in
        Some (sqrt (dx * dx + dy * dy))
    | None => None
    end.

End Checked.

(** ** Manager state, environment and the computation monad *)

(** [this.annotations]: page key to array of annotation objects, in the
    insertion order of the keys. *)
Abbreviation AnnotationMap := (list (nat * list loc)).

(** The variables [isDrawing, startX, startY, endX, endY] declared by
    [setupPageInteractions] and shared by the handlers it installs. *)
Record Gesture := mkGesture {
  g_isDrawing : bool;
  g_startX : R;
  g_startY : R;
  g_endX : R;
  g_endY : R
}.

(** The manager ([this]), the objects it refers to, the gesture variables
    of the installed handlers and the log of notifications shown. *)
Record State := mkState {
  heap : Heap;
  annotations : AnnotationMap;
  currentTool : string;
  currentColor : string;
  isDrawing : bool;
  currentStroke : option (list Point);
  gesture : Gesture;
  notifications : list (string * string)
}.

Definition set_heap (h : Heap) (s : State) : State :=
  mkState h (annotations s) (currentTool s) (currentColor s) (isDrawing s)
          (currentStroke s) (gesture s) (notifications s).

Definition set_annotations (m : AnnotationMap) (s : State) : State :=
  mkState (heap s) m (currentTool s) (currentColor s) (isDrawing s)
          (currentStroke s) (gesture s) (notifications s).

Definition set_isDrawing (b : bool) (s : State) : State :=
  mkState (heap s) (annotations s) (currentTool s) (currentColor s) b
          (currentStroke s) (gesture s) (notifications s).

Definition set_currentStroke (k : option (list Point)) (s : State) : State :=
  mkState (heap s) (annotations s) (currentTool s) (currentColor s)
          (isDrawing s) k (gesture s) (notifications s).

Definition set_gesture (g : Gesture) (s : State) : State :=
  mkState (heap s) (annotations s) (currentTool s) (currentColor s)
          (isDrawing s) (currentStroke s) g (notifications s).

Definition add_notification (n : string * string) (s : State) : State :=
  mkState (heap s) (annotations s) (currentTool s) (currentColor s)
          (isDrawing s) (currentStroke s) (gesture s) (notifications s ++ [n]).

(** What the methods read from the page and the editor:
    [this.editor.pdfManager.currentPage], whether
    [document.querySelector('.annotation-canvas')] finds a canvas, and the
    [viewport] property of [document.querySelector('.interaction-layer')]
    ([None] when there is no layer). *)
Record Env := mkEnv {
  currentPage : nat;
  annotationCanvas : bool;
  layerViewport : option Viewport
}.

(** Outcome of a method call: a value, or an exception. *)
Inductive Completion (A : Type) : Type :=
| Normal (a : A)
| Thrown (e : string).
Arguments Normal {A} a.
Arguments Thrown {A} e.

Definition M (A : Type) : Type := State -> Completion A * State.

Definition ret {A} (a : A) : M A := fun s => (Normal a, s).

Definition bind {A B} (m : M A) (k : A -> M B) : M B :=
  fun s =>
    match m s with
    | (Normal a, s1) => k a s1
    | (Thrown e, s1) => (Thrown e, s1)
    end.

Definition throw {A} (e : string) : M A := fun s => (Thrown e, s).
Definition get : M State := fun s => (Normal s, s).
Definition modify (f : State -> State) : M unit := fun s => (Normal tt, f s).

Declare Scope js_scope.
Delimit Scope js_scope with js.
Notation "x <- m ;; k" := (bind m (fun x => k))
  (at level 100, m at next level, k at level 200, right associativity)
  : js_scope.
Notation "m ;; k" := (bind m (fun _ => k))
  (at level 100, k at level 200, right associativity) : js_scope.

(** [array.forEach(f)] for an effectful callback: stops at the first
    exception. *)
Fixpoint forEach {A} (f : A -> M unit) (l : list A) : M unit :=
  match l with
  | [] => ret tt
  | a :: l' => bind (f a) (fun _ => forEach f l')
  end.

(** The value a JavaScript function hands back to its caller when the
    result is not an object of the model. *)
Inductive JsValue : Type :=
| JsUndefined
| JsBoolean (b : bool).

(** *** [Map] operations on [this.annotations] *)

Fixpoint Map_get (pageKey : nat) (m : AnnotationMap) : option (list loc) :=
  match m with
  | [] => None
  | (k, v) :: m' => if Nat.eqb k pageKey then Some v else Map_get pageKey m'
  end.

Definition Map_has (pageKey : nat) (m : AnnotationMap) : bool :=
  match Map_get pageKey m with Some _ => true | None => false end.

(** [set] keeps the position of an existing key and appends a new one. *)
Fixpoint Map_set (pageKey : nat) (v : list loc) (m : AnnotationMap)
  : AnnotationMap :=
  match m with
  | [] => [(pageKey, v)]
  | (k, v0) :: m' =>
      if Nat.eqb k pageKey then (k, v) :: m'
      else (k, v0) :: Map_set pageKey v m'
  end.

(** [this.annotations.get(pageKey) || []] *)
Definition pageAnnotationsOf (pageNum : nat) (s : State) : list loc :=
  match Map_get pageNum (annotations s) with
  | Some arr => arr
  | None => []
  end.

(** [this.editor.showNotification(message, kind)] *)
Definition showNotification (message kind : string) : M unit :=
  modify (add_notification (message, kind)).

(** ** Migration of legacy pixel-space records *)

Section Migration.
Open Scope R_scope.

(** The fields of the object after [migratePixelToNormalized] has run on it
    with a viewport that is not [null]. *)
Definition migratedFields (a : Annotation.t) (viewport : Viewport)
  : Annotation.t :=
  let c := Annotation.coordinates a in
  let normalizedStart := canvasToNormalized (startX c) (startY c) viewport in
  let normalizedEnd := canvasToNormalized (endX c) (endY c) viewport in
  let a1 :=
    Annotation.set_coordinates
      {| startX := pt_x normalizedStart; startY := pt_y normalizedStart;
         endX := pt_x normalizedEnd; endY := pt_y normalizedEnd |} a in
  if String.eqb (Annotation.type a1) "draw" then
    match Annotation.path a1 with
    | Some points =>
        Annotation.set_path
          (Some (map (fun point =>
                        canvasToNormalized (pt_x point) (pt_y point) viewport)
                     points)) a1
    | None => a1
    end
  else a1.

(** [migratePixelToNormalized(annotation, viewport)]: the early return
    leaves the heap alone, the other path overwrites the object where it
    is, and both return the reference they were given.  A location with no
    object behind it does not arise; it is returned untouched. *)
Definition migratePixelToNormalized (annotation : loc)
    (viewport : option Viewport) : M loc :=
  fun s =>
    match viewport, heap s !! annotation with
    | Some v, Some a =>
        if areCoordinatesNormalized a viewport then (Normal annotation, s)
        else (Normal annotation,
              set_heap (<[annotation := migratedFields a v]> (heap s)) s)
    | _, _ => (Normal annotation, s)
    end.

End Migration.

(** ** Hit testing *)

Section HitTest.
Open Scope R_scope.
Open Scope js_scope.

(** The inner loop of the [draw] case: [j] runs over the segments
    [(path[j], path[j+1])] in order and the first one within 10 pixels
    answers. *)
Fixpoint nearPath (path : list Point) (x y : R) (viewport : Viewport)
  : bool :=
  match path with
  | pj :: ((pj1 :: _) as rest) =>
      let point1 := normalizedToCanvas (pt_x pj) (pt_y pj) viewport in
      let point2 := normalizedToCanvas (pt_x pj1) (pt_y pj1) viewport in
      let distance :=
        distanceToLineSegment x y (pt_x point1) (pt_y point1)
                              (pt_x point2) (pt_y point2) in
      if bool_decide (distance <= 10) then true
      else nearPath rest x y viewport
  | _ => false
  end.

(** The body of the outer loop after migration: the geometry test chosen
    by [annotation.type]. *)
Definition hitTest (migratedAnnotation : Annotation.t) (x y : R)
    (viewport : Viewport) : bool :=
  let c := Annotation.coordinates migratedAnnotation in
  let canvasStart := normalizedToCanvas (startX c) (startY c) viewport in
  let canvasEnd := normalizedToCanvas (endX c) (endY c) viewport in
  let startX := Rmin (pt_x canvasStart) (pt_x canvasEnd) in
  let startY := Rmin (pt_y canvasStart) (pt_y canvasEnd) in
  let endX := Rmax (pt_x canvasStart) (pt_x canvasEnd) in
  let endY := Rmax (pt_y canvasStart) (pt_y canvasEnd) in
  if String.eqb (Annotation.type migratedAnnotation) "note" then
    let noteSize := 24 in
    bool_decide (x >= pt_x canvasStart /\ x <= pt_x canvasStart + noteSize /\
                 y >= pt_y canvasStart /\ y <= pt_y canvasStart + noteSize)
  else if String.eqb (Annotation.type migratedAnnotation) "draw" then
    match Annotation.path migratedAnnotation with
    | Some ((_ :: _) as path) => nearPath path x y viewport
    | _ => false
    end
  else
    bool_decide (x >= startX /\ x <= endX /\ y >= startY /\ y <= endY).

(** One turn of the outer loop: migrate the candidate, then test it. *)
Definition hitCandidate (annotation : loc) (x y : R) (viewport : Viewport)
  : M bool :=
  migratedAnnotation <- migratePixelToNormalized annotation (Some viewport) ;;
  s <- get ;;
  match heap s !! migratedAnnotation with
  | Some m => ret (hitTest m x y viewport)
  | None => ret false
  end.

(** The outer loop [for (i = length - 1; i >= 0; i--)], with [n = i + 1]. *)
Fixpoint getAnnotationAtPoint_loop (pageAnnotations : list loc) (n : nat)
    (x y : R) (viewport : Viewport) : M (option loc) :=
  match n with
  | O => ret None
  | S i =>
      match pageAnnotations !! i with
      | Some annotation =>
          hit <- hitCandidate annotation x y viewport ;;
          if hit : bool then ret (Some annotation)
          else getAnnotationAtPoint_loop pageAnnotations i x y viewport
      | None => getAnnotationAtPoint_loop pageAnnotations i x y viewport
      end
  end.

(** [getAnnotationAtPoint(pageNum, x, y, viewport)]; [None] is [null]. *)
Definition getAnnotationAtPoint (pageNum : nat) (x y : R)
    (viewport : Viewport) : M (option loc) :=
  s <- get ;;
  let pageAnnotations := pageAnnotationsOf pageNum s in
  getAnnotationAtPoint_loop pageAnnotations (length pageAnnotations)
                            x y viewport.

End HitTest.

(** ** Rendering (the part that touches the store) *)

Section Methods.
Open Scope R_scope.
Open Scope js_scope.

(** [renderSingleAnnotation(ctx, annotation, viewport)]: migrates the
    record, then reads [viewport.width] in [normalizedToCanvas], which
    raises a [TypeError] when the viewport is [null].  The painting that
    follows changes the canvas only. *)
Definition renderSingleAnnotation (annotation : loc)
    (viewport : option Viewport) : M unit :=
  _ <- migratePixelToNormalized annotation viewport ;;
  match viewport with
  | Some _ => ret tt
  | None => throw "TypeError"
  end.

(** [renderAnnotations(pageNum, canvas, viewport, clear)] for a canvas that
    exists.  [setupNoteClickHandlers] only registers a listener. *)
Definition renderAnnotations (pageNum : nat) (viewport : option Viewport)
  : M unit :=
  s <- get ;;
  forEach (fun annotation => renderSingleAnnotation annotation viewport)
          (pageAnnotationsOf pageNum s).

(** [showDrawingPreview(canvas)] and [showAnnotationPreview(canvas, ...)]:
    both redraw the current page with the viewport found on the
    interaction layer, then paint the shape in progress. *)
Definition showPreview (env : Env) : M unit :=
  renderAnnotations (currentPage env) (layerViewport env).

(** [showEraserHover(canvas, hoveredAnnotation, viewport)], for the result
    of a hit test. *)
Definition showEraserHover (env : Env) (hoveredAnnotation : option loc)
    (viewport : Viewport) : M unit :=
  renderAnnotations (currentPage env) (Some viewport) ;;
  match hoveredAnnotation with
  | Some a => _ <- migratePixelToNormalized a (Some viewport) ;; ret tt
  | None => ret tt
  end.

(** ** Creation *)

(** [if (!this.annotations.has(pageKey)) this.annotations.set(pageKey, [])] *)
Definition ensurePage (pageNum : nat) : M unit :=
  modify (fun s =>
    if Map_has pageNum (annotations s) then s
    else set_annotations (Map_set pageNum [] (annotations s)) s).

(** Allocation of the object literal followed by
    [this.annotations.get(pageKey).push(annotation)]. *)
Definition pushAnnotation (pageNum : nat) (annotation : Annotation.t)
  : M unit :=
  modify (fun s =>
    let l := length (heap s) in
    set_annotations
      (Map_set pageNum (pageAnnotationsOf pageNum s ++ [l]) (annotations s))
      (set_heap (heap s ++ [annotation]) s)).

(** [createAnnotation(pageNum, startX, startY, endX, endY, tool, color)].
    [newId] stands for the result of [Utils.generateId()] and [now] for
    [new Date().toISOString()]. *)
Definition createAnnotation (pageNum : nat) (startX startY endX endY : R)
    (tool color : string) (newId now : string) : M unit :=
  ensurePage pageNum ;;
  let annotationColor :=
    if String.eqb tool "underline" then COLORS.UNDERLINE_RED else color in
  let annotation :=
    {| Annotation.id := newId;
       Annotation.type := tool;
       Annotation.color := annotationColor;
       Annotation.coordinates :=
         mkCoordinates (Rmin startX endX) (Rmin startY endY)
                       (Rmax startX endX) (Rmax startY endY);
       Annotation.path := None;
       Annotation.page := pageNum;
       Annotation.content := None;
       Annotation.timestamp := now |} in
  pushAnnotation pageNum annotation ;;
  showNotification (tool ++ " annotation added") "success".

(** [createDrawAnnotation(pageNum, path, color)] *)
Definition createDrawAnnotation (pageNum : nat) (path : list Point)
    (color : string) (newId now : string) : M unit :=
  ensurePage pageNum ;;
  match Utils.calculateBoundingBox (Some path) with
  | None => ret tt
  | Some boundingBox =>
      let annotation :=
        {| Annotation.id := newId;
           Annotation.type := "draw";
           Annotation.color := color;
           Annotation.coordinates :=
             {| startX := Utils.minX boundingBox;
                startY := Utils.minY boundingBox;
                endX := Utils.maxX boundingBox;
                endY := Utils.maxY boundingBox |};
           Annotation.path := Some path;
           Annotation.page := pageNum;
           Annotation.content := None;
           Annotation.timestamp := now |} in
      pushAnnotation pageNum annotation ;;
      showNotification "Drawing annotation added" "success"
  end.

(** [createNoteAnnotation(pageNum, normalizedX, normalizedY)].  The note
    editor is opened later, from a timer. *)
Definition createNoteAnnotation (env : Env) (pageNum : nat)
    (normalizedX normalizedY : R) (newId now : string) : M unit :=
  ensurePage pageNum ;;
  let viewport := layerViewport env in
  let noteWidth :=
    match viewport with Some v => 24 / width v | None => 2 / 100 end in
  let noteHeight :=
    match viewport with Some v => 24 / height v | None => 2 / 100 end in
  let annotation :=
    {| Annotation.id := newId;
       Annotation.type := "note";
       Annotation.color := COLORS.NOTE_BACKGROUND;
       Annotation.coordinates :=
         {| startX := normalizedX;
            startY := normalizedY;
            endX := normalizedX + noteWidth;
            endY := normalizedY + noteHeight |};
       Annotation.path := None;
       Annotation.page := pageNum;
       Annotation.content := Some EmptyString;
       Annotation.timestamp := now |} in
  pushAnnotation pageNum annotation ;;
  showNotification "Note created - click to edit" "success".

(** ** Deletion *)

(** [array.findIndex(pred)]; [None] is the result [-1]. *)
Fixpoint findIndex {A} (pred : A -> bool) (l : list A) : option nat :=
  match l with
  | [] => None
  | a :: l' =>
      if pred a then Some O
      else match findIndex pred l' with
           | Some i => Some (S i)
           | None => None
           end
  end.

(** [a => a.id === annotationId], on the object behind a reference. *)
Definition hasId (h : Heap) (annotationId : string) (a : loc) : bool :=
  match h !! a with
  | Some o => String.eqb (Annotation.id o) annotationId
  | None => false
  end.

(** The callback of [this.annotations.forEach] in [deleteAnnotation]:
    [splice(index, 1)] on the page array, then a re-render of the current
    page with a [null] viewport. *)
Definition deleteFromPage (env : Env) (annotationId : string)
    (pageKey : nat) : M unit :=
  s <- get ;;
  let pageAnnotations := pageAnnotationsOf pageKey s in
  match findIndex (hasId (heap s) annotationId) pageAnnotations with
  | Some index =>
      modify (fun s =>
        set_annotations
          (Map_set pageKey (delete index pageAnnotations) (annotations s)) s) ;;
      let pageNum := pageKey in
      if Nat.eqb pageNum (currentPage env) then
        if annotationCanvas env then renderAnnotations pageNum None
        else ret tt
      else ret tt
  | None => ret tt
  end.

(** [deleteAnnotation(annotationId)].  The method has no [return]
    statement: a caller receives [undefined]. *)
Definition deleteAnnotation (env : Env) (annotationId : string)
  : M JsValue :=
  s <- get ;;
  forEach (deleteFromPage env annotationId) (map fst (annotations s)) ;;
  showNotification "Annotation deleted" "success" ;;
  ret JsUndefined.

(** ** Pointer handlers installed by [setupPageInteractions]

    [viewport] is the viewport the handlers were installed with and
    [coords] the result of [getCanvasCoordinates] for the event. *)

Definition isTool (s : State) (tool : string) : bool :=
  String.eqb (currentTool s) tool.

Definition set_start (p : Point) (g : Gesture) : Gesture :=
  mkGesture true (pt_x p) (pt_y p) (g_endX g) (g_endY g).

Definition set_end (p : Point) (g : Gesture) : Gesture :=
  mkGesture (g_isDrawing g) (g_startX g) (g_startY g) (pt_x p) (pt_y p).

Definition stop_drawing (g : Gesture) : Gesture :=
  mkGesture false (g_startX g) (g_startY g) (g_endX g) (g_endY g).

Definition mousedown (env : Env) (viewport : Viewport) (coords : Point)
  : M unit :=
  s <- get ;;
  if isTool s "select" then ret tt
  else if isTool s "eraser" then
    annotationToDelete <-
      getAnnotationAtPoint (currentPage env) (pt_x coords) (pt_y coords)
                           viewport ;;
    match annotationToDelete with
    | Some a =>
        s <- get ;;
        match heap s !! a with
        | Some o =>
            let annotationType := Annotation.type o in
            _ <- deleteAnnotation env (Annotation.id o) ;;
            renderAnnotations (currentPage env) (Some viewport) ;;
            showNotification (annotationType ++ " annotation erased")
                             "success"
        | None => ret tt
        end
    | None => showNotification "No annotation found at this location" "info"
    end
  else
    modify (fun s => set_gesture (set_start coords (gesture s)) s) ;;
    s <- get ;;
    if isTool s "draw" then
      modify (set_currentStroke (Some [coords])) ;;
      modify (set_isDrawing true)
    else ret tt.

Definition mousemove (env : Env) (viewport : Viewport) (coords : Point)
  : M unit :=
  s <- get ;;
  if isTool s "eraser" then
    annotationUnderCursor <-
      getAnnotationAtPoint (currentPage env) (pt_x coords) (pt_y coords)
                           viewport ;;
    showEraserHover env annotationUnderCursor viewport
  else if negb (g_isDrawing (gesture s)) || isTool s "select"
          || isTool s "eraser" then ret tt
  else
    modify (fun s => set_gesture (set_end coords (gesture s)) s) ;;
    s <- get ;;
    if isTool s "draw" then
      match currentStroke s with
      | Some stroke =>
          modify (set_currentStroke (Some (stroke ++ [coords]))) ;;
          showPreview env
      | None => throw "TypeError"
      end
    else showPreview env.

(** The commit of a finished gesture: the [if (this.currentTool === 'draw')
    ... else ...] statement of the [mouseup] handler. *)
Definition commitGesture (env : Env) (viewport : Viewport)
    (newId now : string) : M unit :=
  s <- get ;;
  if isTool s "draw" then
    modify (set_isDrawing false) ;;
    match currentStroke s with
    | Some stroke =>
        if Nat.ltb 1 (length stroke) then
          let normalizedStroke :=
            map (fun point =>
                   canvasToNormalized (pt_x point) (pt_y point) viewport)
                stroke in
          createDrawAnnotation (currentPage env) normalizedStroke
                               (currentColor s) newId now
        else ret tt
    | None => ret tt
    end ;;
    modify (set_currentStroke None)
  else
    let g := gesture s in
    let normalizedCoords :=
      canvasToNormalized (g_startX g) (g_startY g) viewport in
    let normalizedCoords2 :=
      canvasToNormalized (g_endX g) (g_endY g) viewport in
    createAnnotation (currentPage env)
                     (pt_x normalizedCoords) (pt_y normalizedCoords)
                     (pt_x normalizedCoords2) (pt_y normalizedCoords2)
                     (currentTool s) (currentColor s) newId now.

Definition mouseup (env : Env) (viewport : Viewport) (coords : Point)
    (newId now : string) : M unit :=
  s <- get ;;
  if negb (g_isDrawing (gesture s)) || isTool s "select"
     || isTool s "eraser" then ret tt
  else
    modify (fun s =>
      set_gesture (stop_drawing (set_end coords (gesture s))) s) ;;
    commitGesture env viewport newId now ;;
    renderAnnotations (currentPage env) (Some viewport).

Definition dblclick (env : Env) (viewport : Viewport) (coords : Point)
    (newId now : string) : M unit :=
  s <- get ;;
  if isTool s "note" then
    let normalizedCoords :=
      canvasToNormalized (pt_x coords) (pt_y coords) viewport in
    createNoteAnnotation env (currentPage env)
                         (pt_x normalizedCoords) (pt_y normalizedCoords)
                         newId now
  else ret tt.

End Methods.

(** The manager as its constructor leaves it. *)
Definition initialState : State :=
  {| heap := [];
     annotations := [];
     currentTool := CONFIG.DEFAULT_TOOL;
     currentColor := CONFIG.DEFAULT_COLOR;
     isDrawing := false;
     currentStroke := None;
     gesture := mkGesture false 0 0 0 0;
     notifications := [] |}.

(** [setTool(tool)] *)
Definition setTool (tool : string) : M unit :=
  modify (fun s =>
    mkState (heap s) (annotations s) tool (currentColor s) (isDrawing s)
            (currentStroke s) (gesture s) (notifications s)).

(** ** Note editing, clearing, export and statistics *)

Section Reporting.
Open Scope js_scope.

Definition withContent (content : string) (a : Annotation.t) : Annotation.t :=
  Annotation.mk (Annotation.id a) (Annotation.type a) (Annotation.color a)
                (Annotation.coordinates a) (Annotation.path a)
                (Annotation.page a) (Some content) (Annotation.timestamp a).

Definition withPage (page : nat) (a : Annotation.t) : Annotation.t :=
  Annotation.mk (Annotation.id a) (Annotation.type a) (Annotation.color a)
                (Annotation.coordinates a) (Annotation.path a)
                page (Annotation.content a) (Annotation.timestamp a).

(** [openNoteEditor(annotation)].  [answer] is what [prompt] returns:
    [None] for [null] (the dialog was cancelled).  The sidebar list is
    refreshed, then the page of the note is re-rendered with a [null]
    viewport when an annotation canvas exists. *)
Definition openNoteEditor (env : Env) (answer : option string)
    (annotation : loc) : M unit :=
  match answer with
  | Some content =>
      s <- get ;;
      match heap s !! annotation with
      | Some a =>
          modify (set_heap (<[annotation := withContent content a]> (heap s))) ;;
          if annotationCanvas env then
            renderAnnotations (Annotation.page a) None
          else ret tt
      | None => ret tt
      end
  | None => ret tt
  end.

(** [clearAnnotations()].  [confirmed] is the answer of [confirm]. *)
Definition clearAnnotations (confirmed : bool) : M unit :=
  if confirmed then
    modify (set_annotations []) ;;
    showNotification "All annotations cleared" "success"
  else ret tt.

(** The array [exportData.annotations] built by [exportAnnotations()]:
    page after page in the order of the map, each record copied with its
    [page] property overwritten by the number of the page key. *)
Definition exportAnnotations (s : State) : list Annotation.t :=
  flat_map
    (fun entry =>
       flat_map (fun annotation =>
                   match heap s !! annotation with
                   | Some a => [withPage (fst entry) a]
                   | None => []
                   end)
                (snd entry))
    (annotations s).

(** A plain object used as a dictionary: [Obj_get] finds the own
    property [key] ([None] when the object has no such own property) and
    [Obj_set] creates or overwrites it. *)
Fixpoint Obj_get {K V} (eqb : K -> K -> bool) (key : K) (o : list (K * V))
  : option V :=
  match o with
  | [] => None
  | (k, v) :: o' => if eqb k key then Some v else Obj_get eqb key o'
  end.

Fixpoint Obj_set {K V} (eqb : K -> K -> bool) (key : K) (v : V)
    (o : list (K * V)) : list (K * V) :=
  match o with
  | [] => [(key, v)]
  | (k, v0) :: o' =>
      if eqb k key then (k, v) :: o' else (k, v0) :: Obj_set eqb key v o'
  end.

(** The properties an object created by [{}] inherits from
    [Object.prototype]: a read of one of them on an object without such
    an own property finds a function, or for [__proto__] the prototype
    itself, not [undefined]. *)
Definition Object_prototype : list string :=
  [ "constructor"; "hasOwnProperty"; "isPrototypeOf";
    "propertyIsEnumerable"; "toLocaleString"; "toString"; "valueOf";
    "__proto__"; "__defineGetter__"; "__defineSetter__";
    "__lookupGetter__"; "__lookupSetter__" ]%string.

Definition inherited (key : string) : bool :=
  existsb (String.eqb key) Object_prototype.

(** What [stats.byType] holds under a key: a number, or the (non-empty)
    string that [+ 1] makes of a value that is not a number. *)
Inductive Tally : Type :=
| Count (n : nat)
| Text.

Record Stats := mkStats {
  total : nat;
  byType : list (string * Tally);
  byPage : list (nat * nat)
}.

(** [stats.byType[annotation.type] = (stats.byType[annotation.type] || 0) + 1].
    The read finds the own property, else an inherited one, else
    [undefined]; a number (or [undefined], through [|| 0]) is incremented,
    while a string, a function or an object is truthy and [+ 1] appends
    "1" to its text.  The assignment creates or overwrites the own
    property, except under [__proto__], whose setter ignores a string. *)
Definition countType (h : Heap) (stats : Stats) (annotation : loc) : Stats :=
  match h !! annotation with
  | Some a =>
      let key := Annotation.type a in
      let next :=
        match Obj_get String.eqb key (byType stats) with
        | Some (Count n) => Count (n + 1)
        | Some Text => Text
        | None => if inherited key then Text else Count (0 + 1)
        end in
      if String.eqb key "__proto__" then stats
      else
        mkStats (total stats)
                (Obj_set String.eqb key next (byType stats))
                (byPage stats)
  | None => stats
  end.

(** The callback of [this.annotations.forEach] in [getAnnotationStats]. *)
Definition countPage (h : Heap) (stats : Stats) (entry : nat * list loc)
  : Stats :=
  let pageNum := fst entry in
  let pageAnnotations := snd entry in
  let stats1 :=
    mkStats (total stats + length pageAnnotations)
            (byType stats)
            (Obj_set Nat.eqb pageNum (length pageAnnotations) (byPage stats)) in
  fold_left (countType h) pageAnnotations stats1.

(** [getAnnotationStats()] *)
Definition getAnnotationStats (s : State) : Stats :=
  fold_left (countPage (heap s)) (annotations s) (mkStats 0 [] []).

End Reporting.

(** ** The loading overlay: which step a progress value belongs to *)

Module InteractiveLoadingManager.

Record Step := mkStep {
  id : string;
  title : string;
  description : string;
  icon : string;
  progressRange : R * R;
  infoCard : string
}.

Definition steps : list Step :=
  [ mkStep "chunk" "Smart Chunking" "Breaking text into meaningful sections"
           "fas fa-cut" (0, 35)%R "info-chunk";
    mkStep "embed" "AI Vectorization" "Creating semantic embeddings with AI"
           "fas fa-brain" (35, 80)%R "info-embed";
    mkStep "index" "Building Index" "Creating searchable knowledge base"
           "fas fa-search" (80, 100)%R "info-index" ].

(** [percent >= s.progressRange[0] && percent <= s.progressRange[1]] *)
Definition covers (percent : R) (s : Step) : bool :=
  bool_decide ((percent >= fst (progressRange s))%R /\
               (percent <= snd (progressRange s))%R).

(** [this.steps.indexOf(step)]: the three step objects are distinct and
    are told apart here by their [id]; [None] is [-1]. *)
Definition indexOf (step : Step) (l : list Step) : option nat :=
  findIndex (fun s => String.eqb (id s) (id step)) l.

(** [updateStepByProgress(percent)] as a function of [this.currentStep];
    [updateCurrentStep] only repaints. *)
Definition updateStepByProgress (percent : R) (currentStep : nat) : nat :=
  match List.find (covers percent) steps with
  | Some step =>
      match indexOf step steps with
      | Some i => if Nat.eqb i currentStep then currentStep else i
      | None => currentStep
      end
  | None => currentStep
  end.

End InteractiveLoadingManager.

(** ** Vocabulary of the specification *)

Section Vocabulary.
Open Scope R_scope.

(** Clamping of the projection parameter to [[0,1]]. *)
Definition clamp01 (t : R) : R := Rmax 0 (Rmin 1 t).

(** Point-to-segment distance as the specification words it: project the
    point on the line through [p1] and [p2], clamp the parameter, take the
    closest point of the segment and measure the Euclidean distance. *)
Definition segmentDistance (p p1 p2 : Point) : R :=
  let C := pt_x p2 - pt_x p1 in
  let D := pt_y p2 - pt_y p1 in
  let t :=
    clamp01 (((pt_x p - pt_x p1) * C + (pt_y p - pt_y p1) * D)
             / (C * C + D * D)) in
  let cx := pt_x p1 + t * C in
  let cy := pt_y p1 + t * D in
  sqrt ((pt_x p - cx) * (pt_x p - cx) + (pt_y p - cy) * (pt_y p - cy)).

(** A normalized point seen in device space. *)
Definition toDevice (p : Point) (viewport : Viewport) : Point :=
  normalizedToCanvas (pt_x p) (pt_y p) viewport.

(** The fields of a record once [migratePixelToNormalized] has returned. *)
Definition afterMigration (a : Annotation.t) (viewport : option Viewport)
  : Annotation.t :=
  match viewport with
  | Some v =>
      if areCoordinatesNormalized a viewport then a else migratedFields a v
  | None => a
  end.

(** [startX <= endX] and [startY <= endY]. *)
Definition ordered (c : Coordinates) : Prop :=
  startX c <= endX c /\ startY c <= endY c.

(** The device-space rectangle spanned by a record's coordinates. *)
Definition inDeviceBox (c : Coordinates) (viewport : Viewport) (x y : R)
  : Prop :=
  let s := normalizedToCanvas (startX c) (startY c) viewport in
  let e := normalizedToCanvas (endX c) (endY c) viewport in
  Rmin (pt_x s) (pt_x e) <= x <= Rmax (pt_x s) (pt_x e) /\
  Rmin (pt_y s) (pt_y e) <= y <= Rmax (pt_y s) (pt_y e).

(** Highlight, underline and strikethrough: the types that take the
    [default] branch of the hit test. *)
Definition isBoxType (type : string) : bool :=
  negb (String.eqb type "note") && negb (String.eqb type "draw").

(** Every pixel coordinate lies within twice the viewport, so that the
    converted value is read as normalized by [areCoordinatesNormalized]. *)
Definition withinTwiceViewport (c : Coordinates) (v : Viewport) : Prop :=
  Rabs (startX c) <= 2 * width v /\ Rabs (endX c) <= 2 * width v /\
  Rabs (startY c) <= 2 * height v /\ Rabs (endY c) <= 2 * height v.

End Vocabulary.

(** Does the candidate at [r] pass the hit test of the loop, seen from
    heap [h]? *)
Definition hitsAt (h : Heap) (x y : R) (viewport : Viewport) (r : loc)
  : bool :=
  match h !! r with
  | Some a => hitTest (afterMigration a (Some viewport)) x y viewport
  | None => false
  end.

(** The most recently inserted record of a page array that passes the hit
    test: the first match in reverse insertion order. *)
Definition topmostHit (h : Heap) (x y : R) (viewport : Viewport)
    (pageAnnotations : list loc) : option loc :=
  List.find (hitsAt h x y viewport) (rev pageAnnotations).

(** What the lazy migration of a render or hit-test pass does to the heap:
    the record at [r], then the records of a page array in order. *)
Definition migrateAt (h : Heap) (v : Viewport) (r : loc) : Heap :=
  match h !! r with
  | Some a =>
      if areCoordinatesNormalized a (Some v) then h
      else <[r := migratedFields a v]> h
  | None => h
  end.

Definition migrateAll (h : Heap) (v : Viewport) (pageAnnotations : list loc)
  : Heap :=
  fold_left (fun h r => migrateAt h v r) pageAnnotations h.

(** All records of the store, page after page. *)
Definition allRecords (m : AnnotationMap) : list loc :=
  concat (map snd m).

(** Number of records of a page array, and of the store, that carry the
    identifier [annotationId]. *)
Definition countIn (h : Heap) (annotationId : string) (arr : list loc)
  : nat :=
  length (List.filter (hasId h annotationId) arr).

Definition countId (h : Heap) (annotationId : string) (m : AnnotationMap)
  : nat :=
  countIn h annotationId (allRecords m).

(** [countAll()]: the number of records of the store. *)
Definition countAll (m : AnnotationMap) : nat := length (allRecords m).

(** A page array with the first record carrying [annotationId] removed. *)
Definition withoutFirst (h : Heap) (annotationId : string) (arr : list loc)
  : list loc :=
  match findIndex (hasId h annotationId) arr with
  | Some index => delete index arr
  | None => arr
  end.

(** The store with that removal done on every page. *)
Definition removeFrom (h : Heap) (annotationId : string) (m : AnnotationMap)
  : AnnotationMap :=
  map (fun entry => (fst entry, withoutFirst h annotationId (snd entry))) m.

(** The record a creation method allocates and appends to its page: a new
    object at the end of the heap, referenced last by the page array. *)
Definition created (s s' : State) (pageNum : nat) (a : Annotation.t) : Prop :=
  heap s' = heap s ++ [a] /\
  pageAnnotationsOf pageNum s'
  = pageAnnotationsOf pageNum s ++ [length (heap s)].

(** The keys of a [Map] are pairwise distinct. *)
Definition wfMap (m : AnnotationMap) : Prop := NoDup (map fst m).

(** ** Vocabulary of the further properties *)

(** Two versions of a record that differ at most in [coordinates] and
    [path]. *)
Definition sameIdentity (a a' : Annotation.t) : Prop :=
  Annotation.id a' = Annotation.id a /\
  Annotation.type a' = Annotation.type a /\
  Annotation.color a' = Annotation.color a /\
  Annotation.page a' = Annotation.page a /\
  Annotation.content a' = Annotation.content a /\
  Annotation.timestamp a' = Annotation.timestamp a.

(** [h'] holds the same objects as [h], each possibly migrated. *)
Definition heapRefines (h h' : Heap) : Prop :=
  length h' = length h /\
  forall l a, h !! l = Some a -> exists a', h' !! l = Some a' /\ sameIdentity a a'.

(** Every reference of the page map points into the heap. *)
Definition refsValid (s : State) : Prop :=
  forall r, In r (allRecords (annotations s)) -> (r < length (heap s))%nat.

(** The shape every reachable manager has: distinct page keys, no record
    referenced twice, no dangling reference. *)
Definition storeInvariant (s : State) : Prop :=
  wfMap (annotations s) /\
  NoDup (allRecords (annotations s)) /\
  refsValid s.

(** A computation keeps a property of the manager, also when it raises. *)
Definition preserves (P : State -> Prop) {A} (m : M A) : Prop :=
  forall s, P s -> P (snd (m s)).

(** Number of records of the store whose type is [type]. *)
Definition countOfType (h : Heap) (type : string) (m : AnnotationMap) : nat :=
  length (List.filter
            (fun r => match h !! r with
                      | Some a => String.eqb (Annotation.type a) type
                      | None => false
                      end)
            (allRecords m)).

(** The pointer moved through the points [pts], one [mousemove] each. *)
Definition dragThrough (env : Env) (v : Viewport) (pts : list Point)
    (s : State) : State :=
  fold_left (fun s p => snd (mousemove env v p s)) pts s.

(** The records of the store, page after page. *)
Definition storedRecords (s : State) : list Annotation.t :=
  flat_map (fun r => match heap s !! r with Some a => [a] | None => [] end)
           (allRecords (annotations s)).

(** A counter of [stats.byPage], read as a number ([undefined] is no
    record). *)
Definition counter {K} (eqb : K -> K -> bool) (key : K) (o : list (K * nat))
  : nat :=
  match Obj_get eqb key o with Some n => n | None => 0 end.

(** The own property [key] of [stats.byType] once [c] more records of
    type [key] have been counted, [v] being what it held before. *)
Definition afterCounting (key : string) (c : nat) (v : option Tally)
  : option Tally :=
  if String.eqb key "__proto__" then v
  else
    match c with
    | O => v
    | S _ =>
        Some match v with
             | Some (Count n) => Count (n + c)
             | Some Text => Text
             | None => if inherited key then Text else Count c
             end
    end.

(** The references of the store, page after page, each with the number of
    the page key it is stored under. *)
Definition keyedRecords (m : AnnotationMap) : list (nat * loc) :=
  flat_map (fun entry => map (fun r => (fst entry, r)) (snd entry)) m.

(** The [page] field of every stored record is the number of the page
    key the record is stored under. *)
Definition pagesAgree (s : State) : Prop :=
  forall k r a,
    In (k, r) (keyedRecords (annotations s)) ->
    heap s !! r = Some a -> Annotation.page a = k.

(** [s'] has the page map, the notification log, the tool and the colour
    of [s], and the same records, each possibly migrated. *)
Definition recordsKept (s s' : State) : Prop :=
  annotations s' = annotations s /\
  notifications s' = notifications s /\
  currentTool s' = currentTool s /\
  currentColor s' = currentColor s /\
  heapRefines (heap s) (heap s').

(** ** Sample data used to exercise the statements *)

Definition sampleViewport : Viewport := mkViewport 1000 1000 0 1.
Definition narrowViewport : Viewport := mkViewport 100 100 0 1.

Definition mkRecord (id type : string) (c : Coordinates)
    (path : option (list Point)) : Annotation.t :=
  Annotation.mk id type "#ffff00" c path 1 None "2024-05-01T10:00:00.000Z".

Definition storeOf (records : Heap) (pages : AnnotationMap) : State :=
  mkState records pages CONFIG.DEFAULT_TOOL CONFIG.DEFAULT_COLOR false None
          (mkGesture false 0 0 0 0) [].

(** A highlight stored in pixel coordinates by an earlier version. *)
Definition legacyHighlight : Annotation.t :=
  mkRecord "a1" "highlight" (mkCoordinates 100 100 300 150) None.

Definition legacyStore : State := storeOf [legacyHighlight] [(1%nat, [0%nat])].

(** Two overlapping highlights on page 1, [highlightB] inserted last. *)
Definition highlightA : Annotation.t :=
  mkRecord "a1" "highlight" (mkCoordinates (1/10) (1/10) (3/10) (15/100)) None.

Definition highlightB : Annotation.t :=
  mkRecord "a2" "highlight" (mkCoordinates (2/10) (1/10) (4/10) (3/10)) None.

Definition overlapStore : State :=
  storeOf [highlightA; highlightB] [(1%nat, [0%nat; 1%nat])].

(** A committed stroke and a note. *)
Definition strokePath : list Point :=
  [mkPoint (1/10) (9/10); mkPoint (5/10) (1/10); mkPoint (8/10) (6/10)].

Definition strokeRecord : Annotation.t :=
  mkRecord "a3" "draw" (mkCoordinates (1/10) (1/10) (8/10) (9/10))
           (Some strokePath).

Definition noteRecord : Annotation.t :=
  mkRecord "a4" "note"
           (mkCoordinates (1/2) (1/2) (1/2 + 24/1000) (1/2 + 24/1000)) None.

Definition sketchStore : State :=
  storeOf [strokeRecord; noteRecord] [(1%nat, [0%nat; 1%nat])].

(** The page as the handlers see it: page 1 is shown, its annotation
    canvas exists and the interaction layer carries [sampleViewport]. *)
Definition sampleEnv : Env := mkEnv 1 true (Some sampleViewport).

(** The draw tool pressed at device point (100, 100) on page 1, which
    already holds the two highlights. *)
Definition strokeStarted : State :=
  snd (mousedown sampleEnv sampleViewport (mkPoint 100 100)
         (snd (setTool "draw" overlapStore))).

(** The same page map seen while page 2 is displayed. *)
Definition otherPageEnv : Env := mkEnv 2 true (Some sampleViewport).

(** The highlight tool pressed at device point (100, 100) on an empty
    manager. *)
Definition dragStarted : State :=
  snd (mousedown sampleEnv sampleViewport (mkPoint 100 100)
         (snd (setTool "highlight" initialState))).

(** The note tool selected on an empty manager. *)
Definition noteToolSelected : State := snd (setTool "note" initialState).

(** A stroke of three points drawn on an empty page, not yet released. *)
Definition strokeDrawn : State :=
  snd (mousemove sampleEnv sampleViewport (mkPoint 300 200)
         (snd (mousemove sampleEnv sampleViewport (mkPoint 200 150)
                 (snd (mousedown sampleEnv sampleViewport (mkPoint 100 100)
                         (snd (setTool "draw" initialState))))))).

(** * Properties *)

Arguments areCoordinatesNormalized : simpl never.
Arguments migratedFields : simpl never.
Arguments hitTest : simpl never.
Arguments nearPath : simpl never.
Arguments distanceToLineSegment : simpl never.

Section GeometryFacts.
Open Scope R_scope.

Lemma sum_squares_zero (c d : R) : c * c + d * d = 0 -> c = 0 /\ d = 0.
Proof. intros H. split; nra. Qed.

Lemma clamp01_below (t : R) : t < 0 -> clamp01 t = 0.
Proof.
  intros H. unfold clamp01.
  rewrite (Rmin_right 1 t) by lra. apply Rmax_left. lra.
Qed.

Lemma clamp01_above (t : R) : 1 < t -> clamp01 t = 1.
Proof.
  intros H. unfold clamp01.
  rewrite (Rmin_left 1 t) by lra. apply Rmax_right. lra.
Qed.

Lemma clamp01_inside (t : R) : 0 <= t <= 1 -> clamp01 t = t.
Proof.
  intros H. unfold clamp01.
  rewrite (Rmin_right 1 t) by lra. apply Rmax_right. lra.
Qed.

Lemma clamp01_range (t : R) : 0 <= clamp01 t <= 1.
Proof.
  unfold clamp01. split.
  - apply Rmax_l.
  - apply Rmax_lub; [lra | apply Rmin_l].
Qed.

(** The method computes the clamped-projection distance. *)
Lemma distanceToLineSegment_spec (px py x1 y1 x2 y2 : R) :
  distanceToLineSegment px py x1 y1 x2 y2 =
  segmentDistance (mkPoint px py) (mkPoint x1 y1) (mkPoint x2 y2).
Proof.
  unfold distanceToLineSegment, segmentDistance. cbn [pt_x pt_y].
  set (C := x2 - x1). set (D := y2 - y1).
  set (dot := (px - x1) * C + (py - y1) * D).
  destruct (decide (C * C + D * D = 0)) as [Hz | Hnz].
  - destruct (sum_squares_zero _ _ Hz) as [HC HD].
    rewrite HC, HD. f_equal. ring.
  - destruct (decide (dot / (C * C + D * D) < 0)) as [Hlt | Hge].
    + rewrite clamp01_below by exact Hlt. cbn [fst snd]. f_equal. ring.
    + destruct (decide (dot / (C * C + D * D) > 1)) as [Hgt | Hle].
      * rewrite clamp01_above by exact Hgt. cbn [fst snd].
        subst C D. f_equal. ring.
      * rewrite clamp01_inside by (unfold Rgt in Hle; lra).
        cbn [fst snd]. reflexivity.
Qed.

End GeometryFacts.

Section CoordinateTransformer.
Open Scope R_scope.

(** C1. For every point and every viewport of positive width and height,
    taking the point to normalized space with [canvasToNormalized] and back
    with [normalizedToCanvas] gives the point again.  Numbers are reals, so
    the round trip is exact. *)
Theorem canvas_normalized_roundtrip (x y : R) (v : Viewport) :
  0 < width v -> 0 < height v ->
  normalizedToCanvas (pt_x (canvasToNormalized x y v))
                     (pt_y (canvasToNormalized x y v)) v
  = mkPoint x y.
Proof.
  intros Hw Hh. unfold normalizedToCanvas, canvasToNormalized.
  cbn [pt_x pt_y]. f_equal; field; lra.
Qed.

Lemma canvas_normalized_roundtrip_witness :
  normalizedToCanvas
    (pt_x (canvasToNormalized 100 150 (mkViewport 1000 800 0 1)))
    (pt_y (canvasToNormalized 100 150 (mkViewport 1000 800 0 1)))
    (mkViewport 1000 800 0 1)
  = mkPoint 100 150.
Proof.
  apply (canvas_normalized_roundtrip 100 150 (mkViewport 1000 800 0 1));
    cbn [width height]; lra.
Defined.

(** The method never divides by zero: on all inputs the model with the
    visible division returns a number, the one [distanceToLineSegment]
    computes. *)
Lemma Checked_distanceToLineSegment_agrees (px py x1 y1 x2 y2 : R) :
  Checked.distanceToLineSegment px py x1 y1 x2 y2
  = Some (distanceToLineSegment px py x1 y1 x2 y2).
Proof.
  unfold Checked.distanceToLineSegment, distanceToLineSegment.
  cbv zeta.
  destruct (decide ((x2 - x1) * (x2 - x1) + (y2 - y1) * (y2 - y1) = 0))
    as [Hz | Hnz]; [reflexivity |].
  unfold Checked.quotient.
  destruct (decide ((x2 - x1) * (x2 - x1) + (y2 - y1) * (y2 - y1) = 0))
    as [Hz | _]; [contradiction | reflexivity].
Qed.

(** A division by the squared length of a segment whose endpoints coincide
    would be a division by zero. *)
Lemma quotient_by_zero_length (dot x1 y1 : R) :
  Checked.quotient dot ((x1 - x1) * (x1 - x1) + (y1 - y1) * (y1 - y1))
  = None.
Proof.
  unfold Checked.quotient.
  destruct (decide ((x1 - x1) * (x1 - x1) + (y1 - y1) * (y1 - y1) = 0))
    as [_ | Hnz]; [reflexivity |].
  exfalso. apply Hnz. ring.
Qed.

(** C10. [distanceToLineSegment] is total over finite inputs: with the
    quotient by zero made visible, it returns a number, not [NaN], on
    every input, so no division by zero is ever performed.  On a segment
    whose two endpoints coincide the division by the squared length, which
    would be one, is skipped, and the result is the Euclidean distance
    from the query point to that endpoint. *)
Theorem distanceToLineSegment_degenerate (px py x1 y1 x2 y2 : R) :
  (exists d, Checked.distanceToLineSegment px py x1 y1 x2 y2 = Some d /\
             0 <= d) /\
  Checked.distanceToLineSegment px py x1 y1 x1 y1
  = Some (sqrt ((px - x1) * (px - x1) + (py - y1) * (py - y1))) /\
  Checked.quotient ((px - x1) * (x1 - x1) + (py - y1) * (y1 - y1))
                   ((x1 - x1) * (x1 - x1) + (y1 - y1) * (y1 - y1))
  = None.
Proof.
  split; [| split].
  - unfold Checked.distanceToLineSegment. cbv zeta.
    destruct (decide ((x2 - x1) * (x2 - x1) + (y2 - y1) * (y2 - y1) = 0))
      as [Hz | Hnz].
    + eexists. split; [reflexivity | apply sqrt_pos].
    + unfold Checked.quotient.
      destruct (decide ((x2 - x1) * (x2 - x1) + (y2 - y1) * (y2 - y1) = 0))
        as [Hz | _]; [contradiction |].
      eexists. split; [reflexivity | apply sqrt_pos].
  - unfold Checked.distanceToLineSegment. cbv zeta.
    destruct (decide ((x1 - x1) * (x1 - x1) + (y1 - y1) * (y1 - y1) = 0))
      as [_ | Hnz]; [reflexivity |].
    exfalso. apply Hnz. ring.
  - apply quotient_by_zero_length.
Qed.

(** The zero-length branch is taken for coinciding endpoints only. *)
Lemma zero_length_iff_coincide (x1 y1 x2 y2 : R) :
  (x2 - x1) * (x2 - x1) + (y2 - y1) * (y2 - y1) = 0 <-> x2 = x1 /\ y2 = y1.
Proof.
  split.
  - intros H. destruct (sum_squares_zero _ _ H). split; lra.
  - intros [-> ->]. ring.
Qed.

(** The distance computed is the least distance from the query point to a
    point of the segment. *)
Lemma segmentDistance_least (p p1 p2 : Point) (t : R) :
  0 <= t <= 1 ->
  segmentDistance p p1 p2 <=
  sqrt ((pt_x p - (pt_x p1 + t * (pt_x p2 - pt_x p1))) *
        (pt_x p - (pt_x p1 + t * (pt_x p2 - pt_x p1))) +
        (pt_y p - (pt_y p1 + t * (pt_y p2 - pt_y p1))) *
        (pt_y p - (pt_y p1 + t * (pt_y p2 - pt_y p1)))).
Proof.
  intros Ht. unfold segmentDistance.
  set (C := pt_x p2 - pt_x p1). set (D := pt_y p2 - pt_y p1).
  set (A := pt_x p - pt_x p1). set (B := pt_y p - pt_y p1).
  set (L := C * C + D * D).
  set (u := clamp01 ((A * C + B * D) / L)).
  apply sqrt_le_1_alt.
  replace (pt_x p - (pt_x p1 + u * C)) with (A - u * C) by (unfold A; ring).
  replace (pt_y p - (pt_y p1 + u * D)) with (B - u * D) by (unfold B; ring).
  replace (pt_x p - (pt_x p1 + t * C)) with (A - t * C) by (unfold A; ring).
  replace (pt_y p - (pt_y p1 + t * D)) with (B - t * D) by (unfold B; ring).
  assert (HL : 0 <= L) by (unfold L; nra).
  (* (t - u) * ((t + u) * L - 2 * dot) >= 0 *)
  assert (Hkey : 0 <= (t - u) * ((t + u) * L - 2 * (A * C + B * D))).
  { destruct (Req_dec L 0) as [HL0 | HL0].
    - destruct (sum_squares_zero C D HL0) as [HC HD].
      rewrite HC, HD, HL0. lra.
    - assert (HLpos : 0 < L) by lra.
      set (q := (A * C + B * D) / L) in *.
      assert (Hq : A * C + B * D = q * L) by (unfold q; field; lra).
      rewrite Hq.
      replace ((t - u) * ((t + u) * L - 2 * (q * L)))
        with (L * ((t - u) * (t + u - 2 * q))) by ring.
      apply Rmult_le_pos; [lra |].
      destruct (Rlt_dec q 0) as [Hq0 | Hq0].
      + unfold u. rewrite clamp01_below by exact Hq0. nra.
      + destruct (Rlt_dec 1 q) as [Hq1 | Hq1].
        * unfold u. rewrite clamp01_above by exact Hq1. nra.
        * unfold u. rewrite clamp01_inside by lra.
          replace ((t - q) * (t + q - 2 * q)) with ((t - q) * (t - q))
            by ring.
          apply Rle_0_sqr. }
  unfold L in Hkey.
  match goal with
  | |- ?l <= ?r =>
      replace r with
        (l + (t - u) * ((t + u) * (C * C + D * D) - 2 * (A * C + B * D)))
        by ring
  end.
  lra.
Qed.

End CoordinateTransformer.

(** ** Migration *)

Section MigrationFacts.
Open Scope R_scope.

Lemma Rabs_le_iff (x b : R) : Rabs x <= b <-> - b <= x <= b.
Proof.
  unfold Rabs. destruct (Rcase_abs x); lra.
Qed.

Lemma areCoordinatesNormalized_true (a : Annotation.t) (v : Viewport) :
  areCoordinatesNormalized a (Some v) = true <->
  Rabs (startX (Annotation.coordinates a)) <= 2 /\
  Rabs (startY (Annotation.coordinates a)) <= 2 /\
  Rabs (endX (Annotation.coordinates a)) <= 2 /\
  Rabs (endY (Annotation.coordinates a)) <= 2.
Proof.
  unfold areCoordinatesNormalized. rewrite bool_decide_eq_true.
  split.
  - intros H.
    pose proof (Rmax_l (Rmax (Rmax (Rabs (startX (Annotation.coordinates a)))
                                   (Rabs (startY (Annotation.coordinates a))))
                             (Rabs (endX (Annotation.coordinates a))))
                       (Rabs (endY (Annotation.coordinates a)))) as H1.
    pose proof (Rmax_r (Rmax (Rmax (Rabs (startX (Annotation.coordinates a)))
                                   (Rabs (startY (Annotation.coordinates a))))
                             (Rabs (endX (Annotation.coordinates a))))
                       (Rabs (endY (Annotation.coordinates a)))) as H2.
    pose proof (Rmax_l (Rmax (Rabs (startX (Annotation.coordinates a)))
                             (Rabs (startY (Annotation.coordinates a))))
                       (Rabs (endX (Annotation.coordinates a)))) as H3.
    pose proof (Rmax_r (Rmax (Rabs (startX (Annotation.coordinates a)))
                             (Rabs (startY (Annotation.coordinates a))))
                       (Rabs (endX (Annotation.coordinates a)))) as H4.
    pose proof (Rmax_l (Rabs (startX (Annotation.coordinates a)))
                       (Rabs (startY (Annotation.coordinates a)))) as H5.
    pose proof (Rmax_r (Rabs (startX (Annotation.coordinates a)))
                       (Rabs (startY (Annotation.coordinates a)))) as H6.
    repeat split; lra.
  - intros (H1 & H2 & H3 & H4). repeat apply Rmax_lub; assumption.
Qed.

Lemma Rabs_div_le (x w : R) : 0 < w -> Rabs x <= 2 * w -> Rabs (x / w) <= 2.
Proof.
  intros Hw H. unfold Rdiv. rewrite Rabs_mult.
  rewrite (Rabs_right (/ w)).
  - apply (Rmult_le_reg_r w); [exact Hw |].
    rewrite Rmult_assoc, Rinv_l by lra. lra.
  - left. apply Rinv_0_lt_compat. exact Hw.
Qed.

Lemma migratedFields_coordinates (a : Annotation.t) (v : Viewport) :
  Annotation.coordinates (migratedFields a v) =
  {| startX := startX (Annotation.coordinates a) / width v;
     startY := startY (Annotation.coordinates a) / height v;
     endX := endX (Annotation.coordinates a) / width v;
     endY := endY (Annotation.coordinates a) / height v |}.
Proof.
  unfold migratedFields. cbn.
  destruct (String.eqb (Annotation.type a) "draw"); [| reflexivity].
  destruct (Annotation.path a); reflexivity.
Qed.

(** Fields that [migratedFields] never writes. *)
Lemma migratedFields_frame (a : Annotation.t) (v : Viewport) :
  Annotation.id (migratedFields a v) = Annotation.id a /\
  Annotation.type (migratedFields a v) = Annotation.type a /\
  Annotation.color (migratedFields a v) = Annotation.color a /\
  Annotation.page (migratedFields a v) = Annotation.page a /\
  Annotation.content (migratedFields a v) = Annotation.content a /\
  Annotation.timestamp (migratedFields a v) = Annotation.timestamp a.
Proof.
  unfold migratedFields. cbn.
  destruct (String.eqb (Annotation.type a) "draw"); [| repeat split].
  destruct (Annotation.path a); repeat split.
Qed.

Lemma afterMigration_frame (a : Annotation.t) (viewport : option Viewport) :
  Annotation.id (afterMigration a viewport) = Annotation.id a /\
  Annotation.type (afterMigration a viewport) = Annotation.type a /\
  Annotation.color (afterMigration a viewport) = Annotation.color a /\
  Annotation.page (afterMigration a viewport) = Annotation.page a /\
  Annotation.content (afterMigration a viewport) = Annotation.content a /\
  Annotation.timestamp (afterMigration a viewport) = Annotation.timestamp a.
Proof.
  unfold afterMigration. destruct viewport as [v |]; [| repeat split].
  destruct (areCoordinatesNormalized a (Some v)); [repeat split |].
  apply migratedFields_frame.
Qed.

(** What one call does, in one equation. *)
Lemma migratePixelToNormalized_run (s : State) (r : loc)
    (viewport : option Viewport) :
  fst (migratePixelToNormalized r viewport s) = Normal r /\
  heap (snd (migratePixelToNormalized r viewport s)) !! r
    = (fun a => afterMigration a viewport) <$> (heap s !! r) /\
  (forall l, l <> r ->
     heap (snd (migratePixelToNormalized r viewport s)) !! l = heap s !! l) /\
  length (heap (snd (migratePixelToNormalized r viewport s)))
    = length (heap s) /\
  set_heap (heap s) (snd (migratePixelToNormalized r viewport s)) = s.
Proof.
  unfold migratePixelToNormalized, afterMigration.
  destruct viewport as [v |].
  - destruct (heap s !! r) as [a |] eqn:Hr.
    + destruct (areCoordinatesNormalized a (Some v)) eqn:Hn; cbn.
      * rewrite Hr. cbn. rewrite Hn.
        repeat split; try reflexivity. destruct s; reflexivity.
      * rewrite list_lookup_insert_eq by (eapply lookup_lt_Some; eauto).
        rewrite Hn.
        repeat split.
        -- intros l Hl. apply list_lookup_insert_ne. congruence.
        -- apply length_insert.
        -- destruct s; reflexivity.
    + cbn. rewrite Hr. repeat split; try reflexivity. destruct s; reflexivity.
  - cbn. repeat split; try reflexivity.
    + destruct (heap s !! r); reflexivity.
    + destruct s; reflexivity.
Qed.

Lemma migratePixelToNormalized_eta (s : State) (r : loc)
    (viewport : option Viewport) :
  migratePixelToNormalized r viewport s
  = (Normal r, snd (migratePixelToNormalized r viewport s)).
Proof.
  pose proof (migratePixelToNormalized_run s r viewport) as [H _].
  destruct (migratePixelToNormalized r viewport s) as [c s']. cbn in *.
  congruence.
Qed.

(** A record that reads as normalized is left alone. *)
Lemma migratePixelToNormalized_noop (s : State) (r : loc)
    (viewport : option Viewport) :
  (forall a v, heap s !! r = Some a -> viewport = Some v ->
               areCoordinatesNormalized a (Some v) = true) ->
  migratePixelToNormalized r viewport s = (Normal r, s).
Proof.
  intros H. unfold migratePixelToNormalized.
  destruct viewport as [v |]; [| reflexivity].
  destruct (heap s !! r) as [a |] eqn:Hr; [| reflexivity].
  rewrite (H a v eq_refl eq_refl). reflexivity.
Qed.

End MigrationFacts.

Section MigrationClaims.
Open Scope R_scope.

(** C9. [migratePixelToNormalized] writes at most the [coordinates] and
    [path] fields of the record it is given: [id], [type], [color], [page],
    [content] and [timestamp] keep their values, every other object and the
    rest of the manager are untouched, and the reference returned is the
    reference passed in. *)
Theorem migratePixelToNormalized_frame (s : State) (annotation : loc)
    (viewport : option Viewport) (a : Annotation.t) :
  heap s !! annotation = Some a ->
  let result := migratePixelToNormalized annotation viewport s in
  fst result = Normal annotation /\
  (exists a', heap (snd result) !! annotation = Some a' /\
              Annotation.id a' = Annotation.id a /\
              Annotation.type a' = Annotation.type a /\
              Annotation.color a' = Annotation.color a /\
              Annotation.page a' = Annotation.page a /\
              Annotation.content a' = Annotation.content a /\
              Annotation.timestamp a' = Annotation.timestamp a) /\
  (forall l, l <> annotation -> heap (snd result) !! l = heap s !! l) /\
  set_heap (heap s) (snd result) = s.
Proof.
  intros Ha result. subst result.
  destruct (migratePixelToNormalized_run s annotation viewport)
    as (Hres & Hsame & Hother & _ & Hrest).
  split; [exact Hres |]. split; [| split; assumption].
  exists (afterMigration a viewport). split.
  - rewrite Hsame, Ha. reflexivity.
  - apply afterMigration_frame.
Qed.

Lemma migratePixelToNormalized_frame_witness :
  fst (migratePixelToNormalized 0%nat (Some narrowViewport) legacyStore)
  = Normal 0%nat.
Proof.
  exact (proj1 (migratePixelToNormalized_frame
                  legacyStore 0%nat (Some narrowViewport) legacyHighlight
                  eq_refl)).
Defined.

Lemma legacyHighlight_not_normalized (v : Viewport) :
  areCoordinatesNormalized legacyHighlight (Some v) = false.
Proof.
  apply not_true_is_false. intros H.
  apply areCoordinatesNormalized_true in H. destruct H as (H & _).
  apply Rabs_le_iff in H. cbn in H. lra.
Qed.

Lemma legacyHighlight_narrow_not_normalized :
  areCoordinatesNormalized (migratedFields legacyHighlight narrowViewport)
                           (Some narrowViewport) = false.
Proof.
  apply not_true_is_false. intros H.
  apply areCoordinatesNormalized_true in H. destruct H as (_ & _ & H & _).
  rewrite migratedFields_coordinates in H.
  apply Rabs_le_iff in H. cbn in H. lra.
Qed.

(** C2, as stated, fails: a pixel record that lies beyond twice the
    viewport is still read as pixel data after one conversion, and a second
    call divides it again. *)
Lemma migration_twice_differs :
  let s1 :=
    snd (migratePixelToNormalized 0%nat (Some narrowViewport) legacyStore) in
  let s2 := snd (migratePixelToNormalized 0%nat (Some narrowViewport) s1) in
  Annotation.coordinates <$> (heap s2 !! 0%nat)
  <> Annotation.coordinates <$> (heap s1 !! 0%nat).
Proof.
  cbv zeta.
  set (s1 :=
    snd (migratePixelToNormalized 0%nat (Some narrowViewport) legacyStore)).
  destruct (migratePixelToNormalized_run s1 0%nat (Some narrowViewport))
    as (_ & H2 & _).
  rewrite H2. clear H2.
  destruct (migratePixelToNormalized_run legacyStore 0%nat
              (Some narrowViewport)) as (_ & H1 & _).
  fold s1 in H1. rewrite H1. clear H1.
  change (heap legacyStore !! 0%nat) with (Some legacyHighlight).
  cbn [fmap option_fmap option_map].
  unfold afterMigration at 2 3. rewrite legacyHighlight_not_normalized.
  unfold afterMigration. rewrite legacyHighlight_narrow_not_normalized.
  rewrite !migratedFields_coordinates.
  intros H. injection H as H _ _ _. cbn in H. lra.
Qed.

(** C2, amended.  When the viewport is absent, or the record already reads
    as normalized, or the viewport has positive width and height and every
    pixel coordinate of the record lies within twice the viewport, a second
    call of [migratePixelToNormalized] is a no-op: it returns the same
    reference and leaves the coordinates, the path and everything else as
    the first call left them. *)
Theorem migration_idempotent_within_twice (s : State) (annotation : loc)
    (viewport : option Viewport) :
  (forall a v, heap s !! annotation = Some a -> viewport = Some v ->
     areCoordinatesNormalized a (Some v) = true \/
     (0 < width v /\ 0 < height v /\
      withinTwiceViewport (Annotation.coordinates a) v)) ->
  migratePixelToNormalized annotation viewport
    (snd (migratePixelToNormalized annotation viewport s))
  = migratePixelToNormalized annotation viewport s.
Proof.
  intros H.
  rewrite (migratePixelToNormalized_eta s).
  apply migratePixelToNormalized_noop.
  intros a1 v Ha1 ->.
  destruct (migratePixelToNormalized_run s annotation (Some v))
    as (_ & Hsame & _).
  cbn [snd] in Ha1. rewrite Hsame in Ha1.
  destruct (heap s !! annotation) as [a |] eqn:Ha; [| discriminate].
  cbn in Ha1. injection Ha1 as <-.
  unfold afterMigration.
  destruct (areCoordinatesNormalized a (Some v)) eqn:Hn; [exact Hn |].
  destruct (H a v eq_refl eq_refl) as [Hc | (Hw & Hh & Hx1 & Hx2 & Hy1 & Hy2)];
    [congruence |].
  apply areCoordinatesNormalized_true.
  rewrite migratedFields_coordinates. cbn [startX startY endX endY].
  repeat split; apply Rabs_div_le; assumption.
Qed.

Lemma migration_idempotent_within_twice_witness :
  migratePixelToNormalized 0%nat (Some sampleViewport)
    (snd (migratePixelToNormalized 0%nat (Some sampleViewport) legacyStore))
  = migratePixelToNormalized 0%nat (Some sampleViewport) legacyStore.
Proof.
  apply (migration_idempotent_within_twice
           legacyStore 0%nat (Some sampleViewport)).
  intros a v Ha Hv. right.
  injection Hv as <-. injection Ha as <-.
  unfold withinTwiceViewport. cbn.
  rewrite !Rabs_right by lra. lra.
Defined.

End MigrationClaims.

(** ** Hit testing *)

Section HitTestFacts.
Open Scope R_scope.

Lemma hitCandidate_run (s : State) (r : loc) (x y : R) (v : Viewport) :
  hitCandidate r x y v s
  = (Normal (hitsAt (heap s) x y v r),
     snd (migratePixelToNormalized r (Some v) s)).
Proof.
  unfold hitCandidate, bind, get, hitsAt.
  rewrite (migratePixelToNormalized_eta s r (Some v)).
  destruct (migratePixelToNormalized_run s r (Some v)) as (_ & Hsame & _).
  rewrite Hsame.
  destruct (heap s !! r) as [a |]; reflexivity.
Qed.

Lemma hitsAt_after_migration (s : State) (r l : loc) (x y : R)
    (v v' : Viewport) :
  l <> r ->
  hitsAt (heap (snd (migratePixelToNormalized r (Some v') s))) x y v l
  = hitsAt (heap s) x y v l.
Proof.
  intros Hl. unfold hitsAt.
  destruct (migratePixelToNormalized_run s r (Some v')) as (_ & _ & Hother & _).
  rewrite (Hother l Hl). reflexivity.
Qed.

Lemma find_ext_in {A} (f g : A -> bool) (l : list A) :
  (forall a, In a l -> f a = g a) -> List.find f l = List.find g l.
Proof.
  induction l as [| a l IH]; intros H; [reflexivity |].
  cbn. rewrite (H a (or_introl eq_refl)).
  destruct (g a); [reflexivity |].
  apply IH. intros b Hb. apply H. right. exact Hb.
Qed.

(** The loop returns the first match in reverse order among the first [n]
    entries of the array. *)
Lemma getAnnotationAtPoint_loop_run (arr : list loc) (x y : R) (v : Viewport)
    (n : nat) :
  forall s, NoDup (take n arr) ->
  fst (getAnnotationAtPoint_loop arr n x y v s)
  = Normal (topmostHit (heap s) x y v (take n arr)).
Proof.
  induction n as [| i IH]; intros s Hnd.
  - reflexivity.
  - cbn [getAnnotationAtPoint_loop].
    destruct (arr !! i) as [r |] eqn:Hi.
    + rewrite (take_S_r arr i r Hi) in Hnd |- *.
      apply NoDup_app in Hnd. destruct Hnd as (Hnd & Hfresh & _).
      unfold topmostHit. rewrite rev_app_distr. cbn [rev app List.find].
      unfold bind. rewrite hitCandidate_run.
      destruct (hitsAt (heap s) x y v r) eqn:Hhit.
      * reflexivity.
      * rewrite IH by exact Hnd. unfold topmostHit. f_equal.
        apply find_ext_in. intros l Hl.
        apply hitsAt_after_migration.
        intros ->. apply in_rev in Hl. apply list_elem_of_In in Hl.
        apply (Hfresh r Hl). apply list_elem_of_here.
    + assert (Hge : (length arr <= i)%nat) by (apply lookup_ge_None; exact Hi).
      rewrite (take_ge arr (S i)) in Hnd |- * by lia.
      rewrite IH by (rewrite take_ge by lia; exact Hnd).
      rewrite take_ge by lia. reflexivity.
Qed.

Lemma getAnnotationAtPoint_run (s : State) (pageNum : nat) (x y : R)
    (v : Viewport) :
  NoDup (pageAnnotationsOf pageNum s) ->
  fst (getAnnotationAtPoint pageNum x y v s)
  = Normal (topmostHit (heap s) x y v (pageAnnotationsOf pageNum s)).
Proof.
  intros Hnd. unfold getAnnotationAtPoint, bind, get.
  rewrite getAnnotationAtPoint_loop_run; rewrite firstn_all; auto.
Qed.

Lemma find_app_none {A} (f : A -> bool) (l1 l2 : list A) :
  (forall a, In a l1 -> f a = false) ->
  List.find f (l1 ++ l2) = List.find f l2.
Proof.
  induction l1 as [| a l1 IH]; intros H; [reflexivity |].
  cbn. rewrite (H a (or_introl eq_refl)).
  apply IH. intros b Hb. apply H. right. exact Hb.
Qed.

(** Box types are tested against the device-space rectangle. *)
Lemma hitTest_box (a : Annotation.t) (x y : R) (v : Viewport) :
  isBoxType (Annotation.type a) = true ->
  (hitTest a x y v = true <-> inDeviceBox (Annotation.coordinates a) v x y).
Proof.
  unfold isBoxType, hitTest, inDeviceBox. intros Ht.
  apply andb_true_iff in Ht. destruct Ht as [Hn Hd].
  apply negb_true_iff in Hn. apply negb_true_iff in Hd.
  rewrite Hn, Hd. rewrite bool_decide_eq_true. cbv zeta.
  unfold Rge. intuition lra.
Qed.

End HitTestFacts.

Section HitTestClaims.
Open Scope R_scope.

Lemma nearPath_step (p q : Point) (rest : list Point) (x y : R)
    (v : Viewport) :
  nearPath (p :: q :: rest) x y v =
  if bool_decide
       (segmentDistance (mkPoint x y) (toDevice p v) (toDevice q v) <= 10)
  then true else nearPath (q :: rest) x y v.
Proof.
  change (nearPath (p :: q :: rest) x y v) with
    (if bool_decide
          (distanceToLineSegment x y
             (pt_x (toDevice p v)) (pt_y (toDevice p v))
             (pt_x (toDevice q v)) (pt_y (toDevice q v)) <= 10)
     then true else nearPath (q :: rest) x y v).
  rewrite distanceToLineSegment_spec. reflexivity.
Qed.

(** The inner loop answers [true] exactly when some segment of the device
    polyline is within 10 pixels. *)
Lemma nearPath_iff (pts : list Point) (x y : R) (v : Viewport) :
  nearPath pts x y v = true <->
  exists (j : nat) (p q : Point),
    pts !! j = Some p /\ pts !! S j = Some q /\
    segmentDistance (mkPoint x y) (toDevice p v) (toDevice q v) <= 10.
Proof.
  induction pts as [| p pts IH].
  - split; [discriminate |]. intros (j & p & q & Hp & _). discriminate.
  - destruct pts as [| q rest].
    + split; [discriminate |].
      intros (j & p' & q' & _ & Hq & _). discriminate.
    + rewrite nearPath_step.
      destruct (bool_decide
                  (segmentDistance (mkPoint x y) (toDevice p v)
                                   (toDevice q v) <= 10)) eqn:Hd.
      * apply bool_decide_eq_true in Hd. split; [| reflexivity].
        intros _. exists 0%nat, p, q. repeat split. exact Hd.
      * apply bool_decide_eq_false in Hd. rewrite IH. split.
        -- intros (j & p' & q' & Hp & Hq & Hle).
           exists (S j), p', q'. repeat split; assumption.
        -- intros (j & p' & q' & Hp & Hq & Hle).
           destruct j as [| j].
           ++ cbn in Hp, Hq. injection Hp as <-. injection Hq as <-.
              contradiction.
           ++ exists j, p', q'. repeat split; assumption.
Qed.

Lemma hitTest_draw (m : Annotation.t) (x y : R) (v : Viewport) :
  Annotation.type m = "draw"%string ->
  (hitTest m x y v = true <->
   exists pts, Annotation.path m = Some pts /\ nearPath pts x y v = true).
Proof.
  intros Ht. unfold hitTest. rewrite Ht.
  change (String.eqb "draw" "note") with false.
  change (String.eqb "draw" "draw") with true. cbv iota.
  destruct (Annotation.path m) as [[| p0 pts] |].
  - split; [discriminate |]. intros (pts & Hp & Hn).
    injection Hp as <-. discriminate.
  - split.
    + intros H. exists (p0 :: pts). split; [reflexivity | exact H].
    + intros (pts' & Hp & Hn). injection Hp as <-. exact Hn.
  - split; [discriminate |]. intros (pts & Hp & _). discriminate.
Qed.

Lemma Normal_inj {A} (a b : A) : Normal a = Normal b <-> a = b.
Proof. split; [intros H; injection H; auto | intros ->; reflexivity]. Qed.

(** C4. For a draw annotation the hit test succeeds at the device point
    [(x, y)] exactly when some segment of the polyline, taken to device
    space, lies within 10 pixels of the point, the distance to a segment
    being the clamped-projection distance [segmentDistance] (which
    [distanceToLineSegment] computes, see [distanceToLineSegment_spec]). *)
Theorem draw_hit_iff_near_segment (s : State) (r : loc) (x y : R)
    (v : Viewport) (a : Annotation.t) :
  heap s !! r = Some a ->
  Annotation.type a = "draw"%string ->
  (fst (hitCandidate r x y v s) = Normal true <->
   exists (pts : list Point) (j : nat) (p q : Point),
     Annotation.path (afterMigration a (Some v)) = Some pts /\
     pts !! j = Some p /\ pts !! S j = Some q /\
     segmentDistance (mkPoint x y) (toDevice p v) (toDevice q v) <= 10).
Proof.
  intros Ha Ht. rewrite hitCandidate_run. cbn [fst].
  unfold hitsAt. rewrite Ha. rewrite Normal_inj.
  assert (Htm : Annotation.type (afterMigration a (Some v)) = "draw"%string).
  { destruct (afterMigration_frame a (Some v)) as (_ & H & _). congruence. }
  rewrite (hitTest_draw _ x y v Htm). split.
  - intros (pts & Hp & Hn). apply nearPath_iff in Hn.
    destruct Hn as (j & p & q & H). exists pts, j, p, q. tauto.
  - intros (pts & j & p & q & Hp & H). exists pts. split; [exact Hp |].
    apply nearPath_iff. exists j, p, q. exact H.
Qed.

(** C5. For a note annotation the hit test succeeds at the device point
    [(x, y)] exactly when the point lies in the square of side 24 whose
    corner is the record's [(startX, startY)] taken to device space.  The
    side is the constant 24 for every viewport, whatever its scale. *)
Theorem note_hit_iff_in_square (s : State) (r : loc) (x y : R)
    (v : Viewport) (a : Annotation.t) :
  heap s !! r = Some a ->
  Annotation.type a = "note"%string ->
  (fst (hitCandidate r x y v s) = Normal true <->
   let c := Annotation.coordinates (afterMigration a (Some v)) in
   let anchor := toDevice (mkPoint (startX c) (startY c)) v in
   pt_x anchor <= x <= pt_x anchor + 24 /\
   pt_y anchor <= y <= pt_y anchor + 24).
Proof.
  intros Ha Ht. rewrite hitCandidate_run. cbn [fst].
  unfold hitsAt. rewrite Ha. rewrite Normal_inj.
  assert (Htm : Annotation.type (afterMigration a (Some v)) = "note"%string).
  { destruct (afterMigration_frame a (Some v)) as (_ & H & _). congruence. }
  unfold hitTest. rewrite Htm.
  change (String.eqb "note" "note") with true. cbv iota zeta.
  unfold toDevice. cbn [pt_x pt_y normalizedToCanvas].
  rewrite bool_decide_eq_true. unfold Rge. intuition lra.
Qed.

End HitTestClaims.

Section TopmostWins.
Open Scope R_scope.

Lemma afterMigration_normalized (a : Annotation.t) (v : Viewport) :
  areCoordinatesNormalized a (Some v) = true ->
  afterMigration a (Some v) = a.
Proof. intros H. unfold afterMigration. rewrite H. reflexivity. Qed.

Lemma find_none_all {A} (f : A -> bool) (l : list A) :
  (forall a, In a l -> f a = false) -> List.find f l = None.
Proof.
  intros H. rewrite <- (app_nil_r l). rewrite find_app_none by exact H.
  reflexivity.
Qed.

(** C3. [getAnnotationAtPoint] walks the page array from the last inserted
    record to the first and returns the first record that passes the hit
    test.  Hence, for two rectangle annotations of a page whose device
    rectangles both contain the query point, the later-inserted one is
    returned (no record inserted after it passing the test), and when no
    record of the page passes the test the result is [null]. *)
Theorem getAnnotationAtPoint_topmost_wins (s : State) (pageNum : nat)
    (x y : R) (v : Viewport) :
  NoDup (pageAnnotationsOf pageNum s) ->
  fst (getAnnotationAtPoint pageNum x y v s)
    = Normal (topmostHit (heap s) x y v (pageAnnotationsOf pageNum s)) /\
  (forall (pre mid post : list loc) (a b : loc) (ra rb : Annotation.t),
     pageAnnotationsOf pageNum s = pre ++ a :: mid ++ b :: post ->
     heap s !! a = Some ra -> heap s !! b = Some rb ->
     isBoxType (Annotation.type ra) = true ->
     isBoxType (Annotation.type rb) = true ->
     inDeviceBox (Annotation.coordinates (afterMigration ra (Some v))) v x y ->
     inDeviceBox (Annotation.coordinates (afterMigration rb (Some v))) v x y ->
     (forall c, In c post -> hitsAt (heap s) x y v c = false) ->
     fst (getAnnotationAtPoint pageNum x y v s) = Normal (Some b)) /\
  ((forall c, In c (pageAnnotationsOf pageNum s) ->
              hitsAt (heap s) x y v c = false) ->
   fst (getAnnotationAtPoint pageNum x y v s) = Normal None).
Proof.
  intros Hnd. pose proof (getAnnotationAtPoint_run s pageNum x y v Hnd) as Hrun.
  split; [exact Hrun |]. split.
  - intros pre mid post a b ra rb Harr Ha Hb Hta Htb Hina Hinb Hpost.
    rewrite Hrun, Harr. f_equal. unfold topmostHit.
    replace (pre ++ a :: mid ++ b :: post)
      with ((pre ++ a :: mid) ++ b :: post)
      by (rewrite <- app_assoc; reflexivity).
    rewrite rev_app_distr. cbn [rev]. rewrite <- app_assoc.
    rewrite find_app_none.
    + cbn [app List.find].
      assert (Hhit : hitsAt (heap s) x y v b = true).
      { unfold hitsAt. rewrite Hb. apply hitTest_box; [| exact Hinb].
        destruct (afterMigration_frame rb (Some v)) as (_ & H & _).
        rewrite H. exact Htb. }
      rewrite Hhit. reflexivity.
    + intros c Hc. apply Hpost. apply in_rev. exact Hc.
  - intros Hnone. rewrite Hrun. f_equal. unfold topmostHit.
    apply find_none_all. intros c Hc. apply Hnone. apply in_rev. exact Hc.
Qed.

End TopmostWins.

Section HitTestWitnesses.
Open Scope R_scope.

Ltac normalized_record :=
  apply areCoordinatesNormalized_true; cbn;
  repeat split; apply Rabs_le_iff; lra.

Ltac concrete_box :=
  unfold inDeviceBox; cbn; unfold Rmin, Rmax;
  repeat match goal with
         | |- context [Rle_dec ?a ?b] => destruct (Rle_dec a b)
         end; lra.

Lemma segmentDistance_at_start (p p1 p2 : Point) :
  pt_x p = pt_x p1 -> pt_y p = pt_y p1 -> segmentDistance p p1 p2 = 0.
Proof.
  intros Hx Hy. unfold segmentDistance. rewrite Hx, Hy.
  replace ((pt_x p1 - pt_x p1) * (pt_x p2 - pt_x p1) +
           (pt_y p1 - pt_y p1) * (pt_y p2 - pt_y p1)) with 0 by ring.
  unfold Rdiv. rewrite Rmult_0_l.
  rewrite clamp01_inside by lra.
  match goal with
  | |- sqrt ?e = 0 => replace e with 0 by ring
  end.
  apply sqrt_0.
Qed.

Lemma getAnnotationAtPoint_topmost_wins_witness :
  fst (getAnnotationAtPoint 1 250 120 sampleViewport overlapStore)
  = Normal (Some 1%nat).
Proof.
  assert (Hnd : NoDup (pageAnnotationsOf 1 overlapStore)).
  { apply NoDup_cons. split; [intros H; inversion H; subst; inversion H2 |].
    apply NoDup_cons. split; [intros H; inversion H |]. apply NoDup_nil_2. }
  destruct (getAnnotationAtPoint_topmost_wins
              overlapStore 1 250 120 sampleViewport Hnd) as (_ & H & _).
  apply (H [] [] [] 0%nat 1%nat highlightA highlightB); try reflexivity.
  - rewrite afterMigration_normalized by normalized_record. concrete_box.
  - rewrite afterMigration_normalized by normalized_record. concrete_box.
  - intros c [].
Defined.

Lemma draw_hit_iff_near_segment_witness :
  fst (hitCandidate 0 100 900 sampleViewport sketchStore) = Normal true.
Proof.
  apply (proj2 (draw_hit_iff_near_segment
                  sketchStore 0 100 900 sampleViewport strokeRecord
                  eq_refl eq_refl)).
  exists strokePath, 0%nat, (mkPoint (1/10) (9/10)), (mkPoint (5/10) (1/10)).
  rewrite afterMigration_normalized by normalized_record.
  repeat split.
  rewrite segmentDistance_at_start; [lra | cbn; lra | cbn; lra].
Defined.

Lemma note_hit_iff_in_square_witness :
  fst (hitCandidate 1 510 520 sampleViewport sketchStore) = Normal true.
Proof.
  apply (proj2 (note_hit_iff_in_square
                  sketchStore 1 510 520 sampleViewport noteRecord
                  eq_refl eq_refl)).
  rewrite afterMigration_normalized by normalized_record.
  cbn. lra.
Defined.

(** An empty page has nothing to hit. *)
Example empty_page_hits_nothing :
  getAnnotationAtPoint 1 50 50 sampleViewport initialState
  = (Normal None, initialState).
Proof. reflexivity. Qed.

End HitTestWitnesses.

(** ** The store: page map and creation *)

Section StoreFacts.
Open Scope R_scope.

Lemma Map_get_set_eq (k : nat) (v : list loc) (m : AnnotationMap) :
  Map_get k (Map_set k v m) = Some v.
Proof.
  induction m as [| [k0 v0] m IH]; cbn.
  - rewrite Nat.eqb_refl. reflexivity.
  - destruct (Nat.eqb k0 k) eqn:E; cbn; rewrite E; [reflexivity | exact IH].
Qed.

Lemma Map_get_set_ne (k k' : nat) (v : list loc) (m : AnnotationMap) :
  k' <> k -> Map_get k' (Map_set k v m) = Map_get k' m.
Proof.
  intros Hne. induction m as [| [k0 v0] m IH]; cbn.
  - destruct (Nat.eqb k k') eqn:E; [| reflexivity].
    apply Nat.eqb_eq in E. congruence.
  - destruct (Nat.eqb k0 k) eqn:E; cbn.
    + apply Nat.eqb_eq in E. subst k0.
      destruct (Nat.eqb k k') eqn:E'; [| reflexivity].
      apply Nat.eqb_eq in E'. congruence.
    + destruct (Nat.eqb k0 k'); [reflexivity | exact IH].
Qed.

Lemma ensurePage_run (pageNum : nat) (s : State) :
  fst (ensurePage pageNum s) = Normal tt /\
  heap (snd (ensurePage pageNum s)) = heap s /\
  notifications (snd (ensurePage pageNum s)) = notifications s /\
  pageAnnotationsOf pageNum (snd (ensurePage pageNum s))
    = pageAnnotationsOf pageNum s.
Proof.
  unfold ensurePage, modify, Map_has, pageAnnotationsOf. cbn.
  destruct (Map_get pageNum (annotations s)) eqn:E.
  - rewrite E. repeat split.
  - cbn. rewrite Map_get_set_eq. repeat split.
Qed.

Lemma pushAnnotation_run (pageNum : nat) (a : Annotation.t) (s : State) :
  fst (pushAnnotation pageNum a s) = Normal tt /\
  heap (snd (pushAnnotation pageNum a s)) = heap s ++ [a] /\
  notifications (snd (pushAnnotation pageNum a s)) = notifications s /\
  pageAnnotationsOf pageNum (snd (pushAnnotation pageNum a s))
    = pageAnnotationsOf pageNum s ++ [length (heap s)].
Proof.
  unfold pushAnnotation, modify. cbn. repeat split.
  unfold pageAnnotationsOf at 1. cbn. rewrite Map_get_set_eq. reflexivity.
Qed.

Lemma ensure_push_created (pageNum : nat) (a : Annotation.t) (s : State) :
  created s (snd (pushAnnotation pageNum a (snd (ensurePage pageNum s))))
          pageNum a.
Proof.
  destruct (ensurePage_run pageNum s) as (_ & Hh & _ & Hp).
  destruct (pushAnnotation_run pageNum a (snd (ensurePage pageNum s)))
    as (_ & Hh' & _ & Hp').
  split.
  - rewrite Hh', Hh. reflexivity.
  - rewrite Hp', Hp, Hh. reflexivity.
Qed.

Lemma fold_extend_bounds (pts : list Point) :
  forall b : Utils.BoundingBox,
  let r := fold_left Utils.extend pts b in
  Utils.minX r <= Utils.minX b /\ Utils.minY r <= Utils.minY b /\
  Utils.maxX b <= Utils.maxX r /\ Utils.maxY b <= Utils.maxY r /\
  (forall p, In p pts ->
     Utils.minX r <= pt_x p <= Utils.maxX r /\
     Utils.minY r <= pt_y p <= Utils.maxY r).
Proof.
  induction pts as [| q pts IH]; intros b; cbn.
  - repeat split; try lra; try contradiction.
  - specialize (IH (Utils.extend b q)). cbv zeta in IH.
    destruct IH as (H1 & H2 & H3 & H4 & H5).
    change (Utils.minX (Utils.extend b q))
      with (Rmin (Utils.minX b) (pt_x q)) in H1.
    change (Utils.minY (Utils.extend b q))
      with (Rmin (Utils.minY b) (pt_y q)) in H2.
    change (Utils.maxX (Utils.extend b q))
      with (Rmax (Utils.maxX b) (pt_x q)) in H3.
    change (Utils.maxY (Utils.extend b q))
      with (Rmax (Utils.maxY b) (pt_y q)) in H4.
    pose proof (Rmin_l (Utils.minX b) (pt_x q)).
    pose proof (Rmin_r (Utils.minX b) (pt_x q)).
    pose proof (Rmin_l (Utils.minY b) (pt_y q)).
    pose proof (Rmin_r (Utils.minY b) (pt_y q)).
    pose proof (Rmax_l (Utils.maxX b) (pt_x q)).
    pose proof (Rmax_r (Utils.maxX b) (pt_x q)).
    pose proof (Rmax_l (Utils.maxY b) (pt_y q)).
    pose proof (Rmax_r (Utils.maxY b) (pt_y q)).
    split; [lra |]. split; [lra |]. split; [lra |]. split; [lra |].
    intros p [<- | Hin]; [split; lra | apply (H5 p Hin)].
Qed.

(** The bounding box of a non-empty path contains every point of it. *)
Lemma calculateBoundingBox_contains (p0 : Point) (pts : list Point) :
  exists b, Utils.calculateBoundingBox (Some (p0 :: pts)) = Some b /\
            Utils.minX b <= Utils.maxX b /\ Utils.minY b <= Utils.maxY b /\
            (forall p, In p (p0 :: pts) ->
               Utils.minX b <= pt_x p <= Utils.maxX b /\
               Utils.minY b <= pt_y p <= Utils.maxY b).
Proof.
  eexists. split; [reflexivity |].
  pose proof (fold_extend_bounds (p0 :: pts)
                {| Utils.minX := pt_x p0; Utils.minY := pt_y p0;
                   Utils.maxX := pt_x p0; Utils.maxY := pt_y p0 |}) as H.
  cbv zeta in H. destruct H as (_ & _ & _ & _ & H).
  split; [| split; [| exact H]].
  - destruct (H p0 (or_introl eq_refl)) as [Hx _]. lra.
  - destruct (H p0 (or_introl eq_refl)) as [_ Hy]. lra.
Qed.

End StoreFacts.

Section CreationClaims.
Open Scope R_scope.

Lemma created_add_notification (s s' : State) (pageNum : nat)
    (a : Annotation.t) (n : string * string) :
  created s s' pageNum a -> created s (add_notification n s') pageNum a.
Proof. intros H. exact H. Qed.

Lemma Rmin_le_Rmax (a b : R) : Rmin a b <= Rmax a b.
Proof.
  pose proof (Rmin_l a b). pose proof (Rmax_l a b). lra.
Qed.

(** C8. Every record satisfies [startX <= endX] and [startY <= endY] when
    it is constructed.  [createAnnotation] stores the minimum and maximum
    of the two gesture endpoints; [createDrawAnnotation] stores the
    bounding box of its path, which contains every point of the path;
    [createNoteAnnotation] adds a width and a height to the start point,
    non-negative because the viewport of the interaction layer, when there
    is one, has positive width and height. *)
Theorem created_records_ordered (env : Env) :
  (forall v, layerViewport env = Some v -> 0 < width v /\ 0 < height v) ->
  (forall s pageNum x1 y1 x2 y2 tool color newId now,
     exists a,
       created s
         (snd (createAnnotation pageNum x1 y1 x2 y2 tool color newId now s))
         pageNum a /\
       Annotation.coordinates a
         = mkCoordinates (Rmin x1 x2) (Rmin y1 y2) (Rmax x1 x2) (Rmax y1 y2) /\
       ordered (Annotation.coordinates a)) /\
  (forall s pageNum p0 pts color newId now,
     exists a,
       created s
         (snd (createDrawAnnotation pageNum (p0 :: pts) color newId now s))
         pageNum a /\
       Annotation.path a = Some (p0 :: pts) /\
       (forall p, In p (p0 :: pts) ->
          startX (Annotation.coordinates a) <= pt_x p
            <= endX (Annotation.coordinates a) /\
          startY (Annotation.coordinates a) <= pt_y p
            <= endY (Annotation.coordinates a)) /\
       ordered (Annotation.coordinates a)) /\
  (forall s pageNum nx ny newId now,
     exists a,
       created s (snd (createNoteAnnotation env pageNum nx ny newId now s))
               pageNum a /\
       startX (Annotation.coordinates a) = nx /\
       startY (Annotation.coordinates a) = ny /\
       ordered (Annotation.coordinates a)).
Proof.
  intros Hv. split; [| split].
  - intros s pageNum x1 y1 x2 y2 tool color newId now.
    eexists. split; [| split].
    + unfold createAnnotation, bind, showNotification.
      apply created_add_notification. apply ensure_push_created.
    + reflexivity.
    + split; apply Rmin_le_Rmax.
  - intros s pageNum p0 pts color newId now.
    destruct (calculateBoundingBox_contains p0 pts) as (b & Hb & Hx & Hy & Hin).
    unfold createDrawAnnotation, bind.
    change (match ensurePage pageNum s with
            | (Normal a, s1) => ?k a s1
            | (Thrown e, s1) => ?t e s1
            end) with (k tt (snd (ensurePage pageNum s))).
    rewrite Hb.
    eexists. split; [| split; [| split]].
    + apply created_add_notification. apply ensure_push_created.
    + reflexivity.
    + exact Hin.
    + split; assumption.
  - intros s pageNum nx ny newId now.
    eexists. split; [| split; [| split]].
    + unfold createNoteAnnotation, bind, showNotification.
      apply created_add_notification. apply ensure_push_created.
    + reflexivity.
    + reflexivity.
    + unfold ordered. cbn [Annotation.coordinates startX startY endX endY].
      destruct (layerViewport env) as [v |] eqn:Hl.
      * destruct (Hv v eq_refl) as [Hw Hh].
        assert (0 < 24 / width v) by (apply Rdiv_lt_0_compat; lra).
        assert (0 < 24 / height v) by (apply Rdiv_lt_0_compat; lra).
        lra.
      * lra.
Qed.

Lemma created_records_ordered_witness :
  exists a,
    created initialState
      (snd (createNoteAnnotation sampleEnv 1 (1/2) (1/2) "n1" "t1"
                                 initialState)) 1 a /\
    startX (Annotation.coordinates a) = 1/2 /\
    startY (Annotation.coordinates a) = 1/2 /\
    ordered (Annotation.coordinates a).
Proof.
  assert (H : forall v, layerViewport sampleEnv = Some v ->
                        0 < width v /\ 0 < height v).
  { intros v Hv. injection Hv as <-. cbn. lra. }
  destruct (created_records_ordered sampleEnv H) as (_ & _ & Hnote).
  exact (Hnote initialState 1%nat (1/2) (1/2) "n1"%string "t1"%string).
Defined.

End CreationClaims.

(** ** Gestures *)

Section GestureClaims.
Open Scope R_scope.

Lemma set_heap_same (s : State) : set_heap (heap s) s = s.
Proof. destruct s; reflexivity. Qed.

Lemma migratePixelToNormalized_state (s : State) (r : loc) (v : Viewport) :
  snd (migratePixelToNormalized r (Some v) s)
  = set_heap (migrateAt (heap s) v r) s.
Proof.
  unfold migratePixelToNormalized, migrateAt.
  destruct (heap s !! r) as [a |]; cbn; [| symmetry; apply set_heap_same].
  destruct (areCoordinatesNormalized a (Some v)); cbn;
    [symmetry; apply set_heap_same | reflexivity].
Qed.

Lemma migrateAt_normalized (h : Heap) (v : Viewport) (r : loc)
    (a : Annotation.t) :
  h !! r = Some a -> areCoordinatesNormalized a (Some v) = true ->
  migrateAt h v r = h.
Proof. intros Hr Hn. unfold migrateAt. rewrite Hr, Hn. reflexivity. Qed.

Lemma length_migrateAt (h : Heap) (v : Viewport) (r : loc) :
  length (migrateAt h v r) = length h.
Proof.
  unfold migrateAt. destruct (h !! r) as [a |]; [| reflexivity].
  destruct (areCoordinatesNormalized a (Some v)); [reflexivity |].
  apply length_insert.
Qed.

Lemma length_migrateAll (arr : list loc) (v : Viewport) :
  forall h, length (migrateAll h v arr) = length h.
Proof.
  induction arr as [| r arr IH]; intros h; [reflexivity |].
  unfold migrateAll. cbn [fold_left]. fold (migrateAll (migrateAt h v r) v arr).
  rewrite IH. apply length_migrateAt.
Qed.

(** Rendering with a viewport never raises and only migrates. *)
Lemma render_forEach_run (v : Viewport) (arr : list loc) :
  forall s,
  forEach (fun annotation => renderSingleAnnotation annotation (Some v))
          arr s
  = (Normal tt, set_heap (migrateAll (heap s) v arr) s).
Proof.
  induction arr as [| r arr IH]; intros s.
  - cbn. rewrite set_heap_same. reflexivity.
  - cbn [forEach]. unfold bind at 1. unfold renderSingleAnnotation at 1.
    unfold bind at 1.
    rewrite (migratePixelToNormalized_eta s r (Some v)).
    rewrite migratePixelToNormalized_state. unfold ret.
    rewrite IH. reflexivity.
Qed.

Lemma renderAnnotations_run (pageNum : nat) (v : Viewport) (s : State) :
  renderAnnotations pageNum (Some v) s
  = (Normal tt,
     set_heap (migrateAll (heap s) v (pageAnnotationsOf pageNum s)) s).
Proof.
  unfold renderAnnotations, bind, get. apply render_forEach_run.
Qed.

(** The commit of a degenerate stroke only resets the drawing state. *)
Lemma commitGesture_degenerate_run (env : Env) (v : Viewport)
    (newId now : string) (s : State) :
  currentTool s = "draw"%string ->
  (forall stroke, currentStroke s = Some stroke -> (length stroke < 2)%nat) ->
  commitGesture env v newId now s
  = (Normal tt, set_currentStroke None (set_isDrawing false s)).
Proof.
  intros Htool Hshort.
  unfold commitGesture, bind, get, modify, isTool.
  rewrite Htool. cbn [String.eqb Ascii.eqb Bool.eqb].
  destruct (currentStroke s) as [stroke |] eqn:Hs; [| reflexivity].
  assert (Hlt : Nat.ltb 1 (length stroke) = false).
  { apply Nat.ltb_ge. specialize (Hshort stroke eq_refl). lia. }
  rewrite Hlt. reflexivity.
Qed.

(** The whole release of a degenerate stroke, in one equation. *)
Lemma mouseup_degenerate_run (env : Env) (v : Viewport) (coords : Point)
    (newId now : string) (s : State) :
  currentTool s = "draw"%string ->
  g_isDrawing (gesture s) = true ->
  (forall stroke, currentStroke s = Some stroke -> (length stroke < 2)%nat) ->
  mouseup env v coords newId now s
  = (Normal tt,
     set_heap (migrateAll (heap s) v (pageAnnotationsOf (currentPage env) s))
       (set_currentStroke None
          (set_isDrawing false
             (set_gesture (stop_drawing (set_end coords (gesture s))) s)))).
Proof.
  intros Htool Hdrawing Hshort.
  unfold mouseup, bind at 1, get, isTool.
  rewrite Hdrawing, Htool. cbn [negb orb String.eqb Ascii.eqb Bool.eqb].
  unfold bind, modify.
  rewrite commitGesture_degenerate_run by assumption.
  rewrite renderAnnotations_run. reflexivity.
Qed.

(** C6. Releasing the draw tool with fewer than two accumulated points
    commits nothing.  The commit step of the handler leaves the records,
    the page map and the notification log exactly as they were and only
    drops the stroke; the handler as a whole returns normally, the page
    map holds the same arrays of the same records, no object is allocated
    and nothing is notified.  The only change to stored records is the
    lazy migration performed by the re-render that ends every release. *)
Theorem degenerate_stroke_discarded (env : Env) (v : Viewport)
    (coords : Point) (newId now : string) (s : State) :
  currentTool s = "draw"%string ->
  g_isDrawing (gesture s) = true ->
  (forall stroke, currentStroke s = Some stroke -> (length stroke < 2)%nat) ->
  let commit := commitGesture env v newId now s in
  let result := mouseup env v coords newId now s in
  (fst commit = Normal tt /\
   heap (snd commit) = heap s /\
   annotations (snd commit) = annotations s /\
   notifications (snd commit) = notifications s /\
   currentStroke (snd commit) = None) /\
  fst result = Normal tt /\
  annotations (snd result) = annotations s /\
  length (heap (snd result)) = length (heap s) /\
  heap (snd result)
    = migrateAll (heap s) v (pageAnnotationsOf (currentPage env) s) /\
  notifications (snd result) = notifications s /\
  currentStroke (snd result) = None.
Proof.
  intros Htool Hdrawing Hshort commit result. subst commit result.
  rewrite (commitGesture_degenerate_run env v newId now s Htool Hshort).
  rewrite (mouseup_degenerate_run env v coords newId now s Htool Hdrawing
             Hshort).
  cbn [fst snd]. repeat split.
  cbn [heap set_heap]. apply length_migrateAll.
Qed.

Lemma degenerate_stroke_discarded_witness :
  annotations (snd (mouseup sampleEnv sampleViewport (mkPoint 100 100)
                            "n1" "t1" strokeStarted))
  = annotations strokeStarted.
Proof.
  assert (Hshort : forall stroke, currentStroke strokeStarted = Some stroke ->
                                  (length stroke < 2)%nat).
  { intros stroke H. injection H as <-. cbn. lia. }
  exact (proj1 (proj2 (proj2 (degenerate_stroke_discarded
                                sampleEnv sampleViewport (mkPoint 100 100)
                                "n1" "t1" strokeStarted eq_refl eq_refl
                                Hshort)))).
Defined.

End GestureClaims.

(** ** Deletion *)

Section DeletionFacts.

Lemma findIndex_None {A} (pred : A -> bool) (l : list A) :
  findIndex pred l = None -> List.filter pred l = [].
Proof.
  induction l as [| a l IH]; cbn; [reflexivity |].
  destruct (pred a); [discriminate |].
  destruct (findIndex pred l); [discriminate |]. intros _. apply IH.
  reflexivity.
Qed.

Lemma findIndex_Some {A} (pred : A -> bool) (l : list A) :
  forall i, findIndex pred l = Some i ->
  length (delete i l) + 1 = length l /\
  length (List.filter pred (delete i l)) + 1 = length (List.filter pred l).
Proof.
  induction l as [| a l IH]; cbn; intros i H; [discriminate |].
  destruct (pred a) eqn:Ha.
  - injection H as <-. cbn. split; lia.
  - destruct (findIndex pred l) as [i' |]; [| discriminate].
    injection H as <-. destruct (IH i' eq_refl) as [H1 H2].
    change (delete (S i') (a :: l)) with (a :: delete i' l).
    cbn [length List.filter]. rewrite Ha. split; [lia | exact H2].
Qed.

Lemma withoutFirst_none (h : Heap) (annotationId : string) (arr : list loc) :
  countIn h annotationId arr = 0 -> withoutFirst h annotationId arr = arr.
Proof.
  unfold countIn, withoutFirst. intros H.
  destruct (findIndex (hasId h annotationId) arr) as [i |] eqn:E;
    [| reflexivity].
  destruct (findIndex_Some _ _ _ E) as [_ H2]. lia.
Qed.

Lemma withoutFirst_counts (h : Heap) (annotationId : string)
    (arr : list loc) :
  countIn h annotationId arr <= 1 ->
  length (withoutFirst h annotationId arr) + countIn h annotationId arr
    = length arr /\
  countIn h annotationId (withoutFirst h annotationId arr) = 0.
Proof.
  unfold countIn, withoutFirst. intros H.
  destruct (findIndex (hasId h annotationId) arr) as [i |] eqn:E.
  - destruct (findIndex_Some _ _ _ E) as [H1 H2]. split; lia.
  - rewrite (findIndex_None _ _ E). cbn. split; lia.
Qed.

Lemma countId_cons (h : Heap) (annotationId : string) (k : nat)
    (arr : list loc) (m : AnnotationMap) :
  countId h annotationId ((k, arr) :: m)
  = countIn h annotationId arr + countId h annotationId m.
Proof.
  unfold countId, countIn, allRecords. cbn.
  rewrite List.filter_app, length_app. reflexivity.
Qed.

Lemma countAll_cons (k : nat) (arr : list loc) (m : AnnotationMap) :
  countAll ((k, arr) :: m) = length arr + countAll m.
Proof. unfold countAll, allRecords. cbn. apply length_app. Qed.

Lemma removeFrom_none (h : Heap) (annotationId : string) (m : AnnotationMap) :
  countId h annotationId m = 0 -> removeFrom h annotationId m = m.
Proof.
  induction m as [| [k arr] m IH]; intros H; [reflexivity |].
  rewrite countId_cons in H.
  change (removeFrom h annotationId ((k, arr) :: m))
    with ((k, withoutFirst h annotationId arr)
            :: removeFrom h annotationId m).
  rewrite withoutFirst_none by lia. rewrite IH by lia. reflexivity.
Qed.

Lemma removeFrom_counts (h : Heap) (annotationId : string)
    (m : AnnotationMap) :
  countId h annotationId m <= 1 ->
  countAll (removeFrom h annotationId m) + countId h annotationId m
    = countAll m /\
  countId h annotationId (removeFrom h annotationId m) = 0.
Proof.
  induction m as [| [k arr] m IH]; intros H.
  - split; reflexivity.
  - rewrite countId_cons in H.
    change (removeFrom h annotationId ((k, arr) :: m))
      with ((k, withoutFirst h annotationId arr)
              :: removeFrom h annotationId m).
    rewrite !countId_cons, !countAll_cons.
    destruct (withoutFirst_counts h annotationId arr) as [H1 H2]; [lia |].
    destruct IH as [H3 H4]; [lia |]. split; lia.
Qed.

Lemma removeFrom_keys (h : Heap) (annotationId : string) (m : AnnotationMap) :
  map fst (removeFrom h annotationId m) = map fst m.
Proof.
  unfold removeFrom. induction m as [| [k arr] m IH]; [reflexivity |].
  cbn. f_equal. exact IH.
Qed.

Lemma Map_get_middle (k : nat) (arr : list loc) (done rest : AnnotationMap) :
  ~ In k (map fst done) ->
  Map_get k (done ++ (k, arr) :: rest) = Some arr.
Proof.
  induction done as [| [k0 v0] done IH]; intros Hk; cbn.
  - rewrite Nat.eqb_refl. reflexivity.
  - destruct (Nat.eqb k0 k) eqn:E.
    + apply Nat.eqb_eq in E. exfalso. apply Hk. left. exact E.
    + apply IH. intros Hin. apply Hk. right. exact Hin.
Qed.

Lemma Map_set_middle (k : nat) (arr v : list loc)
    (done rest : AnnotationMap) :
  ~ In k (map fst done) ->
  Map_set k v (done ++ (k, arr) :: rest) = done ++ (k, v) :: rest.
Proof.
  induction done as [| [k0 v0] done IH]; intros Hk; cbn.
  - rewrite Nat.eqb_refl. reflexivity.
  - destruct (Nat.eqb k0 k) eqn:E.
    + apply Nat.eqb_eq in E. exfalso. apply Hk. left. exact E.
    + f_equal. apply IH. intros Hin. apply Hk. right. exact Hin.
Qed.

(** Rendering with a [null] viewport changes nothing; it raises as soon as
    the page has a record. *)
Lemma renderAnnotations_null (pageNum : nat) (s : State) :
  renderAnnotations pageNum None s
  = (match pageAnnotationsOf pageNum s with
     | [] => Normal tt
     | _ :: _ => Thrown "TypeError"
     end, s).
Proof.
  unfold renderAnnotations, bind, get.
  destruct (pageAnnotationsOf pageNum s) as [| r arr]; reflexivity.
Qed.

End DeletionFacts.

Section DeletionRun.

Lemma deleteFromPage_missing (env : Env) (annotationId : string) (k : nat)
    (s : State) :
  findIndex (hasId (heap s) annotationId) (pageAnnotationsOf k s) = None ->
  deleteFromPage env annotationId k s = (Normal tt, s).
Proof.
  unfold deleteFromPage, bind, get. intros ->. reflexivity.
Qed.

Lemma deleteFromPage_found (env : Env) (annotationId : string) (k : nat)
    (s : State) (i : nat) :
  findIndex (hasId (heap s) annotationId) (pageAnnotationsOf k s) = Some i ->
  snd (deleteFromPage env annotationId k s)
    = set_annotations
        (Map_set k (delete i (pageAnnotationsOf k s)) (annotations s)) s /\
  (fst (deleteFromPage env annotationId k s) = Normal tt \/
   exists e, fst (deleteFromPage env annotationId k s) = Thrown e).
Proof.
  unfold deleteFromPage, bind, get. intros ->. unfold modify.
  destruct (Nat.eqb k (currentPage env));
    [| split; [reflexivity | left; reflexivity]].
  destruct (annotationCanvas env);
    [| split; [reflexivity | left; reflexivity]].
  rewrite renderAnnotations_null. cbn [fst snd].
  split; [reflexivity |].
  match goal with
  | |- context [match ?l with [] => _ | _ :: _ => _ end] => destruct l
  end; [left; reflexivity | right; eexists; reflexivity].
Qed.

Lemma set_annotations_same (s : State) : set_annotations (annotations s) s = s.
Proof. destruct s; reflexivity. Qed.

Lemma not_in_done (k : nat) (arr : list loc) (done rest : AnnotationMap) :
  NoDup (map fst (done ++ (k, arr) :: rest)) -> ~ In k (map fst done).
Proof.
  rewrite map_app. intros H Hin. apply NoDup_app in H.
  destruct H as (_ & H & _). apply list_elem_of_In in Hin.
  apply (H k Hin). cbn. apply list_elem_of_here.
Qed.

Lemma forEach_cons_run {A} (f : A -> M unit) (a : A) (l : list A)
    (s : State) :
  forEach f (a :: l) s
  = match f a s with
    | (Normal _, s1) => forEach f l s1
    | (Thrown e, s1) => (Thrown e, s1)
    end.
Proof. reflexivity. Qed.

(** The loop over the pages.  [done] are the entries already visited and
    [todo'] is what the loop leaves of the entries it was given. *)
Lemma deleteAnnotation_forEach_run (env : Env) (annotationId : string) :
  forall (todo done : AnnotationMap) (s : State),
  annotations s = done ++ todo ->
  NoDup (map fst (done ++ todo)) ->
  let result := forEach (deleteFromPage env annotationId) (map fst todo) s in
  exists todo',
    snd result = set_annotations (done ++ todo') s /\
    (fst result = Normal tt \/ exists e, fst result = Thrown e) /\
    map fst todo' = map fst todo /\
    (fst result = Normal tt ->
     todo' = removeFrom (heap s) annotationId todo) /\
    (countId (heap s) annotationId todo <= 1 ->
     todo' = removeFrom (heap s) annotationId todo) /\
    (countId (heap s) annotationId todo = 0 -> fst result = Normal tt).
Proof.
  induction todo as [| [k arr] rest IH]; intros done s Hm Hnd result;
    subst result.
  - exists []. cbn. rewrite app_nil_r in *.
    rewrite <- Hm, set_annotations_same. repeat split. left. reflexivity.
  - pose proof (not_in_done k arr done rest Hnd) as Hk.
    assert (Harr : pageAnnotationsOf k s = arr).
    { unfold pageAnnotationsOf. rewrite Hm, Map_get_middle by exact Hk.
      reflexivity. }
    change (removeFrom (heap s) annotationId ((k, arr) :: rest))
      with ((k, withoutFirst (heap s) annotationId arr)
              :: removeFrom (heap s) annotationId rest).
    change (map fst ((k, arr) :: rest)) with (k :: map fst rest).
    rewrite !forEach_cons_run. rewrite countId_cons.
    destruct (findIndex (hasId (heap s) annotationId) arr) as [i |] eqn:Hfind.
    + (* found on this page *)
      destruct (findIndex_Some _ _ _ Hfind) as [_ Hone].
      fold (countIn (heap s) annotationId arr) in Hone.
      assert (Hwf : withoutFirst (heap s) annotationId arr = delete i arr).
      { unfold withoutFirst. rewrite Hfind. reflexivity. }
      rewrite Hwf.
      rewrite <- Harr in Hfind.
      destruct (deleteFromPage_found env annotationId k s i Hfind)
        as [Hsnd Hfst].
      rewrite Harr, Hm, Map_set_middle in Hsnd by exact Hk.
      destruct (deleteFromPage env annotationId k s) as [c s1].
      cbn [fst snd] in Hsnd, Hfst. subst s1.
      destruct Hfst as [-> | [e ->]].
      * specialize (IH (done ++ [(k, delete i arr)])
                       (set_annotations (done ++ (k, delete i arr) :: rest) s)).
        cbv zeta in IH. cbn [heap set_annotations annotations] in IH.
        destruct IH as (todo' & H1 & H2 & Hkeys & H3 & H4 & H5).
        -- rewrite <- app_assoc. reflexivity.
        -- rewrite <- app_assoc. cbn [app].
           rewrite map_app in Hnd |- *. exact Hnd.
        -- exists ((k, delete i arr) :: todo').
           rewrite <- app_assoc in H1. cbn [app] in H1.
           split; [exact H1 |]. split; [exact H2 |].
           split; [cbn; f_equal; exact Hkeys |].
           split; [intros Hn; f_equal; exact (H3 Hn) |].
           split; [intros Hc; f_equal; apply H4; lia |].
           intros Hz. exfalso. lia.
      * exists ((k, delete i arr) :: rest). cbn [fst snd].
        split; [reflexivity |].
        split; [right; eexists; reflexivity |].
        split; [reflexivity |].
        split; [discriminate |].
        split; [| intros Hz; exfalso; lia].
        intros Hc. f_equal. symmetry. apply removeFrom_none. lia.
    + (* nothing to remove on this page *)
      rewrite <- Harr in Hfind.
      rewrite (deleteFromPage_missing env annotationId k s Hfind).
      assert (Hwf : withoutFirst (heap s) annotationId arr = arr).
      { unfold withoutFirst. rewrite <- Harr, Hfind. reflexivity. }
      rewrite Hwf.
      specialize (IH (done ++ [(k, arr)]) s). cbv zeta in IH.
      destruct IH as (todo' & H1 & H2 & Hkeys & H3 & H4 & H5).
      -- rewrite <- app_assoc. exact Hm.
      -- rewrite <- app_assoc. exact Hnd.
      -- exists ((k, arr) :: todo').
         rewrite <- app_assoc in H1. cbn [app] in H1.
         split; [exact H1 |]. split; [exact H2 |].
         split; [cbn; f_equal; exact Hkeys |].
         split; [intros Hn; f_equal; exact (H3 Hn) |].
         split; [intros Hc; f_equal; apply H4; lia |].
         intros Hz. apply H5. lia.
Qed.

End DeletionRun.

Section DeletionClaims.

Lemma deleteAnnotation_run (env : Env) (annotationId : string) (s : State) :
  deleteAnnotation env annotationId s
  = match forEach (deleteFromPage env annotationId)
                  (map fst (annotations s)) s with
    | (Normal _, s1) =>
        (Normal JsUndefined,
         add_notification ("Annotation deleted", "success")%string s1)
    | (Thrown e, s1) => (Thrown e, s1)
    end.
Proof.
  unfold deleteAnnotation, bind, get.
  destruct (forEach (deleteFromPage env annotationId)
                    (map fst (annotations s)) s) as [[u | e] s1];
    reflexivity.
Qed.

(** What a call leaves behind, whether or not the re-render raised. *)
Lemma deleteAnnotation_state (env : Env) (annotationId : string) (s : State) :
  wfMap (annotations s) ->
  (fst (deleteAnnotation env annotationId s) = Normal JsUndefined \/
   exists e, fst (deleteAnnotation env annotationId s) = Thrown e) /\
  heap (snd (deleteAnnotation env annotationId s)) = heap s /\
  map fst (annotations (snd (deleteAnnotation env annotationId s)))
    = map fst (annotations s) /\
  (fst (deleteAnnotation env annotationId s) = Normal JsUndefined ->
   annotations (snd (deleteAnnotation env annotationId s))
     = removeFrom (heap s) annotationId (annotations s)) /\
  (countId (heap s) annotationId (annotations s) <= 1 ->
   annotations (snd (deleteAnnotation env annotationId s))
     = removeFrom (heap s) annotationId (annotations s)) /\
  (countId (heap s) annotationId (annotations s) = 0 ->
   fst (deleteAnnotation env annotationId s) = Normal JsUndefined).
Proof.
  intros Hwf. rewrite deleteAnnotation_run.
  destruct (deleteAnnotation_forEach_run env annotationId (annotations s) []
              s eq_refl Hwf) as (todo' & H1 & H2 & Hkeys & H3 & H4 & H5).
  cbn [app] in H1.
  destruct (forEach (deleteFromPage env annotationId)
                    (map fst (annotations s)) s) as [[[] | e] s1];
    cbn [fst snd] in *; subst s1;
    cbn [heap annotations add_notification set_annotations].
  - split; [left; reflexivity |]. split; [reflexivity |].
    split; [exact Hkeys |]. split; [intros _; exact (H3 eq_refl) |].
    split; [exact H4 | reflexivity].
  - split; [right; eexists; reflexivity |]. split; [reflexivity |].
    split; [exact Hkeys |]. split; [discriminate |]. split; [exact H4 |].
    intros Hz. specialize (H5 Hz). discriminate.
Qed.

(** C7, as stated, fails: [deleteAnnotation] has no [return] statement, so
    neither call hands back a boolean. *)
Lemma deleteAnnotation_returns_no_boolean :
  let first := deleteAnnotation otherPageEnv "a1" overlapStore in
  let second := deleteAnnotation otherPageEnv "a1" (snd first) in
  ~ (fst first = Normal (JsBoolean true) /\
     fst second = Normal (JsBoolean false)).
Proof.
  cbv zeta. intros [H _].
  assert (Hu : fst (deleteAnnotation otherPageEnv "a1" overlapStore)
               = Normal JsUndefined) by reflexivity.
  rewrite Hu in H. discriminate H.
Qed.

(** C7, amended.  [deleteAnnotation] returns no value: a call that
    completes yields [undefined] whether or not a record was removed.  On
    a store with distinct page keys, a completed call has removed from
    every page the first record carrying the identifier and nothing else.
    When the identifier occurs at most once in the store, at most one
    record is removed, the first (and only) match, and a second call with
    the same identifier completes, returns [undefined] again and leaves
    the page map and the records as the first call left them. *)
Theorem deleteAnnotation_removes_first_match (env : Env)
    (annotationId : string) (s : State) :
  wfMap (annotations s) ->
  let first := deleteAnnotation env annotationId s in
  let second := deleteAnnotation env annotationId (snd first) in
  (fst first = Normal JsUndefined \/ exists e, fst first = Thrown e) /\
  heap (snd first) = heap s /\
  (fst first = Normal JsUndefined ->
   annotations (snd first)
     = removeFrom (heap s) annotationId (annotations s)) /\
  (countId (heap s) annotationId (annotations s) <= 1 ->
   annotations (snd first)
     = removeFrom (heap s) annotationId (annotations s) /\
   countAll (annotations (snd first))
     + countId (heap s) annotationId (annotations s)
     = countAll (annotations s) /\
   fst second = Normal JsUndefined /\
   annotations (snd second) = annotations (snd first) /\
   heap (snd second) = heap (snd first)).
Proof.
  intros Hwf first second. subst first second.
  destruct (deleteAnnotation_state env annotationId s Hwf)
    as (Hc & Hh & Hk & Hn & Hu & _).
  split; [exact Hc |]. split; [exact Hh |]. split; [exact Hn |].
  intros Hcount. specialize (Hu Hcount).
  destruct (removeFrom_counts (heap s) annotationId (annotations s) Hcount)
    as [Hall Hgone].
  set (s1 := snd (deleteAnnotation env annotationId s)) in *.
  assert (Hwf1 : wfMap (annotations s1)).
  { unfold wfMap. rewrite Hk. exact Hwf. }
  assert (Hzero : countId (heap s1) annotationId (annotations s1) = 0).
  { rewrite Hh, Hu. exact Hgone. }
  destruct (deleteAnnotation_state env annotationId s1 Hwf1)
    as (_ & Hh2 & _ & _ & Hu2 & Hz2).
  split; [exact Hu |]. split; [rewrite Hu; exact Hall |].
  split; [exact (Hz2 Hzero) |]. split; [| exact Hh2].
  rewrite Hu2 by lia. apply removeFrom_none. exact Hzero.
Qed.

Lemma deleteAnnotation_removes_first_match_witness :
  heap (snd (deleteAnnotation sampleEnv "a1" overlapStore))
  = heap overlapStore.
Proof.
  assert (Hwf : wfMap (annotations overlapStore)).
  { apply NoDup_singleton. }
  exact (proj1 (proj2 (deleteAnnotation_removes_first_match
                         sampleEnv "a1" overlapStore Hwf))).
Defined.

(** Erasing one of two highlights of the page on display: the record is
    removed, then the re-render with a [null] viewport raises. *)
Example deleteAnnotation_on_displayed_page :
  fst (deleteAnnotation sampleEnv "a1" overlapStore) = Thrown "TypeError" /\
  annotations (snd (deleteAnnotation sampleEnv "a1" overlapStore))
  = [(1, [1])].
Proof. split; reflexivity. Qed.

(** The same deletion while another page is displayed completes, and a
    second call changes nothing but the notification log. *)
Example deleteAnnotation_twice :
  let first := deleteAnnotation otherPageEnv "a1" overlapStore in
  let second := deleteAnnotation otherPageEnv "a1" (snd first) in
  fst first = Normal JsUndefined /\
  annotations (snd first) = [(1, [1])] /\
  fst second = Normal JsUndefined /\
  annotations (snd second) = [(1, [1])] /\
  notifications (snd second)
  = [("Annotation deleted", "success");
     ("Annotation deleted", "success")]%string.
Proof. repeat split; reflexivity. Qed.

End DeletionClaims.

(** ** Scenarios of the specification *)

Section Scenarios.
Open Scope R_scope.

Ltac eval_min_max :=
  unfold Rmin, Rmax;
  repeat match goal with
         | |- context [Rle_dec ?a ?b] =>
             lazymatch a with
             | context [Rle_dec _ _] => fail
             | _ =>
                 lazymatch b with
                 | context [Rle_dec _ _] => fail
                 | _ => destruct (Rle_dec a b); try lra
                 end
             end
         end; try lra.

(** The bounding box of the path (0.1,0.9), (0.5,0.1), (0.8,0.6). *)
Example strokePath_bounding_box :
  exists b, Utils.calculateBoundingBox (Some strokePath) = Some b /\
            Utils.minX b = 1/10 /\ Utils.minY b = 1/10 /\
            Utils.maxX b = 8/10 /\ Utils.maxY b = 9/10.
Proof.
  eexists. split; [reflexivity |].
  cbn. repeat split; eval_min_max.
Qed.

(** Dragging the highlight tool from (100, 100) to (300, 150) on a
    1000 x 1000 viewport stores the normalized box (0.1, 0.1, 0.3, 0.15). *)
Example highlight_drag_scenario :
  let released :=
    mouseup sampleEnv sampleViewport (mkPoint 300 150) "id1" "t1"
            dragStarted in
  fst released = Normal tt /\
  exists a,
    heap (snd released) = [a] /\
    pageAnnotationsOf 1 (snd released) = [0%nat] /\
    Annotation.type a = "highlight"%string /\
    startX (Annotation.coordinates a) = 1/10 /\
    startY (Annotation.coordinates a) = 1/10 /\
    endX (Annotation.coordinates a) = 3/10 /\
    endY (Annotation.coordinates a) = 15/100.
Proof.
  cbv zeta.
  set (a := Annotation.mk "id1" "highlight" CONFIG.DEFAULT_COLOR
              (mkCoordinates (Rmin (100 / 1000) (300 / 1000))
                             (Rmin (100 / 1000) (150 / 1000))
                             (Rmax (100 / 1000) (300 / 1000))
                             (Rmax (100 / 1000) (150 / 1000)))
              None 1 None "t1").
  set (committed :=
         mkState [a] [(1%nat, [0%nat])] "highlight" CONFIG.DEFAULT_COLOR
                 false None (mkGesture false 100 100 300 150)
                 [("highlight annotation added", "success")%string]).
  assert (E : mouseup sampleEnv sampleViewport (mkPoint 300 150) "id1" "t1"
                      dragStarted
              = renderAnnotations 1 (Some sampleViewport) committed)
    by reflexivity.
  rewrite E, renderAnnotations_run. cbn [fst snd heap set_heap].
  assert (Hn : areCoordinatesNormalized a (Some sampleViewport) = true).
  { apply areCoordinatesNormalized_true. cbn.
    repeat split; apply Rabs_le_iff; eval_min_max. }
  assert (Hm : migrateAll [a] sampleViewport [0%nat] = [a]).
  { exact (migrateAt_normalized [a] sampleViewport 0%nat a eq_refl Hn). }
  change (pageAnnotationsOf 1 committed) with [0%nat].
  change (heap committed) with [a]. rewrite Hm.
  split; [reflexivity |]. exists a.
  split; [reflexivity |]. split; [reflexivity |]. split; [reflexivity |].
  cbn. repeat split; eval_min_max.
Qed.

End Scenarios.

(** * Further properties of the code *)

(** ** Geometry *)

Section GeometryExtras.
Open Scope R_scope.

(** The Euclidean distance from [(px, py)] to the point of the segment
    with parameter [t]. *)
Lemma distance_le_any (px py x1 y1 x2 y2 t : R) :
  0 <= t <= 1 ->
  distanceToLineSegment px py x1 y1 x2 y2 <=
  sqrt ((px - (x1 + t * (x2 - x1))) * (px - (x1 + t * (x2 - x1))) +
        (py - (y1 + t * (y2 - y1))) * (py - (y1 + t * (y2 - y1)))).
Proof.
  intros Ht. rewrite distanceToLineSegment_spec.
  exact (segmentDistance_least (mkPoint px py) (mkPoint x1 y1)
                               (mkPoint x2 y2) t Ht).
Qed.

Lemma distance_attained (px py x1 y1 x2 y2 : R) :
  exists t, 0 <= t <= 1 /\
    distanceToLineSegment px py x1 y1 x2 y2 =
    sqrt ((px - (x1 + t * (x2 - x1))) * (px - (x1 + t * (x2 - x1))) +
          (py - (y1 + t * (y2 - y1))) * (py - (y1 + t * (y2 - y1)))).
Proof.
  rewrite distanceToLineSegment_spec. unfold segmentDistance.
  cbn [pt_x pt_y].
  eexists. split; [apply clamp01_range | reflexivity].
Qed.

(** X1. [distanceToLineSegment] returns the least Euclidean distance from
    the query point to a point of the closed segment: it is a lower bound
    of the distance to every point [p1 + t (p2 - p1)], [0 <= t <= 1], and
    it is the distance to one of them. *)
Theorem distanceToLineSegment_minimum (px py x1 y1 x2 y2 : R) :
  (forall t, 0 <= t <= 1 ->
     distanceToLineSegment px py x1 y1 x2 y2 <=
     sqrt ((px - (x1 + t * (x2 - x1))) * (px - (x1 + t * (x2 - x1))) +
           (py - (y1 + t * (y2 - y1))) * (py - (y1 + t * (y2 - y1))))) /\
  (exists t, 0 <= t <= 1 /\
     distanceToLineSegment px py x1 y1 x2 y2 =
     sqrt ((px - (x1 + t * (x2 - x1))) * (px - (x1 + t * (x2 - x1))) +
           (py - (y1 + t * (y2 - y1))) * (py - (y1 + t * (y2 - y1))))).
Proof.
  split.
  - intros t Ht. apply distance_le_any. exact Ht.
  - apply distance_attained.
Qed.

Lemma distance_swap_le (px py x1 y1 x2 y2 : R) :
  distanceToLineSegment px py x1 y1 x2 y2
  <= distanceToLineSegment px py x2 y2 x1 y1.
Proof.
  destruct (distance_attained px py x2 y2 x1 y1) as (t & Ht & ->).
  pose proof (distance_le_any px py x1 y1 x2 y2 (1 - t)) as H.
  replace (x1 + (1 - t) * (x2 - x1)) with (x2 + t * (x1 - x2)) in H by ring.
  replace (y1 + (1 - t) * (y2 - y1)) with (y2 + t * (y1 - y2)) in H by ring.
  apply H. lra.
Qed.

(** X2. The distance does not depend on the order in which the two
    endpoints of the segment are given. *)
Theorem distanceToLineSegment_endpoints_swap (px py x1 y1 x2 y2 : R) :
  distanceToLineSegment px py x1 y1 x2 y2
  = distanceToLineSegment px py x2 y2 x1 y1.
Proof. apply Rle_antisym; apply distance_swap_le. Qed.

Lemma Rmin_cases (a b : R) : Rmin a b = a \/ Rmin a b = b.
Proof. unfold Rmin. destruct (Rle_dec a b); auto. Qed.

Lemma Rmax_cases (a b : R) : Rmax a b = a \/ Rmax a b = b.
Proof. unfold Rmax. destruct (Rle_dec a b); auto. Qed.

Lemma fold_extend_attained (pts : list Point) :
  forall b : Utils.BoundingBox,
  let r := fold_left Utils.extend pts b in
  (Utils.minX r = Utils.minX b \/ exists p, In p pts /\ pt_x p = Utils.minX r) /\
  (Utils.minY r = Utils.minY b \/ exists p, In p pts /\ pt_y p = Utils.minY r) /\
  (Utils.maxX r = Utils.maxX b \/ exists p, In p pts /\ pt_x p = Utils.maxX r) /\
  (Utils.maxY r = Utils.maxY b \/ exists p, In p pts /\ pt_y p = Utils.maxY r).
Proof.
  induction pts as [| q pts IH]; intros b; cbn [fold_left].
  - cbv zeta. repeat split; left; reflexivity.
  - specialize (IH (Utils.extend b q)). cbv zeta in IH |- *.
    destruct IH as (H1 & H2 & H3 & H4).
    change (Utils.minX (Utils.extend b q))
      with (Rmin (Utils.minX b) (pt_x q)) in H1.
    change (Utils.minY (Utils.extend b q))
      with (Rmin (Utils.minY b) (pt_y q)) in H2.
    change (Utils.maxX (Utils.extend b q))
      with (Rmax (Utils.maxX b) (pt_x q)) in H3.
    change (Utils.maxY (Utils.extend b q))
      with (Rmax (Utils.maxY b) (pt_y q)) in H4.
    repeat split.
    + destruct H1 as [H1 | (p & Hp & E)];
        [| right; exists p; split; [right; exact Hp | exact E]].
      destruct (Rmin_cases (Utils.minX b) (pt_x q)) as [E | E];
        [left; congruence |].
      right. exists q. split; [left; reflexivity | congruence].
    + destruct H2 as [H2 | (p & Hp & E)];
        [| right; exists p; split; [right; exact Hp | exact E]].
      destruct (Rmin_cases (Utils.minY b) (pt_y q)) as [E | E];
        [left; congruence |].
      right. exists q. split; [left; reflexivity | congruence].
    + destruct H3 as [H3 | (p & Hp & E)];
        [| right; exists p; split; [right; exact Hp | exact E]].
      destruct (Rmax_cases (Utils.maxX b) (pt_x q)) as [E | E];
        [left; congruence |].
      right. exists q. split; [left; reflexivity | congruence].
    + destruct H4 as [H4 | (p & Hp & E)];
        [| right; exists p; split; [right; exact Hp | exact E]].
      destruct (Rmax_cases (Utils.maxY b) (pt_y q)) as [E | E];
        [left; congruence |].
      right. exists q. split; [left; reflexivity | congruence].
Qed.

(** X3. [calculateBoundingBox] answers [null] for an absent or empty path
    and otherwise the tightest box around the path: every point lies
    inside it and each of its four sides passes through a point of the
    path. *)
Theorem calculateBoundingBox_tight :
  Utils.calculateBoundingBox None = None /\
  Utils.calculateBoundingBox (Some []) = None /\
  forall (p0 : Point) (pts : list Point),
  exists b,
    Utils.calculateBoundingBox (Some (p0 :: pts)) = Some b /\
    (forall p, In p (p0 :: pts) ->
       Utils.minX b <= pt_x p <= Utils.maxX b /\
       Utils.minY b <= pt_y p <= Utils.maxY b) /\
    (exists p, In p (p0 :: pts) /\ pt_x p = Utils.minX b) /\
    (exists p, In p (p0 :: pts) /\ pt_y p = Utils.minY b) /\
    (exists p, In p (p0 :: pts) /\ pt_x p = Utils.maxX b) /\
    (exists p, In p (p0 :: pts) /\ pt_y p = Utils.maxY b).
Proof.
  split; [reflexivity |]. split; [reflexivity |].
  intros p0 pts.
  destruct (calculateBoundingBox_contains p0 pts) as (b & Hb & _ & _ & Hin).
  exists b. split; [exact Hb |]. split; [exact Hin |].
  cbn in Hb. injection Hb as Hb.
  pose proof (fold_extend_attained (p0 :: pts)
                {| Utils.minX := pt_x p0; Utils.minY := pt_y p0;
                   Utils.maxX := pt_x p0; Utils.maxY := pt_y p0 |}) as H.
  cbv zeta in H. cbn [fold_left] in H. rewrite Hb in H.
  cbn [Utils.minX Utils.minY Utils.maxX Utils.maxY] in H.
  destruct H as (H1 & H2 & H3 & H4).
  repeat split.
  - destruct H1 as [E | H1]; [| exact H1].
    exists p0. split; [left; reflexivity | congruence].
  - destruct H2 as [E | H2]; [| exact H2].
    exists p0. split; [left; reflexivity | congruence].
  - destruct H3 as [E | H3]; [| exact H3].
    exists p0. split; [left; reflexivity | congruence].
  - destruct H4 as [E | H4]; [| exact H4].
    exists p0. split; [left; reflexivity | congruence].
Qed.

End GeometryExtras.

(** ** Migration and hit testing *)

Section ReadOnlyPasses.
Open Scope R_scope.

Lemma sameIdentity_refl (a : Annotation.t) : sameIdentity a a.
Proof. repeat split. Qed.

Lemma sameIdentity_trans (a b c : Annotation.t) :
  sameIdentity a b -> sameIdentity b c -> sameIdentity a c.
Proof.
  unfold sameIdentity. intros (H1 & H2 & H3 & H4 & H5 & H6)
                              (K1 & K2 & K3 & K4 & K5 & K6).
  repeat split; congruence.
Qed.

Lemma heapRefines_refl (h : Heap) : heapRefines h h.
Proof.
  split; [reflexivity |]. intros l a Ha. exists a.
  split; [exact Ha | apply sameIdentity_refl].
Qed.

Lemma heapRefines_trans (h1 h2 h3 : Heap) :
  heapRefines h1 h2 -> heapRefines h2 h3 -> heapRefines h1 h3.
Proof.
  intros [L1 H1] [L2 H2]. split; [congruence |].
  intros l a Ha. destruct (H1 l a Ha) as (b & Hb & Sab).
  destruct (H2 l b Hb) as (c & Hc & Sbc).
  exists c. split; [exact Hc | eapply sameIdentity_trans; eauto].
Qed.

Lemma migrate_heapRefines (s : State) (r : loc) (viewport : option Viewport) :
  heapRefines (heap s) (heap (snd (migratePixelToNormalized r viewport s))).
Proof.
  destruct (migratePixelToNormalized_run s r viewport)
    as (_ & Hsame & Hother & Hlen & _).
  split; [exact Hlen |]. intros l a Ha.
  destruct (Nat.eq_dec l r) as [-> | Hne].
  - rewrite Hsame, Ha. cbn. eexists. split; [reflexivity |].
    apply afterMigration_frame.
  - rewrite (Hother l Hne). exists a. split; [exact Ha |].
    apply sameIdentity_refl.
Qed.

Lemma set_heap_set_heap (h h' : Heap) (s : State) :
  set_heap h (set_heap h' s) = set_heap h s.
Proof. reflexivity. Qed.

Lemma set_heap_chain (s s1 s2 : State) :
  set_heap (heap s) s1 = s -> set_heap (heap s1) s2 = s1 ->
  set_heap (heap s) s2 = s.
Proof.
  intros H1 H2. rewrite <- H1 at 2. rewrite <- H2.
  rewrite set_heap_set_heap. reflexivity.
Qed.

Lemma hitCandidate_frame (s : State) (r : loc) (x y : R) (v : Viewport) :
  set_heap (heap s) (snd (hitCandidate r x y v s)) = s /\
  heapRefines (heap s) (heap (snd (hitCandidate r x y v s))).
Proof.
  rewrite hitCandidate_run. cbn [snd]. split.
  - destruct (migratePixelToNormalized_run s r (Some v)) as (_ & _ & _ & _ & H).
    exact H.
  - apply migrate_heapRefines.
Qed.

Lemma getAnnotationAtPoint_loop_frame (arr : list loc) (x y : R)
    (v : Viewport) (n : nat) :
  forall s,
  set_heap (heap s) (snd (getAnnotationAtPoint_loop arr n x y v s)) = s /\
  heapRefines (heap s)
              (heap (snd (getAnnotationAtPoint_loop arr n x y v s))) /\
  exists o, fst (getAnnotationAtPoint_loop arr n x y v s) = Normal o /\
            forall r, o = Some r -> In r arr.
Proof.
  induction n as [| i IH]; intros s.
  - cbn. split; [apply set_heap_same |]. split; [apply heapRefines_refl |].
    exists None. split; [reflexivity | discriminate].
  - cbn [getAnnotationAtPoint_loop].
    destruct (arr !! i) as [r |] eqn:Hi; [| apply IH].
    unfold bind. rewrite hitCandidate_run.
    destruct (hitCandidate_frame s r x y v) as [Hf Hr].
    rewrite hitCandidate_run in Hf, Hr. cbn [snd] in Hf, Hr.
    destruct (hitsAt (heap s) x y v r).
    + cbn [fst snd ret]. split; [exact Hf |]. split; [exact Hr |].
      exists (Some r). split; [reflexivity |].
      intros r' Hr'. injection Hr' as <-.
      apply list_elem_of_In. eapply list_elem_of_lookup_2. exact Hi.
    + destruct (IH (snd (migratePixelToNormalized r (Some v) s)))
        as (Hf' & Hr' & o & Ho & Hin).
      split; [eapply set_heap_chain; eassumption |].
      split; [eapply heapRefines_trans; eassumption |].
      exists o. split; assumption.
Qed.

(** X4. [getAnnotationAtPoint] is a read-only pass but for the lazy
    migration: it never raises, it returns [null] or a record of the
    page it was asked about, it adds or removes no object, it leaves the
    page map, the tool state and the notification log untouched, and
    every record keeps its id, type, color, page, content and timestamp. *)
Theorem getAnnotationAtPoint_reads_only (s : State) (pageNum : nat)
    (x y : R) (v : Viewport) :
  (exists o, fst (getAnnotationAtPoint pageNum x y v s) = Normal o /\
             forall r, o = Some r -> In r (pageAnnotationsOf pageNum s)) /\
  set_heap (heap s) (snd (getAnnotationAtPoint pageNum x y v s)) = s /\
  heapRefines (heap s) (heap (snd (getAnnotationAtPoint pageNum x y v s))).
Proof.
  unfold getAnnotationAtPoint, bind, get.
  destruct (getAnnotationAtPoint_loop_frame
              (pageAnnotationsOf pageNum s) x y v
              (length (pageAnnotationsOf pageNum s)) s) as (Hf & Hr & Ho).
  split; [exact Ho |]. split; assumption.
Qed.

(** X5. For a highlight, underline or strikethrough record (any type
    other than note and draw) the hit test succeeds exactly when the point
    lies in the device-space rectangle spanned by the two corners of the
    record, whichever way round the corners are stored. *)
Theorem box_hit_iff_in_rectangle (s : State) (r : loc) (x y : R)
    (v : Viewport) (a : Annotation.t) :
  heap s !! r = Some a ->
  isBoxType (Annotation.type a) = true ->
  (fst (hitCandidate r x y v s) = Normal true <->
   inDeviceBox (Annotation.coordinates (afterMigration a (Some v))) v x y).
Proof.
  intros Ha Ht. rewrite hitCandidate_run. cbn [fst].
  unfold hitsAt. rewrite Ha. rewrite Normal_inj.
  apply hitTest_box.
  destruct (afterMigration_frame a (Some v)) as (_ & H & _).
  rewrite H. exact Ht.
Qed.

Lemma box_hit_iff_in_rectangle_witness :
  fst (hitCandidate 0 250 120 sampleViewport overlapStore) = Normal true.
Proof.
  apply (proj2 (box_hit_iff_in_rectangle
                  overlapStore 0 250 120 sampleViewport highlightA
                  eq_refl eq_refl)).
  rewrite afterMigration_normalized
    by (apply areCoordinatesNormalized_true; cbn;
        repeat split; apply Rabs_le_iff; lra).
  unfold inDeviceBox; cbn; unfold Rmin, Rmax;
    repeat match goal with
           | |- context [Rle_dec ?a ?b] => destruct (Rle_dec a b)
           end; lra.
Defined.

End ReadOnlyPasses.

Section MigrationExtras.
Open Scope R_scope.

Lemma migratedFields_path (a : Annotation.t) (v : Viewport) :
  Annotation.type a = "draw"%string ->
  Annotation.path (migratedFields a v)
  = (map (fun point => canvasToNormalized (pt_x point) (pt_y point) v))
      <$> Annotation.path a.
Proof.
  destruct a as [i t c co pa pg ct ts]. cbn. intros ->.
  unfold migratedFields. cbn. destruct pa; reflexivity.
Qed.

Lemma toDevice_canvasToNormalized (p : Point) (v : Viewport) :
  0 < width v -> 0 < height v ->
  toDevice (canvasToNormalized (pt_x p) (pt_y p) v) v = p.
Proof.
  intros Hw Hh. destruct p as [a b].
  unfold toDevice, normalizedToCanvas, canvasToNormalized. cbn [pt_x pt_y].
  f_equal; field; lra.
Qed.

Lemma map_toDevice_canvasToNormalized (pts : list Point) (v : Viewport) :
  0 < width v -> 0 < height v ->
  map (fun p => toDevice p v)
      (map (fun point => canvasToNormalized (pt_x point) (pt_y point) v) pts)
  = pts.
Proof.
  intros Hw Hh. induction pts as [| p pts IH]; [reflexivity |].
  cbn [map]. rewrite toDevice_canvasToNormalized by assumption.
  f_equal. exact IH.
Qed.

Lemma Rdiv_le_pos (a b w : R) : 0 < w -> a <= b -> a / w <= b / w.
Proof.
  intros Hw Hab. unfold Rdiv. apply Rmult_le_compat_r; [| exact Hab].
  left. apply Rinv_0_lt_compat. exact Hw.
Qed.

(** X6. Migration does not move a legacy record on screen: seen through
    the viewport it was migrated with (positive width and height), the
    converted corners and path points are the stored pixel values again.
    It also keeps the corners ordered. *)
Theorem migration_keeps_device_position (s : State) (r : loc)
    (v : Viewport) (a : Annotation.t) :
  heap s !! r = Some a ->
  0 < width v -> 0 < height v ->
  exists m,
    heap (snd (migratePixelToNormalized r (Some v) s)) !! r = Some m /\
    (areCoordinatesNormalized a (Some v) = false ->
     normalizedToCanvas (startX (Annotation.coordinates m))
                        (startY (Annotation.coordinates m)) v
       = mkPoint (startX (Annotation.coordinates a))
                 (startY (Annotation.coordinates a)) /\
     normalizedToCanvas (endX (Annotation.coordinates m))
                        (endY (Annotation.coordinates m)) v
       = mkPoint (endX (Annotation.coordinates a))
                 (endY (Annotation.coordinates a)) /\
     (Annotation.type a = "draw"%string ->
      forall pts, Annotation.path a = Some pts ->
      exists pts', Annotation.path m = Some pts' /\
                   map (fun p => toDevice p v) pts' = pts)) /\
    (ordered (Annotation.coordinates a) ->
     ordered (Annotation.coordinates m)).
Proof.
  intros Ha Hw Hh.
  destruct (migratePixelToNormalized_run s r (Some v)) as (_ & Hsame & _).
  exists (afterMigration a (Some v)).
  split; [rewrite Hsame, Ha; reflexivity |].
  unfold afterMigration.
  destruct (areCoordinatesNormalized a (Some v)) eqn:Hn.
  - split; [discriminate | auto].
  - split.
    + intros _. rewrite migratedFields_coordinates.
      cbn [startX startY endX endY].
      split; [| split].
      * unfold normalizedToCanvas. f_equal; field; lra.
      * unfold normalizedToCanvas. f_equal; field; lra.
      * intros Ht pts Hp. rewrite (migratedFields_path a v Ht), Hp.
        eexists. split; [reflexivity |].
        apply map_toDevice_canvasToNormalized; assumption.
    + intros [Hx Hy]. rewrite migratedFields_coordinates.
      split; cbn [startX startY endX endY]; apply Rdiv_le_pos; assumption.
Qed.

Lemma migration_keeps_device_position_witness :
  exists m,
    heap (snd (migratePixelToNormalized 0%nat (Some sampleViewport)
                                        legacyStore)) !! 0%nat = Some m /\
    ordered (Annotation.coordinates m).
Proof.
  assert (Hw : 0 < width sampleViewport) by (cbn; lra).
  assert (Hh : 0 < height sampleViewport) by (cbn; lra).
  destruct (migration_keeps_device_position
              legacyStore 0%nat sampleViewport legacyHighlight
              eq_refl Hw Hh) as (m & Hm & _ & Ho).
  exists m. split; [exact Hm |]. apply Ho. split; cbn; lra.
Defined.

Lemma migrateAt_heapRefines (h : Heap) (v : Viewport) (r : loc) :
  heapRefines h (migrateAt h v r).
Proof.
  pose proof (migrate_heapRefines (storeOf h []) r (Some v)) as H.
  rewrite migratePixelToNormalized_state in H. exact H.
Qed.

Lemma migrateAll_heapRefines (arr : list loc) (v : Viewport) :
  forall h, heapRefines h (migrateAll h v arr).
Proof.
  induction arr as [| r arr IH]; intros h; [apply heapRefines_refl |].
  unfold migrateAll. cbn [fold_left].
  fold (migrateAll (migrateAt h v r) v arr).
  eapply heapRefines_trans; [apply migrateAt_heapRefines | apply IH].
Qed.

Lemma migrateAll_normalized (arr : list loc) (v : Viewport) (h : Heap) :
  (forall r a, In r arr -> h !! r = Some a ->
               areCoordinatesNormalized a (Some v) = true) ->
  migrateAll h v arr = h.
Proof.
  induction arr as [| r arr IH]; intros H; [reflexivity |].
  unfold migrateAll. cbn [fold_left].
  assert (E : migrateAt h v r = h).
  { unfold migrateAt. destruct (h !! r) as [a |] eqn:Hr; [| reflexivity].
    rewrite (H r a (or_introl eq_refl) Hr). reflexivity. }
  rewrite E. apply IH. intros r' a Hin. apply H. right. exact Hin.
Qed.

(** X7. Called with a [null] viewport, [renderAnnotations] changes
    nothing; it completes on a page without records and raises a
    [TypeError] as soon as the page holds one. *)
Theorem renderAnnotations_null_viewport (pageNum : nat) (s : State) :
  snd (renderAnnotations pageNum None s) = s /\
  (pageAnnotationsOf pageNum s = [] ->
   fst (renderAnnotations pageNum None s) = Normal tt) /\
  (pageAnnotationsOf pageNum s <> [] ->
   fst (renderAnnotations pageNum None s) = Thrown "TypeError").
Proof.
  rewrite renderAnnotations_null. cbn [fst snd].
  split; [reflexivity |].
  destruct (pageAnnotationsOf pageNum s); split; congruence.
Qed.

(** X8. Called with a viewport, [renderAnnotations] never raises and
    touches nothing but the records of the page it migrates: no object is
    added or removed, every record keeps its id, type, color, page,
    content and timestamp, and the page map, tool state and notification
    log are as before.  On a page whose records all read as normalized it
    changes nothing at all. *)
Theorem renderAnnotations_only_migrates (pageNum : nat) (v : Viewport)
    (s : State) :
  fst (renderAnnotations pageNum (Some v) s) = Normal tt /\
  set_heap (heap s) (snd (renderAnnotations pageNum (Some v) s)) = s /\
  heapRefines (heap s) (heap (snd (renderAnnotations pageNum (Some v) s))) /\
  ((forall r a, In r (pageAnnotationsOf pageNum s) -> heap s !! r = Some a ->
                areCoordinatesNormalized a (Some v) = true) ->
   snd (renderAnnotations pageNum (Some v) s) = s).
Proof.
  rewrite renderAnnotations_run. cbn [fst snd].
  split; [reflexivity |].
  split; [rewrite set_heap_set_heap; apply set_heap_same |].
  split; [apply migrateAll_heapRefines |].
  intros H. rewrite migrateAll_normalized by exact H. apply set_heap_same.
Qed.

End MigrationExtras.

(** ** The shape of the store *)

Section StoreInvariant.
Open Scope js_scope.

Lemma Map_get_None_keys (k : nat) (m : AnnotationMap) :
  Map_get k m = None <-> ~ In k (map fst m).
Proof.
  induction m as [| [k0 v0] m IH]; cbn.
  - split; [intros _ [] | reflexivity].
  - destruct (Nat.eqb k0 k) eqn:E.
    + apply Nat.eqb_eq in E. split; [discriminate |].
      intros H. exfalso. apply H. left. exact E.
    + apply Nat.eqb_neq in E. rewrite IH. split.
      * intros H [Hk | Hk]; [exact (E Hk) | exact (H Hk)].
      * intros H Hk. apply H. right. exact Hk.
Qed.

Lemma Map_set_absent (k : nat) (v : list loc) (m : AnnotationMap) :
  Map_get k m = None -> Map_set k v m = m ++ [(k, v)].
Proof.
  induction m as [| [k0 v0] m IH]; cbn; [reflexivity |].
  destruct (Nat.eqb k0 k); [discriminate |].
  intros H. rewrite (IH H). reflexivity.
Qed.

Lemma Map_get_split (k : nat) (arr : list loc) (m : AnnotationMap) :
  Map_get k m = Some arr ->
  exists done rest, m = done ++ (k, arr) :: rest /\ ~ In k (map fst done).
Proof.
  induction m as [| [k0 v0] m IH]; cbn; [discriminate |].
  destruct (Nat.eqb k0 k) eqn:E.
  - apply Nat.eqb_eq in E. subst k0. intros H. injection H as ->.
    exists [], m. split; [reflexivity | intros []].
  - apply Nat.eqb_neq in E. intros H.
    destruct (IH H) as (done & rest & -> & Hk).
    exists ((k0, v0) :: done), rest. split; [reflexivity |].
    intros [Hk0 | Hin]; [exact (E Hk0) | exact (Hk Hin)].
Qed.

Lemma allRecords_app (m1 m2 : AnnotationMap) :
  allRecords (m1 ++ m2) = allRecords m1 ++ allRecords m2.
Proof. unfold allRecords. rewrite map_app, concat_app. reflexivity. Qed.

Lemma allRecords_cons (k : nat) (arr : list loc) (m : AnnotationMap) :
  allRecords ((k, arr) :: m) = arr ++ allRecords m.
Proof. reflexivity. Qed.

(** What the two statements shared by the creation methods do to the
    store: the page array of [pageNum], created empty if need be, gets the
    new object appended. *)
Lemma ensure_push_shape (pageNum : nat) (a : Annotation.t) (s : State) :
  exists done arr rest,
    (annotations s = done ++ (pageNum, arr) :: rest \/
     (annotations s = done /\ arr = [] /\ rest = [])) /\
    ~ In pageNum (map fst done) /\
    pageAnnotationsOf pageNum s = arr /\
    annotations (snd (pushAnnotation pageNum a (snd (ensurePage pageNum s))))
      = done ++ (pageNum, arr ++ [length (heap s)]) :: rest /\
    heap (snd (pushAnnotation pageNum a (snd (ensurePage pageNum s))))
      = heap s ++ [a].
Proof.
  unfold pushAnnotation, ensurePage, modify, Map_has, pageAnnotationsOf.
  cbn [snd].
  destruct (Map_get pageNum (annotations s)) as [arr |] eqn:Hget.
  - destruct (Map_get_split _ _ _ Hget) as (done & rest & Hm & Hk).
    exists done, arr, rest. cbn [annotations heap set_annotations set_heap].
    rewrite Hget, Hm, Map_set_middle by exact Hk.
    repeat split; auto.
  - exists (annotations s), [], []. cbn [annotations heap set_annotations
                                     set_heap].
    rewrite Map_get_set_eq.
    rewrite (Map_set_absent _ _ _ Hget).
    rewrite Map_set_middle by (apply Map_get_None_keys; exact Hget).
    repeat split; auto. apply Map_get_None_keys. exact Hget.
Qed.

Lemma storeInvariant_ext (s s' : State) :
  annotations s' = annotations s -> length (heap s') = length (heap s) ->
  storeInvariant s -> storeInvariant s'.
Proof.
  unfold storeInvariant, refsValid. intros -> ->. auto.
Qed.

Lemma NoDup_insert_fresh (A B C : list loc) (l : loc) :
  NoDup (A ++ B ++ C) -> ~ In l (A ++ B ++ C) ->
  NoDup (A ++ (B ++ [l]) ++ C).
Proof.
  intros Hnd Hl.
  assert (P : A ++ (B ++ [l]) ++ C ≡ₚ l :: A ++ B ++ C).
  { rewrite <- app_assoc. cbn [app].
    rewrite !app_assoc. symmetry. apply Permutation_middle. }
  rewrite P. apply NoDup_cons. split; [| exact Hnd].
  intros H. apply Hl. apply list_elem_of_In. exact H.
Qed.

Lemma storeInvariant_ensure_push (pageNum : nat) (a : Annotation.t)
    (s : State) :
  storeInvariant s ->
  storeInvariant (snd (pushAnnotation pageNum a (snd (ensurePage pageNum s)))).
Proof.
  intros (Hwf & Hnd & Hrefs).
  destruct (ensure_push_shape pageNum a s)
    as (done & arr & rest & Hm & Hk & _ & Hm' & Hh').
  unfold storeInvariant, refsValid, wfMap in *. rewrite Hm', Hh'.
  assert (Hfresh : ~ In (length (heap s)) (allRecords (annotations s))).
  { intros H. specialize (Hrefs _ H). lia. }
  destruct Hm as [Hm | (Hm & -> & ->)].
  - rewrite Hm in *. rewrite allRecords_app, allRecords_cons in *.
    split; [| split].
    + rewrite map_app in *. exact Hwf.
    + apply NoDup_insert_fresh; assumption.
    + intros r Hr. rewrite length_app. cbn [length].
      apply in_app_or in Hr. destruct Hr as [Hr | Hr].
      * specialize (Hrefs r (in_or_app _ _ _ (or_introl Hr))). lia.
      * apply in_app_or in Hr. destruct Hr as [Hr | Hr].
        -- apply in_app_or in Hr. destruct Hr as [Hr | [<- | []]]; [| lia].
           specialize (Hrefs r (in_or_app _ _ _
                                  (or_intror (in_or_app _ _ _ (or_introl Hr))))).
           lia.
        -- specialize (Hrefs r (in_or_app _ _ _
                                  (or_intror (in_or_app _ _ _ (or_intror Hr))))).
           lia.
  - subst done. rewrite allRecords_app, allRecords_cons in *.
    change (([] ++ [length (heap s)]) ++ allRecords [])
      with [length (heap s)].
    split; [| split].
    + rewrite map_app. cbn [map fst]. apply NoDup_app.
      split; [exact Hwf |]. split; [| apply NoDup_singleton].
      intros x Hx Hx'. apply list_elem_of_singleton in Hx'. subst x.
      apply Hk. apply list_elem_of_In. exact Hx.
    + apply NoDup_app. split; [exact Hnd |].
      split; [| apply NoDup_singleton].
      intros x Hx Hx'. apply list_elem_of_singleton in Hx'. subst x.
      apply Hfresh. apply list_elem_of_In. exact Hx.
    + intros r Hr. rewrite length_app. cbn [length].
      apply in_app_or in Hr. destruct Hr as [Hr | [<- | []]]; [| lia].
      specialize (Hrefs r Hr). lia.
Qed.

End StoreInvariant.

Section Preservation.
Open Scope js_scope.

Lemma preserves_ret (P : State -> Prop) {A} (a : A) : preserves P (ret a).
Proof. intros s H. exact H. Qed.

Lemma preserves_throw (P : State -> Prop) {A} (e : string) :
  preserves P (throw (A:=A) e).
Proof. intros s H. exact H. Qed.

Lemma preserves_get (P : State -> Prop) : preserves P get.
Proof. intros s H. exact H. Qed.

Lemma preserves_modify (P : State -> Prop) (f : State -> State) :
  (forall s, P s -> P (f s)) -> preserves P (modify f).
Proof. intros Hf s H. apply Hf. exact H. Qed.

Lemma preserves_bind (P : State -> Prop) {A B} (m : M A) (k : A -> M B) :
  preserves P m -> (forall a, preserves P (k a)) -> preserves P (bind m k).
Proof.
  intros Hm Hk s H. unfold bind. specialize (Hm s H).
  destruct (m s) as [[a | e] s1]; cbn [snd] in *.
  - apply Hk. exact Hm.
  - exact Hm.
Qed.

Lemma preserves_forEach (P : State -> Prop) {A} (f : A -> M unit)
    (l : list A) :
  (forall a, preserves P (f a)) -> preserves P (forEach f l).
Proof.
  intros Hf. induction l as [| a l IH]; cbn [forEach].
  - apply preserves_ret.
  - apply preserves_bind; [apply Hf | intros _; exact IH].
Qed.

Lemma frame_annotations (s s' : State) :
  set_heap (heap s) s' = s -> annotations s' = annotations s.
Proof. intros H. apply (f_equal annotations) in H. exact H. Qed.

Lemma inv_migrate (r : loc) (viewport : option Viewport) :
  preserves storeInvariant (migratePixelToNormalized r viewport).
Proof.
  intros s H.
  destruct (migratePixelToNormalized_run s r viewport)
    as (_ & _ & _ & Hlen & Hf).
  eapply storeInvariant_ext; [apply frame_annotations; exact Hf | exact Hlen |
                              exact H].
Qed.

Lemma inv_render (pageNum : nat) (viewport : option Viewport) :
  preserves storeInvariant (renderAnnotations pageNum viewport).
Proof.
  unfold renderAnnotations. apply preserves_bind; [apply preserves_get |].
  intros s0. apply preserves_forEach. intros r.
  unfold renderSingleAnnotation.
  apply preserves_bind; [apply inv_migrate |]. intros _.
  destruct viewport; [apply preserves_ret | apply preserves_throw].
Qed.

Lemma getAnnotationAtPoint_frame (s : State) (pageNum : nat) (x y : R)
    (v : Viewport) :
  set_heap (heap s) (snd (getAnnotationAtPoint pageNum x y v s)) = s /\
  heapRefines (heap s) (heap (snd (getAnnotationAtPoint pageNum x y v s))).
Proof.
  unfold getAnnotationAtPoint, bind, get.
  destruct (getAnnotationAtPoint_loop_frame
              (pageAnnotationsOf pageNum s) x y v
              (length (pageAnnotationsOf pageNum s)) s) as (Hf & Hr & _).
  split; assumption.
Qed.

Lemma inv_getAnnotationAtPoint (pageNum : nat) (x y : R) (v : Viewport) :
  preserves storeInvariant (getAnnotationAtPoint pageNum x y v).
Proof.
  intros s H.
  destruct (getAnnotationAtPoint_frame s pageNum x y v) as [Hf [Hlen _]].
  eapply storeInvariant_ext; [apply frame_annotations; exact Hf | exact Hlen |
                              exact H].
Qed.

Lemma inv_showNotification (message kind : string) :
  preserves storeInvariant (showNotification message kind).
Proof. intros s H. exact H. Qed.

Lemma inv_ensurePage (pageNum : nat) :
  preserves storeInvariant (ensurePage pageNum).
Proof.
  intros s (Hwf & Hnd & Hrefs). unfold ensurePage, modify, Map_has. cbn [snd].
  destruct (Map_get pageNum (annotations s)) eqn:Hget;
    [repeat split; assumption |].
  unfold storeInvariant, refsValid, wfMap.
  cbn [annotations heap set_annotations].
  rewrite (Map_set_absent _ _ _ Hget), allRecords_app, map_app.
  change (allRecords [(pageNum, [])]) with (@nil loc). rewrite app_nil_r.
  split; [| split; assumption].
  cbn [map fst]. apply NoDup_app. split; [exact Hwf |].
  split; [| apply NoDup_singleton].
  intros x Hx Hx'. apply list_elem_of_singleton in Hx'. subst x.
  apply Map_get_None_keys in Hget. apply Hget.
  apply list_elem_of_In. exact Hx.
Qed.

Lemma inv_ensure_push (pageNum : nat) (a : Annotation.t) :
  preserves storeInvariant
            (bind (ensurePage pageNum) (fun _ => pushAnnotation pageNum a)).
Proof.
  intros s H. apply (storeInvariant_ensure_push pageNum a s H).
Qed.

Lemma inv_createAnnotation (pageNum : nat) (x1 y1 x2 y2 : R)
    (tool color newId now : string) :
  preserves storeInvariant
            (createAnnotation pageNum x1 y1 x2 y2 tool color newId now).
Proof.
  intros s H. unfold createAnnotation.
  apply (storeInvariant_ensure_push pageNum _ s H).
Qed.

Lemma inv_createDrawAnnotation (pageNum : nat) (path : list Point)
    (color newId now : string) :
  preserves storeInvariant (createDrawAnnotation pageNum path color newId now).
Proof.
  intros s H. unfold createDrawAnnotation.
  destruct (Utils.calculateBoundingBox (Some path)) as [b |].
  - apply (storeInvariant_ensure_push pageNum _ s H).
  - apply (inv_ensurePage pageNum s H).
Qed.

Lemma inv_createNoteAnnotation (env : Env) (pageNum : nat) (nx ny : R)
    (newId now : string) :
  preserves storeInvariant (createNoteAnnotation env pageNum nx ny newId now).
Proof.
  intros s H. unfold createNoteAnnotation.
  apply (storeInvariant_ensure_push pageNum _ s H).
Qed.

Lemma storeInvariant_splice (s : State) (k i : nat) :
  storeInvariant s ->
  Map_get k (annotations s) <> None ->
  storeInvariant
    (set_annotations
       (Map_set k (delete i (pageAnnotationsOf k s)) (annotations s)) s).
Proof.
  intros (Hwf & Hnd & Hrefs) Hget.
  unfold pageAnnotationsOf.
  destruct (Map_get k (annotations s)) as [arr |] eqn:E; [| congruence].
  destruct (Map_get_split _ _ _ E) as (done & rest & Hm & Hk).
  unfold storeInvariant, refsValid, wfMap in *.
  cbn [annotations heap set_annotations].
  rewrite Hm in *. rewrite Map_set_middle by exact Hk.
  rewrite !allRecords_app, !allRecords_cons in *. rewrite map_app in *.
  assert (Hsub : allRecords done ++ delete i arr ++ allRecords rest
                 `sublist_of` allRecords done ++ arr ++ allRecords rest).
  { apply sublist_app; [reflexivity |].
    apply sublist_app; [apply sublist_delete | reflexivity]. }
  split; [exact Hwf |]. split.
  - eapply sublist_NoDup; eassumption.
  - intros r Hr. apply Hrefs. apply list_elem_of_In.
    eapply elem_of_sublist; [| exact Hsub]. apply list_elem_of_In. exact Hr.
Qed.

Lemma findIndex_Some_nonempty {A} (pred : A -> bool) (l : list A) (i : nat) :
  findIndex pred l = Some i -> l <> [].
Proof. destruct l; [discriminate | discriminate]. Qed.

Lemma inv_deleteFromPage (env : Env) (annotationId : string) (k : nat) :
  preserves storeInvariant (deleteFromPage env annotationId k).
Proof.
  intros s H. unfold deleteFromPage, bind, get.
  destruct (findIndex (hasId (heap s) annotationId) (pageAnnotationsOf k s))
    as [i |] eqn:Hfind; [| exact H].
  unfold modify.
  assert (Hget : Map_get k (annotations s) <> None).
  { apply findIndex_Some_nonempty in Hfind. unfold pageAnnotationsOf in Hfind.
    destruct (Map_get k (annotations s)); congruence. }
  pose proof (storeInvariant_splice s k i H Hget) as H1.
  destruct (Nat.eqb k (currentPage env)); [| exact H1].
  destruct (annotationCanvas env); [| exact H1].
  apply inv_render. exact H1.
Qed.

Lemma inv_deleteAnnotation (env : Env) (annotationId : string) :
  preserves storeInvariant (deleteAnnotation env annotationId).
Proof.
  unfold deleteAnnotation.
  apply preserves_bind; [apply preserves_get |]. intros s0.
  apply preserves_bind;
    [apply preserves_forEach; intros k; apply inv_deleteFromPage |].
  intros _. apply preserves_bind; [apply inv_showNotification |].
  intros _. apply preserves_ret.
Qed.

Lemma inv_openNoteEditor (env : Env) (answer : option string) (r : loc) :
  preserves storeInvariant (openNoteEditor env answer r).
Proof.
  unfold openNoteEditor. destruct answer as [content |];
    [| apply preserves_ret].
  intros s H. unfold bind, get.
  destruct (heap s !! r) as [a |]; [| exact H].
  unfold modify.
  assert (H1 : storeInvariant
                 (set_heap (<[r := withContent content a]> (heap s)) s)).
  { apply (storeInvariant_ext s);
      [reflexivity | cbn [heap set_heap]; apply length_insert | exact H]. }
  destruct (annotationCanvas env); [| exact H1].
  apply inv_render. exact H1.
Qed.

Lemma inv_clearAnnotations (confirmed : bool) :
  preserves storeInvariant (clearAnnotations confirmed).
Proof.
  intros s H. destruct confirmed; [| exact H].
  repeat split; [apply NoDup_nil_2 | apply NoDup_nil_2 | intros r []].
Qed.

Lemma inv_setter (f : State -> State) :
  (forall s, annotations (f s) = annotations s) ->
  (forall s, heap (f s) = heap s) ->
  preserves storeInvariant (modify f).
Proof.
  intros Ha Hh. apply preserves_modify. intros s H.
  apply (storeInvariant_ext s); [apply Ha | rewrite Hh; reflexivity | exact H].
Qed.

Lemma inv_commitGesture (env : Env) (v : Viewport) (newId now : string) :
  preserves storeInvariant (commitGesture env v newId now).
Proof.
  unfold commitGesture. apply preserves_bind; [apply preserves_get |].
  intros s0. destruct (isTool s0 "draw").
  - apply preserves_bind; [apply inv_setter; reflexivity |]. intros _.
    apply preserves_bind; [| intros _; apply inv_setter; reflexivity].
    destruct (currentStroke s0) as [stroke |]; [| apply preserves_ret].
    destruct (Nat.ltb 1 (length stroke));
      [apply inv_createDrawAnnotation | apply preserves_ret].
  - apply inv_createAnnotation.
Qed.

Lemma inv_mouseup (env : Env) (v : Viewport) (coords : Point)
    (newId now : string) :
  preserves storeInvariant (mouseup env v coords newId now).
Proof.
  unfold mouseup. apply preserves_bind; [apply preserves_get |].
  intros s0.
  destruct (negb (g_isDrawing (gesture s0)) || isTool s0 "select"
            || isTool s0 "eraser"); [apply preserves_ret |].
  apply preserves_bind; [apply inv_setter; reflexivity |]. intros _.
  apply preserves_bind; [apply inv_commitGesture |]. intros _.
  apply inv_render.
Qed.

Lemma inv_mousedown (env : Env) (v : Viewport) (coords : Point) :
  preserves storeInvariant (mousedown env v coords).
Proof.
  unfold mousedown. apply preserves_bind; [apply preserves_get |].
  intros s0. destruct (isTool s0 "select"); [apply preserves_ret |].
  destruct (isTool s0 "eraser").
  - apply preserves_bind; [apply inv_getAnnotationAtPoint |].
    intros [a |]; [| apply inv_showNotification].
    apply preserves_bind; [apply preserves_get |]. intros s1.
    destruct (heap s1 !! a) as [o |]; [| apply preserves_ret].
    apply preserves_bind; [apply inv_deleteAnnotation |]. intros _.
    apply preserves_bind; [apply inv_render |]. intros _.
    apply inv_showNotification.
  - apply preserves_bind; [apply inv_setter; reflexivity |]. intros _.
    apply preserves_bind; [apply preserves_get |]. intros s1.
    destruct (isTool s1 "draw"); [| apply preserves_ret].
    apply preserves_bind; [apply inv_setter; reflexivity |]. intros _.
    apply inv_setter; reflexivity.
Qed.

Lemma inv_mousemove (env : Env) (v : Viewport) (coords : Point) :
  preserves storeInvariant (mousemove env v coords).
Proof.
  unfold mousemove. apply preserves_bind; [apply preserves_get |].
  intros s0. destruct (isTool s0 "eraser").
  - apply preserves_bind; [apply inv_getAnnotationAtPoint |].
    intros hovered. unfold showEraserHover.
    apply preserves_bind; [apply inv_render |]. intros _.
    destruct hovered as [a |]; [| apply preserves_ret].
    apply preserves_bind; [apply inv_migrate |]. intros _.
    apply preserves_ret.
  - destruct (negb (g_isDrawing (gesture s0)) || isTool s0 "select" || false);
      [apply preserves_ret |].
    apply preserves_bind; [apply inv_setter; reflexivity |]. intros _.
    apply preserves_bind; [apply preserves_get |]. intros s1.
    destruct (isTool s1 "draw"); [| apply inv_render].
    destruct (currentStroke s1); [| apply preserves_throw].
    apply preserves_bind; [apply inv_setter; reflexivity |]. intros _.
    apply inv_render.
Qed.

Lemma inv_dblclick (env : Env) (v : Viewport) (coords : Point)
    (newId now : string) :
  preserves storeInvariant (dblclick env v coords newId now).
Proof.
  unfold dblclick. apply preserves_bind; [apply preserves_get |].
  intros s0. destruct (isTool s0 "note");
    [apply inv_createNoteAnnotation | apply preserves_ret].
Qed.

(** X9. Every reachable manager has distinct page keys, references every
    record once and has no dangling reference: this holds when the manager
    is constructed and is kept (also when they raise) by the creation
    methods, by deletion, clearing, note editing, rendering and hit
    testing, and by the four pointer handlers. *)
Theorem storeInvariant_kept :
  storeInvariant initialState /\
  (forall pageNum x1 y1 x2 y2 tool color newId now,
     preserves storeInvariant
       (createAnnotation pageNum x1 y1 x2 y2 tool color newId now)) /\
  (forall pageNum path color newId now,
     preserves storeInvariant
       (createDrawAnnotation pageNum path color newId now)) /\
  (forall env pageNum nx ny newId now,
     preserves storeInvariant
       (createNoteAnnotation env pageNum nx ny newId now)) /\
  (forall env annotationId,
     preserves storeInvariant (deleteAnnotation env annotationId)) /\
  (forall confirmed, preserves storeInvariant (clearAnnotations confirmed)) /\
  (forall env answer r,
     preserves storeInvariant (openNoteEditor env answer r)) /\
  (forall pageNum viewport,
     preserves storeInvariant (renderAnnotations pageNum viewport)) /\
  (forall pageNum x y v,
     preserves storeInvariant (getAnnotationAtPoint pageNum x y v)) /\
  (forall env v coords,
     preserves storeInvariant (mousedown env v coords)) /\
  (forall env v coords,
     preserves storeInvariant (mousemove env v coords)) /\
  (forall env v coords newId now,
     preserves storeInvariant (mouseup env v coords newId now)) /\
  (forall env v coords newId now,
     preserves storeInvariant (dblclick env v coords newId now)).
Proof.
  split.
  { repeat split; [apply NoDup_nil_2 | apply NoDup_nil_2 | intros r []]. }
  split; [intros; apply inv_createAnnotation |].
  split; [intros; apply inv_createDrawAnnotation |].
  split; [intros; apply inv_createNoteAnnotation |].
  split; [intros; apply inv_deleteAnnotation |].
  split; [intros; apply inv_clearAnnotations |].
  split; [intros; apply inv_openNoteEditor |].
  split; [intros; apply inv_render |].
  split; [intros; apply inv_getAnnotationAtPoint |].
  split; [intros; apply inv_mousedown |].
  split; [intros; apply inv_mousemove |].
  split; [intros; apply inv_mouseup |].
  intros; apply inv_dblclick.
Qed.

End Preservation.

(** ** Creation *)

Section CreationExtras.
Open Scope R_scope.

Lemma pageAnnotationsOf_ensurePage (pageNum k : nat) (s : State) :
  pageAnnotationsOf k (snd (ensurePage pageNum s)) = pageAnnotationsOf k s.
Proof.
  unfold ensurePage, modify, Map_has, pageAnnotationsOf. cbn [snd].
  destruct (Map_get pageNum (annotations s)) eqn:Hget; [reflexivity |].
  cbn [annotations set_annotations].
  destruct (Nat.eq_dec k pageNum) as [-> | Hne].
  - rewrite Map_get_set_eq, Hget. reflexivity.
  - rewrite Map_get_set_ne by exact Hne. reflexivity.
Qed.

Lemma allRecords_ensurePage (pageNum : nat) (s : State) :
  allRecords (annotations (snd (ensurePage pageNum s)))
  = allRecords (annotations s).
Proof.
  unfold ensurePage, modify, Map_has. cbn [snd].
  destruct (Map_get pageNum (annotations s)) eqn:Hget; [reflexivity |].
  cbn [annotations set_annotations].
  rewrite (Map_set_absent _ _ _ Hget), allRecords_app.
  change (allRecords [(pageNum, [])]) with (@nil loc). apply app_nil_r.
Qed.

Lemma Map_has_ensurePage (pageNum : nat) (s : State) :
  Map_has pageNum (annotations (snd (ensurePage pageNum s))) = true.
Proof.
  unfold ensurePage, modify, Map_has. cbn [snd].
  destruct (Map_get pageNum (annotations s)) eqn:Hget.
  - rewrite Hget. reflexivity.
  - cbn [annotations set_annotations]. rewrite Map_get_set_eq. reflexivity.
Qed.

(** X10. [createDrawAnnotation] with an empty path creates nothing and
    says nothing: no object is allocated, every page keeps its records,
    no notification is shown.  Its only trace is that the page key now
    exists in the map. *)
Theorem createDrawAnnotation_empty_path (pageNum : nat)
    (color newId now : string) (s : State) :
  let result := createDrawAnnotation pageNum [] color newId now s in
  fst result = Normal tt /\
  heap (snd result) = heap s /\
  notifications (snd result) = notifications s /\
  (forall k, pageAnnotationsOf k (snd result) = pageAnnotationsOf k s) /\
  countAll (annotations (snd result)) = countAll (annotations s) /\
  Map_has pageNum (annotations (snd result)) = true.
Proof.
  cbv zeta.
  change (createDrawAnnotation pageNum [] color newId now s)
    with (ensurePage pageNum s).
  destruct (ensurePage_run pageNum s) as (H1 & H2 & H3 & _).
  split; [exact H1 |]. split; [exact H2 |]. split; [exact H3 |].
  split; [intros k; apply pageAnnotationsOf_ensurePage |].
  split; [unfold countAll; rewrite allRecords_ensurePage; reflexivity |].
  apply Map_has_ensurePage.
Qed.

(** X11. A double click with the note tool, on a layer whose viewport
    (of positive width and height) is the one the handler was installed
    with, creates one note anchored at the clicked point whose box is
    24 by 24 device pixels: taken back to device space its corners are
    the click and the click plus 24.  With any other tool a double click
    changes nothing. *)
Theorem dblclick_creates_note (env : Env) (v : Viewport) (coords : Point)
    (newId now : string) (s : State) :
  layerViewport env = Some v -> 0 < width v -> 0 < height v ->
  let result := dblclick env v coords newId now s in
  (isTool s "note" = false -> result = (Normal tt, s)) /\
  (isTool s "note" = true ->
   exists a,
     fst result = Normal tt /\
     created s (snd result) (currentPage env) a /\
     Annotation.id a = newId /\
     Annotation.type a = "note"%string /\
     Annotation.content a = Some EmptyString /\
     normalizedToCanvas (startX (Annotation.coordinates a))
                        (startY (Annotation.coordinates a)) v = coords /\
     normalizedToCanvas (endX (Annotation.coordinates a))
                        (endY (Annotation.coordinates a)) v
       = mkPoint (pt_x coords + 24) (pt_y coords + 24)).
Proof.
  intros Hl Hw Hh. cbv zeta. unfold dblclick, bind, get.
  destruct (isTool s "note").
  - split; [discriminate |]. intros _.
    eexists. split; [reflexivity |].
    split; [unfold createNoteAnnotation, bind, showNotification;
            apply created_add_notification; apply ensure_push_created |].
    split; [reflexivity |]. split; [reflexivity |]. split; [reflexivity |].
    cbn [Annotation.coordinates startX startY endX endY]. rewrite Hl.
    destruct coords as [cx cy].
    unfold normalizedToCanvas, canvasToNormalized. cbn [pt_x pt_y].
    split; f_equal; field; lra.
  - split; [reflexivity | discriminate].
Qed.

Lemma dblclick_creates_note_witness :
  exists a,
    created noteToolSelected
      (snd (dblclick sampleEnv sampleViewport (mkPoint 500 500) "n1" "t1"
                     noteToolSelected)) 1 a /\
    Annotation.type a = "note"%string.
Proof.
  assert (Hw : 0 < width sampleViewport) by (cbn; lra).
  assert (Hh : 0 < height sampleViewport) by (cbn; lra).
  destruct (proj2 (dblclick_creates_note
                     sampleEnv sampleViewport (mkPoint 500 500) "n1" "t1"
                     noteToolSelected eq_refl Hw Hh) eq_refl)
    as (a & _ & Hc & _ & Ht & _).
  exists a. split; [exact Hc | exact Ht].
Defined.

End CreationExtras.

Section CreateThenHit.
Open Scope R_scope.

Lemma storeInvariant_page_NoDup (s : State) (k : nat) :
  storeInvariant s -> NoDup (pageAnnotationsOf k s).
Proof.
  intros (_ & Hnd & _). unfold pageAnnotationsOf.
  destruct (Map_get k (annotations s)) as [arr |] eqn:E;
    [| apply NoDup_nil_2].
  destruct (Map_get_split _ _ _ E) as (done & rest & Hm & _).
  rewrite Hm, allRecords_app, allRecords_cons in Hnd.
  apply NoDup_app in Hnd. destruct Hnd as (_ & _ & Hnd).
  apply NoDup_app in Hnd. destruct Hnd as (Hnd & _). exact Hnd.
Qed.

Lemma Rabs_Rmin_le (a b c : R) : Rabs a <= c -> Rabs b <= c -> Rabs (Rmin a b) <= c.
Proof. intros Ha Hb. destruct (Rmin_cases a b) as [-> | ->]; assumption. Qed.

Lemma Rabs_Rmax_le (a b c : R) : Rabs a <= c -> Rabs b <= c -> Rabs (Rmax a b) <= c.
Proof. intros Ha Hb. destruct (Rmax_cases a b) as [-> | ->]; assumption. Qed.

Lemma topmostHit_last (h : Heap) (x y : R) (v : Viewport) (arr : list loc)
    (l : loc) :
  hitsAt h x y v l = true -> topmostHit h x y v (arr ++ [l]) = Some l.
Proof.
  intros H. unfold topmostHit. rewrite rev_app_distr. cbn [rev app List.find].
  rewrite H. reflexivity.
Qed.

(** X12. A box annotation that has just been created is the topmost one
    of its page: with corners that read as normalized (magnitude at most
    2), a hit test at any point of its device rectangle returns the new
    record, whatever lay there before. *)
Theorem created_annotation_is_topmost (s : State) (pageNum : nat)
    (x1 y1 x2 y2 : R) (tool color newId now : string) (x y : R)
    (v : Viewport) :
  storeInvariant s ->
  isBoxType tool = true ->
  Rabs x1 <= 2 -> Rabs y1 <= 2 -> Rabs x2 <= 2 -> Rabs y2 <= 2 ->
  inDeviceBox (mkCoordinates (Rmin x1 x2) (Rmin y1 y2)
                             (Rmax x1 x2) (Rmax y1 y2)) v x y ->
  fst (getAnnotationAtPoint pageNum x y v
         (snd (createAnnotation pageNum x1 y1 x2 y2 tool color newId now s)))
  = Normal (Some (length (heap s))).
Proof.
  intros Hinv Htool Hx1 Hy1 Hx2 Hy2 Hbox.
  set (s' := snd (createAnnotation pageNum x1 y1 x2 y2 tool color newId now s)).
  assert (Hinv' : storeInvariant s') by (apply inv_createAnnotation; exact Hinv).
  set (a := Annotation.mk newId tool
              (if String.eqb tool "underline" then COLORS.UNDERLINE_RED
               else color)
              (mkCoordinates (Rmin x1 x2) (Rmin y1 y2)
                             (Rmax x1 x2) (Rmax y1 y2))
              None pageNum None now).
  assert (Hc : created s s' pageNum a).
  { unfold s', createAnnotation, bind, showNotification.
    apply created_add_notification. apply ensure_push_created. }
  destruct Hc as [Hheap Hpage].
  rewrite getAnnotationAtPoint_run
    by (apply storeInvariant_page_NoDup; exact Hinv').
  rewrite Hpage. f_equal. apply topmostHit_last.
  unfold hitsAt. rewrite Hheap.
  rewrite lookup_app_r by lia. rewrite Nat.sub_diag. cbn [lookup list_lookup].
  rewrite afterMigration_normalized.
  - apply hitTest_box; [exact Htool | exact Hbox].
  - apply areCoordinatesNormalized_true.
    cbn [a Annotation.coordinates startX startY endX endY].
    repeat split;
      first [apply Rabs_Rmin_le | apply Rabs_Rmax_le]; assumption.
Qed.

Lemma created_annotation_is_topmost_witness :
  fst (getAnnotationAtPoint 1 250 120 sampleViewport
         (snd (createAnnotation 1 (2/10) (1/10) (4/10) (3/10)
                                "highlight" "#ffff00" "a9" "t9"
                                overlapStore)))
  = Normal (Some 2%nat).
Proof.
  apply (created_annotation_is_topmost
           overlapStore 1 (2/10) (1/10) (4/10) (3/10)
           "highlight" "#ffff00" "a9" "t9" 250 120 sampleViewport).
  - split; [apply NoDup_singleton |].
    split; [| intros r [<- | [<- | []]]; cbn; lia].
    apply NoDup_cons. split; [intros H; inversion H; subst; inversion H2 |].
    apply NoDup_singleton.
  - reflexivity.
  - apply Rabs_le_iff; lra.
  - apply Rabs_le_iff; lra.
  - apply Rabs_le_iff; lra.
  - apply Rabs_le_iff; lra.
  - unfold inDeviceBox; cbn; unfold Rmin, Rmax;
      repeat match goal with
             | |- context [Rle_dec ?a ?b] =>
                 lazymatch a with
                 | context [Rle_dec _ _] => fail
                 | _ =>
                     lazymatch b with
                     | context [Rle_dec _ _] => fail
                     | _ => destruct (Rle_dec a b); try lra
                     end
                 end
             end; try lra.
Defined.

End CreateThenHit.

(** ** Releases that commit *)

Section ReleaseExtras.
Open Scope R_scope.

Lemma countAll_app (m1 m2 : AnnotationMap) :
  countAll (m1 ++ m2) = (countAll m1 + countAll m2)%nat.
Proof. unfold countAll. rewrite allRecords_app. apply length_app. Qed.

Lemma create_facts (pageNum : nat) (a : Annotation.t) (s1 : State) :
  let s2 := snd (pushAnnotation pageNum a (snd (ensurePage pageNum s1))) in
  created s1 s2 pageNum a /\
  countAll (annotations s2) = S (countAll (annotations s1)) /\
  notifications s2 = notifications s1 /\
  (forall k, k <> pageNum ->
             pageAnnotationsOf k s2 = pageAnnotationsOf k s1).
Proof.
  cbv zeta. split; [apply ensure_push_created |].
  destruct (ensure_push_shape pageNum a s1)
    as (done & arr & rest & Hm & Hk & _ & Hm' & _).
  split; [| split].
  - rewrite Hm'. destruct Hm as [-> | (-> & -> & ->)];
      rewrite !countAll_app, !countAll_cons, ?length_app; cbn; lia.
  - destruct (pushAnnotation_run pageNum a (snd (ensurePage pageNum s1)))
      as (_ & _ & Hn & _).
    destruct (ensurePage_run pageNum s1) as (_ & _ & Hn' & _). congruence.
  - intros k Hne. unfold pageAnnotationsOf.
    change (annotations
              (snd (pushAnnotation pageNum a (snd (ensurePage pageNum s1)))))
      with (Map_set pageNum
              (pageAnnotationsOf pageNum (snd (ensurePage pageNum s1))
               ++ [length (heap (snd (ensurePage pageNum s1)))])
              (annotations (snd (ensurePage pageNum s1)))).
    rewrite Map_get_set_ne by exact Hne.
    exact (pageAnnotationsOf_ensurePage pageNum k s1).
Qed.

Lemma migrateAll_lookup_normalized (arr : list loc) (v : Viewport) (l : loc)
    (a : Annotation.t) :
  areCoordinatesNormalized a (Some v) = true ->
  forall h, h !! l = Some a -> migrateAll h v arr !! l = Some a.
Proof.
  intros Hn. induction arr as [| r arr IH]; intros h Hl; [exact Hl |].
  unfold migrateAll. cbn [fold_left]. fold (migrateAll (migrateAt h v r) v arr).
  apply IH. unfold migrateAt.
  destruct (h !! r) as [b |] eqn:Hr; [| exact Hl].
  destruct (areCoordinatesNormalized b (Some v)) eqn:Hb; [exact Hl |].
  rewrite list_lookup_insert_ne; [exact Hl |].
  intros ->. rewrite Hl in Hr. injection Hr as <-. congruence.
Qed.

(** The state a release leaves once its record [a] has been committed with
    notification [n] and the page re-rendered. *)
Lemma release_state (cp : nat) (v : Viewport) (a : Annotation.t)
    (n : string * string) (s1 sc : State) :
  annotations sc
    = annotations (snd (pushAnnotation cp a (snd (ensurePage cp s1)))) ->
  heap sc = heap s1 ++ [a] ->
  notifications sc = notifications s1 ++ [n] ->
  let s' := snd (renderAnnotations cp (Some v) sc) in
  fst (renderAnnotations cp (Some v) sc) = Normal tt /\
  pageAnnotationsOf cp s' = pageAnnotationsOf cp s1 ++ [length (heap s1)] /\
  (forall k, k <> cp -> pageAnnotationsOf k s' = pageAnnotationsOf k s1) /\
  length (heap s') = S (length (heap s1)) /\
  countAll (annotations s') = S (countAll (annotations s1)) /\
  notifications s' = notifications s1 ++ [n] /\
  (exists a', heap s' !! length (heap s1) = Some a' /\ sameIdentity a a') /\
  (areCoordinatesNormalized a (Some v) = true ->
   heap s' !! length (heap s1) = Some a).
Proof.
  intros Hann Hheap Hnot. cbv zeta.
  destruct (create_facts cp a s1) as ([_ Hpage] & Hcount & _ & Hother).
  cbv zeta in Hpage, Hcount, Hother.
  rewrite renderAnnotations_run. cbn [fst snd].
  assert (Hl : heap sc !! length (heap s1) = Some a).
  { rewrite Hheap, lookup_app_r by lia. rewrite Nat.sub_diag. reflexivity. }
  split; [reflexivity |].
  split; [unfold pageAnnotationsOf in *; cbn [annotations set_heap];
          rewrite Hann; exact Hpage |].
  split; [intros k Hne; unfold pageAnnotationsOf in *;
          cbn [annotations set_heap]; rewrite Hann; exact (Hother k Hne) |].
  split; [cbn [heap set_heap]; rewrite length_migrateAll, Hheap, length_app;
          cbn; lia |].
  split; [cbn [annotations set_heap]; rewrite Hann; exact Hcount |].
  split; [exact Hnot |].
  split.
  - destruct (migrateAll_heapRefines (pageAnnotationsOf cp sc) v (heap sc))
      as [_ H].
    exact (H _ _ Hl).
  - intros Hn. cbn [heap set_heap].
    apply migrateAll_lookup_normalized; assumption.
Qed.

Lemma create_other_fields (pageNum : nat) (a : Annotation.t) (s1 : State) :
  let s2 := snd (pushAnnotation pageNum a (snd (ensurePage pageNum s1))) in
  gesture s2 = gesture s1 /\ currentStroke s2 = currentStroke s1 /\
  isDrawing s2 = isDrawing s1 /\ currentTool s2 = currentTool s1 /\
  currentColor s2 = currentColor s1.
Proof.
  cbv zeta. unfold pushAnnotation, ensurePage, modify. cbn [snd].
  destruct (Map_has pageNum (annotations s1)); repeat split.
Qed.

Lemma withinTwice_normalized (a : Annotation.t) (v : Viewport)
    (x1 y1 x2 y2 : R) :
  0 < width v -> 0 < height v ->
  withinTwiceViewport (mkCoordinates x1 y1 x2 y2) v ->
  Annotation.coordinates a
    = mkCoordinates (Rmin (x1 / width v) (x2 / width v))
                    (Rmin (y1 / height v) (y2 / height v))
                    (Rmax (x1 / width v) (x2 / width v))
                    (Rmax (y1 / height v) (y2 / height v)) ->
  areCoordinatesNormalized a (Some v) = true.
Proof.
  intros Hw Hh (Hx1 & Hx2 & Hy1 & Hy2) Hc.
  cbn [startX startY endX endY] in Hx1, Hx2, Hy1, Hy2.
  apply areCoordinatesNormalized_true. rewrite Hc.
  cbn [startX startY endX endY].
  repeat split; first [apply Rabs_Rmin_le | apply Rabs_Rmax_le];
    apply Rabs_div_le; assumption.
Qed.

(** X13. Releasing a drag made with a shape tool (any tool other than
    select, eraser and draw) always commits exactly one record, also when
    the box has no area: it is appended to the displayed page, carries the
    fresh id, the tool as its type and the current color (red for
    underline), and a notification is shown.  When both endpoints lie
    within twice the viewport the stored corners are the minimum and the
    maximum of the two normalized endpoints. *)
Theorem shape_release_commits (env : Env) (v : Viewport) (coords : Point)
    (newId now : string) (s : State) :
  g_isDrawing (gesture s) = true ->
  isTool s "select" = false ->
  isTool s "eraser" = false ->
  isTool s "draw" = false ->
  let result := mouseup env v coords newId now s in
  let cp := currentPage env in
  let l := length (heap s) in
  let g := gesture s in
  fst result = Normal tt /\
  pageAnnotationsOf cp (snd result) = pageAnnotationsOf cp s ++ [l] /\
  (forall k, k <> cp ->
             pageAnnotationsOf k (snd result) = pageAnnotationsOf k s) /\
  countAll (annotations (snd result)) = S (countAll (annotations s)) /\
  notifications (snd result)
    = notifications s
      ++ [((currentTool s ++ " annotation added")%string, "success"%string)] /\
  g_isDrawing (gesture (snd result)) = false /\
  (exists a', heap (snd result) !! l = Some a' /\
              Annotation.id a' = newId /\
              Annotation.type a' = currentTool s /\
              Annotation.color a'
                = (if String.eqb (currentTool s) "underline"
                   then COLORS.UNDERLINE_RED else currentColor s) /\
              Annotation.page a' = cp) /\
  (0 < width v -> 0 < height v ->
   withinTwiceViewport
     (mkCoordinates (g_startX g) (g_startY g) (pt_x coords) (pt_y coords)) v ->
   exists a', heap (snd result) !! l = Some a' /\
              Annotation.coordinates a'
                = mkCoordinates
                    (Rmin (g_startX g / width v) (pt_x coords / width v))
                    (Rmin (g_startY g / height v) (pt_y coords / height v))
                    (Rmax (g_startX g / width v) (pt_x coords / width v))
                    (Rmax (g_startY g / height v) (pt_y coords / height v))).
Proof.
  intros Hd Hsel Her Hdraw. cbv zeta.
  set (s1 := set_gesture (stop_drawing (set_end coords (gesture s))) s).
  set (a := Annotation.mk newId (currentTool s)
              (if String.eqb (currentTool s) "underline"
               then COLORS.UNDERLINE_RED else currentColor s)
              (mkCoordinates
                 (Rmin (g_startX (gesture s) / width v) (pt_x coords / width v))
                 (Rmin (g_startY (gesture s) / height v)
                       (pt_y coords / height v))
                 (Rmax (g_startX (gesture s) / width v) (pt_x coords / width v))
                 (Rmax (g_startY (gesture s) / height v)
                       (pt_y coords / height v)))
              None (currentPage env) None now).
  set (n := ((currentTool s ++ " annotation added")%string, "success"%string)).
  set (sc := add_notification n
               (snd (pushAnnotation (currentPage env) a
                       (snd (ensurePage (currentPage env) s1))))).
  assert (E : mouseup env v coords newId now s
              = renderAnnotations (currentPage env) (Some v) sc).
  { unfold mouseup, bind at 1, get. unfold isTool in *.
    rewrite Hd, Hsel, Her. cbn [negb orb].
    unfold bind at 1, modify. unfold bind at 1.
    unfold commitGesture, bind at 1, get, isTool.
    change (currentTool
              (set_gesture (stop_drawing (set_end coords (gesture s))) s))
      with (currentTool s).
    rewrite Hdraw. reflexivity. }
  rewrite E.
  destruct (create_facts (currentPage env) a s1) as ([Hheap _] & _ & Hnot & _).
  assert (Hnot' : notifications sc = notifications s1 ++ [n]).
  { unfold sc. cbn [notifications add_notification]. cbv zeta in Hnot.
    rewrite Hnot. reflexivity. }
  destruct (release_state (currentPage env) v a n s1 sc eq_refl Hheap Hnot')
    as (H1 & H2 & H3 & _ & H5 & H6 & (a' & Ha' & Hid) & H8).
  destruct (create_other_fields (currentPage env) a s1) as (Hg & _).
  split; [exact H1 |]. split; [exact H2 |]. split; [exact H3 |].
  split; [exact H5 |]. split; [exact H6 |].
  split.
  { rewrite renderAnnotations_run. cbn [snd]. exact (f_equal g_isDrawing Hg). }
  split.
  { exists a'. split; [exact Ha' |].
    destruct Hid as (I1 & I2 & I3 & I4 & _). repeat split; assumption. }
  intros Hw Hh Hin. exists a. split; [| reflexivity].
  apply H8. eapply withinTwice_normalized; [exact Hw | exact Hh | exact Hin |].
  reflexivity.
Qed.

Lemma shape_release_commits_witness :
  countAll (annotations
              (snd (mouseup sampleEnv sampleViewport (mkPoint 100 100)
                            "id1" "t1" dragStarted)))
  = S (countAll (annotations dragStarted)).
Proof.
  exact (proj1 (proj2 (proj2 (proj2
           (shape_release_commits sampleEnv sampleViewport (mkPoint 100 100)
              "id1" "t1" dragStarted eq_refl eq_refl eq_refl eq_refl))))).
Defined.

Lemma map_nonempty_cons {A B} (f : A -> B) (l : list A) :
  (2 <= length l)%nat -> exists b bs, map f l = b :: bs.
Proof.
  destruct l as [| a l]; cbn; [lia |]. intros _. eauto.
Qed.

Lemma boundingBox_within (p0 : Point) (pts : list Point) (c : R) :
  (forall p, In p (p0 :: pts) -> Rabs (pt_x p) <= c /\ Rabs (pt_y p) <= c) ->
  exists b,
    Utils.calculateBoundingBox (Some (p0 :: pts)) = Some b /\
    Rabs (Utils.minX b) <= c /\ Rabs (Utils.minY b) <= c /\
    Rabs (Utils.maxX b) <= c /\ Rabs (Utils.maxY b) <= c.
Proof.
  intros H. eexists. split; [reflexivity |].
  pose proof (fold_extend_attained (p0 :: pts)
                {| Utils.minX := pt_x p0; Utils.minY := pt_y p0;
                   Utils.maxX := pt_x p0; Utils.maxY := pt_y p0 |}) as Hatt.
  cbv zeta in Hatt.
  cbn [Utils.minX Utils.minY Utils.maxX Utils.maxY] in Hatt.
  destruct (H p0 (or_introl eq_refl)) as [Hx0 Hy0].
  destruct Hatt as (H1 & H2 & H3 & H4).
  repeat split.
  - destruct H1 as [-> | (p & Hp & <-)]; [exact Hx0 | apply (H p Hp)].
  - destruct H2 as [-> | (p & Hp & <-)]; [exact Hy0 | apply (H p Hp)].
  - destruct H3 as [-> | (p & Hp & <-)]; [exact Hx0 | apply (H p Hp)].
  - destruct H4 as [-> | (p & Hp & <-)]; [exact Hy0 | apply (H p Hp)].
Qed.

(** X14. Releasing a stroke of at least two points commits exactly one
    draw record on the displayed page, with the fresh id and the current
    color, shows a notification and drops the stroke.  When every point
    of the stroke lies within twice the viewport, the stored path is the
    stroke taken to normalized space, point by point and in order, and
    the stored corners are its bounding box. *)
Theorem stroke_release_commits (env : Env) (v : Viewport) (coords : Point)
    (newId now : string) (s : State) (stroke : list Point) :
  g_isDrawing (gesture s) = true ->
  currentTool s = "draw"%string ->
  currentStroke s = Some stroke ->
  (2 <= length stroke)%nat ->
  let result := mouseup env v coords newId now s in
  let cp := currentPage env in
  let l := length (heap s) in
  let normalizedStroke :=
    map (fun point => canvasToNormalized (pt_x point) (pt_y point) v) stroke in
  fst result = Normal tt /\
  pageAnnotationsOf cp (snd result) = pageAnnotationsOf cp s ++ [l] /\
  (forall k, k <> cp ->
             pageAnnotationsOf k (snd result) = pageAnnotationsOf k s) /\
  countAll (annotations (snd result)) = S (countAll (annotations s)) /\
  notifications (snd result)
    = notifications s
      ++ [("Drawing annotation added"%string, "success"%string)] /\
  currentStroke (snd result) = None /\
  isDrawing (snd result) = false /\
  (exists a', heap (snd result) !! l = Some a' /\
              Annotation.id a' = newId /\
              Annotation.type a' = "draw"%string /\
              Annotation.color a' = currentColor s /\
              Annotation.page a' = cp) /\
  (0 < width v -> 0 < height v ->
   (forall p, In p stroke ->
              Rabs (pt_x p) <= 2 * width v /\ Rabs (pt_y p) <= 2 * height v) ->
   exists a' b,
     heap (snd result) !! l = Some a' /\
     Annotation.path a' = Some normalizedStroke /\
     Utils.calculateBoundingBox (Some normalizedStroke) = Some b /\
     Annotation.coordinates a'
       = mkCoordinates (Utils.minX b) (Utils.minY b)
                       (Utils.maxX b) (Utils.maxY b)).
Proof.
  intros Hd Htool Hstroke Hlen. cbv zeta.
  set (nstroke :=
         map (fun point => canvasToNormalized (pt_x point) (pt_y point) v)
             stroke).
  destruct (map_nonempty_cons
              (fun point => canvasToNormalized (pt_x point) (pt_y point) v)
              stroke Hlen) as (q0 & qs & Hq).
  fold nstroke in Hq.
  destruct (calculateBoundingBox_contains q0 qs) as (b & Hb & _).
  rewrite <- Hq in Hb.
  set (s1 := set_isDrawing false
               (set_gesture (stop_drawing (set_end coords (gesture s))) s)).
  set (a := Annotation.mk newId "draw" (currentColor s)
              (mkCoordinates (Utils.minX b) (Utils.minY b)
                             (Utils.maxX b) (Utils.maxY b))
              (Some nstroke) (currentPage env) None now).
  set (n := ("Drawing annotation added"%string, "success"%string)).
  set (sc := set_currentStroke None
               (add_notification n
                  (snd (pushAnnotation (currentPage env) a
                          (snd (ensurePage (currentPage env) s1)))))).
  assert (Hlt : Nat.ltb 1 (length stroke) = true) by (apply Nat.ltb_lt; lia).
  assert (E : mouseup env v coords newId now s
              = renderAnnotations (currentPage env) (Some v) sc).
  { unfold mouseup, bind at 1, get, isTool.
    rewrite Hd, Htool. cbn [negb orb String.eqb Ascii.eqb Bool.eqb].
    unfold bind at 1, modify. unfold bind at 1.
    unfold commitGesture, bind at 1, get, isTool.
    change (currentTool
              (set_gesture (stop_drawing (set_end coords (gesture s))) s))
      with (currentTool s).
    rewrite Htool. cbn [String.eqb Ascii.eqb Bool.eqb].
    change (currentStroke
              (set_gesture (stop_drawing (set_end coords (gesture s))) s))
      with (currentStroke s).
    rewrite Hstroke, Hlt.
    unfold bind at 1, modify. unfold bind at 1.
    fold nstroke. unfold createDrawAnnotation, bind at 1.
    change (ensurePage (currentPage env)
              (set_isDrawing false
                 (set_gesture (stop_drawing (set_end coords (gesture s))) s)))
      with (Normal tt, snd (ensurePage (currentPage env) s1)).
    cbv iota beta. rewrite Hb. reflexivity. }
  rewrite E.
  destruct (create_facts (currentPage env) a s1) as ([Hheap _] & _ & Hnot & _).
  assert (Hnot' : notifications sc = notifications s1 ++ [n]).
  { unfold sc. cbn [notifications add_notification set_currentStroke].
    cbv zeta in Hnot. rewrite Hnot. reflexivity. }
  destruct (release_state (currentPage env) v a n s1 sc eq_refl Hheap Hnot')
    as (H1 & H2 & H3 & _ & H5 & H6 & (a' & Ha' & Hid) & H8).
  split; [exact H1 |]. split; [exact H2 |]. split; [exact H3 |].
  split; [exact H5 |]. split; [exact H6 |].
  split; [rewrite renderAnnotations_run; reflexivity |].
  split.
  { rewrite renderAnnotations_run. cbn [snd].
    destruct (create_other_fields (currentPage env) a s1) as (_ & _ & Hi & _).
    exact Hi. }
  split.
  { exists a'. split; [exact Ha' |].
    destruct Hid as (I1 & I2 & I3 & I4 & _). repeat split; assumption. }
  intros Hw Hh Hin. exists a, b.
  split; [| split; [reflexivity | split; [exact Hb | reflexivity]]].
  apply H8. apply areCoordinatesNormalized_true.
  cbn [a Annotation.coordinates startX startY endX endY].
  destruct (boundingBox_within q0 qs 2) as (b' & Hb' & B1 & B2 & B3 & B4).
  { intros p Hp. rewrite <- Hq in Hp. unfold nstroke in Hp.
    apply in_map_iff in Hp. destruct Hp as (p' & <- & Hp').
    destruct (Hin p' Hp') as [Hx Hy]. cbn [canvasToNormalized pt_x pt_y].
    split; apply Rabs_div_le; assumption. }
  rewrite <- Hq, Hb in Hb'. injection Hb' as <-.
  repeat split; assumption.
Qed.

Lemma stroke_release_commits_witness :
  countAll (annotations
              (snd (mouseup sampleEnv sampleViewport (mkPoint 300 200)
                            "id1" "t1" strokeDrawn)))
  = S (countAll (annotations strokeDrawn)).
Proof.
  assert (Hlen : (2 <= length [mkPoint 100 100; mkPoint 200 150;
                               mkPoint 300 200])%nat) by (cbn; lia).
  assert (Hs : currentStroke strokeDrawn
               = Some [mkPoint 100 100; mkPoint 200 150; mkPoint 300 200])
    by reflexivity.
  exact (proj1 (proj2 (proj2 (proj2
           (stroke_release_commits sampleEnv sampleViewport (mkPoint 300 200)
              "id1" "t1" strokeDrawn _ eq_refl eq_refl Hs Hlen))))).
Defined.

End ReleaseExtras.

(** ** Strokes in progress *)

Section StrokeExtras.
Open Scope R_scope.

Lemma render_frame (pageNum : nat) (viewport : option Viewport) (s : State) :
  set_heap (heap s) (snd (renderAnnotations pageNum viewport s)) = s /\
  heapRefines (heap s) (heap (snd (renderAnnotations pageNum viewport s))).
Proof.
  destruct viewport as [v |].
  - rewrite renderAnnotations_run. cbn [snd]. split.
    + rewrite set_heap_set_heap. apply set_heap_same.
    + apply migrateAll_heapRefines.
  - rewrite renderAnnotations_null. cbn [snd].
    split; [apply set_heap_same | apply heapRefines_refl].
Qed.

Lemma mousedown_draw_run (env : Env) (v : Viewport) (p : Point) (s : State) :
  currentTool s = "draw"%string ->
  mousedown env v p s
  = (Normal tt,
     set_isDrawing true
       (set_currentStroke (Some [p])
          (set_gesture (set_start p (gesture s)) s))).
Proof.
  intros Ht. unfold mousedown, bind, get, modify, isTool.
  rewrite Ht. cbn [String.eqb Ascii.eqb Bool.eqb].
  change (currentTool (set_gesture (set_start p (gesture s)) s))
    with (currentTool s).
  rewrite Ht. reflexivity.
Qed.

Lemma mousemove_draw_run (env : Env) (v : Viewport) (p : Point) (s : State)
    (stroke : list Point) :
  currentTool s = "draw"%string ->
  g_isDrawing (gesture s) = true ->
  currentStroke s = Some stroke ->
  mousemove env v p s
  = renderAnnotations (currentPage env) (layerViewport env)
      (set_currentStroke (Some (stroke ++ [p]))
         (set_gesture (set_end p (gesture s)) s)).
Proof.
  intros Ht Hd Hs. unfold mousemove, bind at 1, get, isTool.
  rewrite Ht, Hd. cbn [negb orb String.eqb Ascii.eqb Bool.eqb].
  unfold bind at 1, modify. unfold bind at 1, get, isTool.
  change (currentTool (set_gesture (set_end p (gesture s)) s))
    with (currentTool s).
  change (currentStroke (set_gesture (set_end p (gesture s)) s))
    with (currentStroke s).
  rewrite Ht, Hs. reflexivity.
Qed.

Lemma mousemove_draw_facts (env : Env) (v : Viewport) (p : Point) (s : State)
    (stroke : list Point) :
  currentTool s = "draw"%string ->
  g_isDrawing (gesture s) = true ->
  currentStroke s = Some stroke ->
  let s' := snd (mousemove env v p s) in
  currentTool s' = "draw"%string /\
  g_isDrawing (gesture s') = true /\
  currentStroke s' = Some (stroke ++ [p]) /\
  annotations s' = annotations s /\
  notifications s' = notifications s /\
  heapRefines (heap s) (heap s').
Proof.
  intros Ht Hd Hs. cbv zeta.
  rewrite (mousemove_draw_run env v p s stroke Ht Hd Hs).
  set (s1 := set_currentStroke (Some (stroke ++ [p]))
               (set_gesture (set_end p (gesture s)) s)).
  destruct (render_frame (currentPage env) (layerViewport env) s1) as [Hf Hr].
  split; [transitivity (currentTool s1);
          [exact (f_equal currentTool Hf) | exact Ht] |].
  split; [transitivity (g_isDrawing (gesture s1));
          [exact (f_equal (fun x => g_isDrawing (gesture x)) Hf) | exact Hd] |].
  split; [exact (f_equal currentStroke Hf) |].
  split; [exact (f_equal annotations Hf) |].
  split; [exact (f_equal notifications Hf) |].
  exact Hr.
Qed.

(** X15. While the draw tool is held down the accumulator records the
    gesture faithfully: after the press it holds the press point alone,
    and after any sequence of moves it holds the press point followed by
    every point the pointer moved through, in order.  Meanwhile the page
    map and the notification log do not change and no record is added or
    removed. *)
Theorem stroke_accumulates (env : Env) (v : Viewport) (p0 : Point)
    (pts : list Point) (s : State) :
  currentTool s = "draw"%string ->
  let pressed := snd (mousedown env v p0 s) in
  let moved := dragThrough env v pts pressed in
  fst (mousedown env v p0 s) = Normal tt /\
  currentStroke pressed = Some [p0] /\
  currentStroke moved = Some (p0 :: pts) /\
  g_isDrawing (gesture moved) = true /\
  annotations moved = annotations s /\
  notifications moved = notifications s /\
  heapRefines (heap s) (heap moved).
Proof.
  intros Ht. cbv zeta. rewrite (mousedown_draw_run env v p0 s Ht).
  cbn [fst snd].
  set (pressed := set_isDrawing true
                    (set_currentStroke (Some [p0])
                       (set_gesture (set_start p0 (gesture s)) s))).
  split; [reflexivity |]. split; [reflexivity |].
  assert (G : forall pts s1 stroke,
             currentTool s1 = "draw"%string ->
             g_isDrawing (gesture s1) = true ->
             currentStroke s1 = Some stroke ->
             let s2 := dragThrough env v pts s1 in
             currentStroke s2 = Some (stroke ++ pts) /\
             g_isDrawing (gesture s2) = true /\
             annotations s2 = annotations s1 /\
             notifications s2 = notifications s1 /\
             heapRefines (heap s1) (heap s2)).
  { clear. induction pts as [| p pts IH]; intros s1 stroke Ht Hd Hs.
    - cbn. rewrite app_nil_r.
      repeat split; auto. intros l a Ha. exists a.
      split; [exact Ha | apply sameIdentity_refl].
    - cbv zeta. unfold dragThrough. cbn [fold_left].
      fold (dragThrough env v pts (snd (mousemove env v p s1))).
      destruct (mousemove_draw_facts env v p s1 stroke Ht Hd Hs)
        as (Ht' & Hd' & Hs' & Ha' & Hn' & Hr').
      destruct (IH _ _ Ht' Hd' Hs') as (K1 & K2 & K3 & K4 & K5).
      split; [rewrite K1, <- app_assoc; reflexivity |].
      split; [exact K2 |]. split; [congruence |]. split; [congruence |].
      eapply heapRefines_trans; eassumption. }
  destruct (G pts pressed [p0] Ht eq_refl eq_refl) as (K1 & K2 & K3 & K4 & K5).
  split; [exact K1 |]. split; [exact K2 |]. split; [exact K3 |].
  split; [exact K4 | exact K5].
Qed.

Lemma stroke_accumulates_witness :
  currentStroke
    (dragThrough sampleEnv sampleViewport [mkPoint 200 150; mkPoint 300 200]
       (snd (mousedown sampleEnv sampleViewport (mkPoint 100 100)
               (snd (setTool "draw" overlapStore)))))
  = Some [mkPoint 100 100; mkPoint 200 150; mkPoint 300 200].
Proof.
  exact (proj1 (proj2 (proj2
           (stroke_accumulates sampleEnv sampleViewport (mkPoint 100 100)
              [mkPoint 200 150; mkPoint 300 200]
              (snd (setTool "draw" overlapStore)) eq_refl)))).
Defined.

End StrokeExtras.

(** ** Note editing and clearing *)

Section NoteAndClear.
Open Scope R_scope.

(** X16. [openNoteEditor] changes nothing when the dialog is cancelled.
    With an answer it stores the text in the [content] of the note and
    touches neither another field of it nor another record, the page map
    or the log.  Without an annotation canvas it then completes; with one,
    the re-render that follows has no viewport and raises a [TypeError]
    as soon as the page of the note holds a record. *)
Theorem openNoteEditor_edits_content (env : Env) (answer : option string)
    (r : loc) (a : Annotation.t) (s : State) :
  heap s !! r = Some a ->
  let result := openNoteEditor env answer r s in
  (answer = None -> result = (Normal tt, s)) /\
  (forall content, answer = Some content ->
     heap (snd result) !! r = Some (withContent content a) /\
     (forall l, l <> r -> heap (snd result) !! l = heap s !! l) /\
     set_heap (heap s) (snd result) = s /\
     (annotationCanvas env = false -> fst result = Normal tt) /\
     (annotationCanvas env = true ->
      pageAnnotationsOf (Annotation.page a) s <> [] ->
      fst result = Thrown "TypeError") /\
     (annotationCanvas env = true ->
      pageAnnotationsOf (Annotation.page a) s = [] ->
      fst result = Normal tt)).
Proof.
  intros Ha. cbv zeta. split.
  - intros ->. reflexivity.
  - intros content ->. unfold openNoteEditor, bind, get, modify.
    rewrite Ha.
    set (s1 := set_heap (<[r := withContent content a]> (heap s)) s).
    assert (H1 : heap s1 !! r = Some (withContent content a)).
    { unfold s1. cbn [heap set_heap]. apply list_lookup_insert_eq.
      eapply lookup_lt_Some. exact Ha. }
    assert (H2 : forall l, l <> r -> heap s1 !! l = heap s !! l).
    { intros l Hl. unfold s1. cbn [heap set_heap].
      apply list_lookup_insert_ne. congruence. }
    assert (H3 : set_heap (heap s) s1 = s).
    { unfold s1. rewrite set_heap_set_heap. apply set_heap_same. }
    destruct (annotationCanvas env).
    + rewrite renderAnnotations_null. cbn [fst snd].
      change (pageAnnotationsOf (Annotation.page a) s1)
        with (pageAnnotationsOf (Annotation.page a) s).
      split; [exact H1 |]. split; [exact H2 |]. split; [exact H3 |].
      split; [discriminate |].
      destruct (pageAnnotationsOf (Annotation.page a) s);
        split; congruence.
    + cbn [fst snd ret].
      split; [exact H1 |]. split; [exact H2 |]. split; [exact H3 |].
      split; [reflexivity |]. split; discriminate.
Qed.

Lemma openNoteEditor_edits_content_witness :
  heap (snd (openNoteEditor sampleEnv (Some "todo"%string) 1%nat sketchStore))
    !! 1%nat
  = Some (withContent "todo" noteRecord).
Proof.
  exact (proj1 (proj2 (openNoteEditor_edits_content
                         sampleEnv (Some "todo"%string) 1%nat noteRecord
                         sketchStore eq_refl)
                 "todo"%string eq_refl)).
Defined.

(** X17. [clearAnnotations] does nothing when the confirmation is
    declined.  Confirmed, it empties the page map, so that the store
    counts no record and a hit test at any point of any page finds
    nothing, and it shows one notification; the objects themselves are
    not altered. *)
Theorem clearAnnotations_empties_store (s : State) :
  clearAnnotations false s = (Normal tt, s) /\
  let result := clearAnnotations true s in
  fst result = Normal tt /\
  countAll (annotations (snd result)) = 0%nat /\
  heap (snd result) = heap s /\
  notifications (snd result)
    = notifications s
      ++ [("All annotations cleared"%string, "success"%string)] /\
  forall pageNum x y v,
    getAnnotationAtPoint pageNum x y v (snd result)
    = (Normal None, snd result).
Proof.
  split; [reflexivity |]. cbv zeta.
  split; [reflexivity |]. split; [reflexivity |]. split; [reflexivity |].
  split; [reflexivity |]. intros pageNum x y v. reflexivity.
Qed.

End NoteAndClear.

(** ** Statistics and export *)

Section ReportingFacts.

Lemma Obj_get_set_eq {K V} (eqb : K -> K -> bool)
    (eqb_spec : forall a b, eqb a b = true <-> a = b)
    (key : K) (v : V) (o : list (K * V)) :
  Obj_get eqb key (Obj_set eqb key v o) = Some v.
Proof.
  induction o as [| [k v0] o IH]; cbn.
  - rewrite (proj2 (eqb_spec key key) eq_refl). reflexivity.
  - destruct (eqb k key) eqn:E; cbn; rewrite E; [reflexivity | exact IH].
Qed.

Lemma Obj_get_set_ne {K V} (eqb : K -> K -> bool)
    (eqb_spec : forall a b, eqb a b = true <-> a = b)
    (key key' : K) (v : V) (o : list (K * V)) :
  key' <> key ->
  Obj_get eqb key' (Obj_set eqb key v o) = Obj_get eqb key' o.
Proof.
  intros Hne. induction o as [| [k v0] o IH]; cbn.
  - destruct (eqb key key') eqn:E; [| reflexivity].
    apply eqb_spec in E. congruence.
  - destruct (eqb k key) eqn:E; cbn.
    + destruct (eqb k key') eqn:E'; [| reflexivity].
      apply eqb_spec in E, E'. congruence.
    + destruct (eqb k key'); [reflexivity | exact IH].
Qed.

Lemma afterCounting_zero (key : string) (v : option Tally) :
  afterCounting key 0 v = v.
Proof. unfold afterCounting. destruct (String.eqb key "__proto__"); reflexivity. Qed.

Lemma afterCounting_add (key : string) (c1 c2 : nat) (v : option Tally) :
  afterCounting key c2 (afterCounting key c1 v) = afterCounting key (c1 + c2) v.
Proof.
  unfold afterCounting.
  destruct (String.eqb key "__proto__"); [reflexivity |].
  destruct c1 as [| c1]; [reflexivity |].
  destruct c2 as [| c2].
  - rewrite Nat.add_0_r. reflexivity.
  - cbn [Nat.add]. f_equal.
    destruct v as [[n |] |].
    + f_equal. lia.
    + reflexivity.
    + destruct (inherited key); [reflexivity | f_equal; lia].
Qed.

(** One record counted. *)
Lemma countType_step (h : Heap) (stats : Stats) (r : loc) (key : string) :
  total (countType h stats r) = total stats /\
  byPage (countType h stats r) = byPage stats /\
  Obj_get String.eqb key (byType (countType h stats r))
  = afterCounting key (countOfType h key [(0, [r])])
      (Obj_get String.eqb key (byType stats)).
Proof.
  unfold countType, countOfType, allRecords.
  cbn [map snd concat app List.filter].
  destruct (h !! r) as [a |]; cbn [length];
    [| rewrite afterCounting_zero; repeat split].
  destruct (String.eqb (Annotation.type a) key) eqn:E.
  - apply String.eqb_eq in E. subst key. cbn [length].
    unfold afterCounting.
    destruct (String.eqb (Annotation.type a) "__proto__");
      [repeat split |].
    cbn [total byType byPage]. split; [reflexivity |].
    split; [reflexivity |].
    rewrite (Obj_get_set_eq String.eqb String.eqb_eq). f_equal.
  - apply String.eqb_neq in E. cbn [length].
    rewrite afterCounting_zero.
    destruct (String.eqb (Annotation.type a) "__proto__");
      [repeat split |].
    cbn [total byType byPage]. split; [reflexivity |].
    split; [reflexivity |].
    apply (Obj_get_set_ne String.eqb String.eqb_eq). congruence.
Qed.

Lemma countOfType_page_cons (h : Heap) (type : string) (r : loc)
    (arr : list loc) :
  countOfType h type [(0, r :: arr)]
  = countOfType h type [(0, [r])] + countOfType h type [(0, arr)].
Proof.
  unfold countOfType, allRecords. cbn [map snd concat].
  rewrite !app_nil_r. change (r :: arr) with ([r] ++ arr).
  rewrite List.filter_app, length_app. reflexivity.
Qed.

Lemma countType_fold (h : Heap) (arr : list loc) :
  forall stats : Stats,
  let result := fold_left (countType h) arr stats in
  total result = total stats /\
  byPage result = byPage stats /\
  forall key,
    Obj_get String.eqb key (byType result)
    = afterCounting key (countOfType h key [(0, arr)])
        (Obj_get String.eqb key (byType stats)).
Proof.
  induction arr as [| r arr IH]; intros stats; cbv zeta.
  - cbn [fold_left]. split; [reflexivity |]. split; [reflexivity |].
    intros key. symmetry. apply afterCounting_zero.
  - cbn [fold_left].
    destruct (IH (countType h stats r)) as (H1 & H2 & H3).
    rewrite H1, H2.
    split; [exact (proj1 (countType_step h stats r EmptyString)) |].
    split; [exact (proj1 (proj2 (countType_step h stats r EmptyString))) |].
    intros key. rewrite H3.
    rewrite (proj2 (proj2 (countType_step h stats r key))).
    rewrite afterCounting_add, (countOfType_page_cons h key r arr).
    reflexivity.
Qed.

Lemma countOfType_cons (h : Heap) (type : string) (k : nat)
    (arr : list loc) (m : AnnotationMap) :
  countOfType h type ((k, arr) :: m)
  = countOfType h type [(0, arr)] + countOfType h type m.
Proof.
  unfold countOfType, allRecords. cbn [map snd concat].
  rewrite app_nil_r, List.filter_app, length_app. reflexivity.
Qed.

Lemma getAnnotationStats_fold (h : Heap) (m : AnnotationMap) :
  forall stats : Stats,
  NoDup (map fst m) ->
  let result := fold_left (countPage h) m stats in
  total result = total stats + countAll m /\
  (forall key,
     Obj_get String.eqb key (byType result)
     = afterCounting key (countOfType h key m)
         (Obj_get String.eqb key (byType stats))) /\
  (forall pageNum,
     counter Nat.eqb pageNum (byPage result)
     = match Map_get pageNum m with
       | Some arr => length arr
       | None => counter Nat.eqb pageNum (byPage stats)
       end).
Proof.
  induction m as [| [k arr] m IH]; intros stats Hnd; cbv zeta.
  - cbn. split; [unfold countAll; cbn; lia |].
    split; [| reflexivity].
    intros key. symmetry. apply afterCounting_zero.
  - cbn [fold_left]. cbn [map fst] in Hnd.
    apply NoDup_cons in Hnd. destruct Hnd as [Hk Hnd].
    destruct (IH (countPage h stats (k, arr)) Hnd) as (H1 & H2 & H3).
    assert (G : total (countPage h stats (k, arr))
                = total stats + length arr /\
                byPage (countPage h stats (k, arr))
                = Obj_set Nat.eqb k (length arr) (byPage stats) /\
                forall key,
                  Obj_get String.eqb key
                    (byType (countPage h stats (k, arr)))
                  = afterCounting key (countOfType h key [(0, arr)])
                      (Obj_get String.eqb key (byType stats))).
    { exact (countType_fold h arr
               (mkStats (total stats + length arr) (byType stats)
                  (Obj_set Nat.eqb k (length arr) (byPage stats)))). }
    destruct G as (G1 & G2 & G3).
    rewrite G1 in H1. rewrite G2 in H3.
    split; [rewrite H1, countAll_cons; lia |].
    split.
    + intros key.
      rewrite H2, G3, afterCounting_add, (countOfType_cons h key k arr m).
      reflexivity.
    + intros pageNum. rewrite H3. cbn [Map_get].
      destruct (Nat.eqb k pageNum) eqn:E.
      * apply Nat.eqb_eq in E. subst pageNum.
        assert (Hnone : Map_get k m = None).
        { apply Map_get_None_keys. rewrite <- list_elem_of_In. exact Hk. }
        rewrite Hnone. unfold counter.
        rewrite (Obj_get_set_eq Nat.eqb Nat.eqb_eq). reflexivity.
      * apply Nat.eqb_neq in E. unfold counter.
        rewrite (Obj_get_set_ne Nat.eqb Nat.eqb_eq) by congruence.
        reflexivity.
Qed.

(** X18. On a page map with distinct keys, [getAnnotationStats] reports
    in [total] the number of records of the store and in [byPage], for
    every page, the length of its array.  In [byType] a type that is not
    the name of a property inherited from [Object.prototype] has the
    number of records of that type as its own property, and no property
    when there is none.  A type that is such a name ([constructor],
    [toString], ...) is not counted: as soon as a record has it, its own
    property holds a string; under [__proto__] nothing is stored. *)
Theorem getAnnotationStats_counts (s : State) :
  wfMap (annotations s) ->
  let stats := getAnnotationStats s in
  total stats = countAll (annotations s) /\
  (forall pageNum,
     counter Nat.eqb pageNum (byPage stats)
     = length (pageAnnotationsOf pageNum s)) /\
  (forall type,
     inherited type = false ->
     Obj_get String.eqb type (byType stats)
     = match countOfType (heap s) type (annotations s) with
       | O => None
       | S n => Some (Count (S n))
       end) /\
  (forall type,
     inherited type = true ->
     Obj_get String.eqb type (byType stats)
     = if String.eqb type "__proto__" then None
       else match countOfType (heap s) type (annotations s) with
            | O => None
            | S _ => Some Text
            end).
Proof.
  intros Hwf. cbv zeta. unfold getAnnotationStats.
  destruct (getAnnotationStats_fold (heap s) (annotations s)
              (mkStats 0 [] []) Hwf) as (H1 & H2 & H3).
  cbn [total byType byPage] in H1, H2, H3.
  split; [rewrite H1; lia |].
  split.
  { intros pageNum. rewrite H3. unfold pageAnnotationsOf.
    destruct (Map_get pageNum (annotations s)); reflexivity. }
  split.
  - intros type Hin. rewrite H2. unfold afterCounting. cbn [Obj_get].
    destruct (String.eqb type "__proto__") eqn:E.
    + apply String.eqb_eq in E. subst type. discriminate Hin.
    + rewrite Hin.
      destruct (countOfType (heap s) type (annotations s)); reflexivity.
  - intros type Hin. rewrite H2. unfold afterCounting. cbn [Obj_get].
    destruct (String.eqb type "__proto__"); [reflexivity |].
    rewrite Hin.
    destruct (countOfType (heap s) type (annotations s)); reflexivity.
Qed.

Lemma getAnnotationStats_counts_witness :
  Obj_get String.eqb "note"%string (byType (getAnnotationStats sketchStore))
  = Some (Count 1).
Proof.
  assert (Hwf : wfMap (annotations sketchStore)).
  { apply NoDup_singleton. }
  exact (proj1 (proj2 (proj2 (getAnnotationStats_counts sketchStore Hwf)))
           "note"%string eq_refl).
Defined.

Lemma keyedRecords_cons (k : nat) (arr : list loc) (m : AnnotationMap) :
  keyedRecords ((k, arr) :: m)
  = map (fun r => (k, r)) arr ++ keyedRecords m.
Proof. reflexivity. Qed.

Lemma keyedRecords_refs (m : AnnotationMap) :
  map snd (keyedRecords m) = allRecords m.
Proof.
  induction m as [| [k arr] m IH]; [reflexivity |].
  rewrite keyedRecords_cons, allRecords_cons, map_app, IH. f_equal.
  rewrite map_map. cbn [snd]. apply map_id.
Qed.

Lemma keyedRecords_In (m : AnnotationMap) (k : nat) (r : loc) :
  In (k, r) (keyedRecords m) <-> exists arr, In (k, arr) m /\ In r arr.
Proof.
  unfold keyedRecords. rewrite in_flat_map. split.
  - intros ([k0 arr] & Hin & Hr). cbn [fst snd] in Hr.
    apply in_map_iff in Hr. destruct Hr as (r0 & Heq & Hr0).
    injection Heq as <- <-. exists arr. split; assumption.
  - intros (arr & Hin & Hr). exists (k, arr). split; [exact Hin |].
    cbn [fst snd]. apply in_map_iff. exists r. split; [reflexivity | exact Hr].
Qed.

(** The export of one page. *)
Lemma exportAnnotations_page (h : Heap) (k : nat) (arr : list loc) :
  (forall r, In r arr -> r < length h) ->
  Forall2 (fun exported kr =>
             exists a, h !! snd kr = Some a /\
                       exported = withPage (fst kr) a)
    (flat_map (fun annotation =>
                 match h !! annotation with
                 | Some a => [withPage k a]
                 | None => []
                 end) arr)
    (map (fun r => (k, r)) arr).
Proof.
  induction arr as [| r arr IH]; intros Hv; [constructor |].
  cbn [flat_map map].
  assert (Hlt : r < length h) by (apply Hv; left; reflexivity).
  apply lookup_lt_is_Some_2 in Hlt. destruct Hlt as [a Ha].
  rewrite Ha. cbn [app]. constructor.
  - exists a. split; [exact Ha | reflexivity].
  - apply IH. intros r' Hr'. apply Hv. right. exact Hr'.
Qed.

Lemma exportAnnotations_keyed (h : Heap) (m : AnnotationMap) :
  (forall r, In r (allRecords m) -> r < length h) ->
  Forall2 (fun exported kr =>
             exists a, h !! snd kr = Some a /\
                       exported = withPage (fst kr) a)
    (flat_map
       (fun entry =>
          flat_map (fun annotation =>
                      match h !! annotation with
                      | Some a => [withPage (fst entry) a]
                      | None => []
                      end)
                   (snd entry)) m)
    (keyedRecords m).
Proof.
  induction m as [| [k arr] m IH]; intros Hv; [constructor |].
  rewrite keyedRecords_cons. cbn [flat_map fst snd].
  rewrite allRecords_cons in Hv.
  apply Forall2_app.
  - apply exportAnnotations_page. intros r Hr. apply Hv.
    apply in_or_app. left. exact Hr.
  - apply IH. intros r Hr. apply Hv. apply in_or_app. right. exact Hr.
Qed.

Lemma storedRecords_keyed (h : Heap) (l : list (nat * loc)) :
  (forall kr, In kr l -> snd kr < length h) ->
  Forall2 (fun a kr => h !! snd kr = Some a)
    (flat_map (fun r => match h !! r with Some a => [a] | None => [] end)
              (map snd l))
    l.
Proof.
  induction l as [| [k r] l IH]; intros Hv; [constructor |].
  cbn [map snd flat_map].
  assert (Hlt : r < length h) by (apply (Hv (k, r)); left; reflexivity).
  apply lookup_lt_is_Some_2 in Hlt. destruct Hlt as [a Ha].
  rewrite Ha. cbn [app]. constructor; [exact Ha |].
  apply IH. intros kr Hkr. apply Hv. right. exact Hkr.
Qed.

(** X19. When no reference dangles, the array written by
    [exportAnnotations] lists the records of the store page after page in
    stored order: its i-th object is the i-th stored record with [page]
    overwritten by the number of the page key that record is stored
    under, so there are as many exported objects as records.  When the
    [page] field of every stored record already is that number, the
    exported objects are the stored records themselves. *)
Theorem exportAnnotations_lists_store (s : State) :
  refsValid s ->
  Forall2 (fun exported kr =>
             exists a, heap s !! snd kr = Some a /\
                       exported = withPage (fst kr) a)
          (exportAnnotations s) (keyedRecords (annotations s)) /\
  map snd (keyedRecords (annotations s)) = allRecords (annotations s) /\
  (forall k r,
     In (k, r) (keyedRecords (annotations s)) <->
     exists arr, In (k, arr) (annotations s) /\ In r arr) /\
  length (exportAnnotations s) = countAll (annotations s) /\
  (pagesAgree s -> exportAnnotations s = storedRecords s).
Proof.
  intros Hrefs.
  pose proof (exportAnnotations_keyed (heap s) (annotations s) Hrefs) as Hexp.
  fold (exportAnnotations s) in Hexp.
  split; [exact Hexp |].
  split; [apply keyedRecords_refs |].
  split; [intros k r; apply keyedRecords_In |].
  split.
  - rewrite (Forall2_length _ _ _ Hexp). unfold countAll.
    rewrite <- keyedRecords_refs. symmetry. apply length_map.
  - intros Hagree. unfold storedRecords.
    rewrite <- keyedRecords_refs.
    assert (Hst := storedRecords_keyed (heap s) (keyedRecords (annotations s))).
    unfold pagesAgree in Hagree. unfold refsValid in Hrefs.
    rewrite <- keyedRecords_refs in Hrefs.
    assert (Hv : forall kr, In kr (keyedRecords (annotations s)) ->
                            snd kr < length (heap s)).
    { intros kr Hkr. apply Hrefs. apply in_map. exact Hkr. }
    specialize (Hst Hv).
    revert Hexp Hst Hagree.
    generalize (exportAnnotations s) as exported.
    generalize (flat_map
                  (fun r => match heap s !! r with
                            | Some a => [a]
                            | None => []
                            end)
                  (map snd (keyedRecords (annotations s)))) as stored.
    generalize (keyedRecords (annotations s)) as keyed.
    intros keyed. induction keyed as [| [k r] keyed IH];
      intros stored exported Hexp Hst Hagree.
    + apply Forall2_nil_inv_r in Hexp. apply Forall2_nil_inv_r in Hst.
      congruence.
    + apply Forall2_cons_inv_r in Hexp.
      destruct Hexp as (e & exported' & (a & Ha & He) & Hexp & ->).
      apply Forall2_cons_inv_r in Hst.
      destruct Hst as (a' & stored' & Ha' & Hst & ->).
      cbn [fst snd] in *.
      assert (a' = a) by congruence. subst a'.
      f_equal.
      * rewrite He. rewrite <- (Hagree k r a (or_introl eq_refl) Ha).
        destruct a; reflexivity.
      * apply IH; [exact Hexp | exact Hst |].
        intros k0 r0 a0 Hin. apply Hagree. right. exact Hin.
Qed.

Lemma exportAnnotations_lists_store_witness :
  exportAnnotations sketchStore = storedRecords sketchStore.
Proof.
  assert (Hrefs : refsValid sketchStore).
  { intros r [<- | [<- | []]]; cbn; lia. }
  refine (proj2 (proj2 (proj2 (proj2
            (exportAnnotations_lists_store sketchStore Hrefs)))) _).
  intros k r a [Heq | [Heq | []]] Ha; injection Heq as <- <-;
    cbn in Ha; injection Ha as <-; reflexivity.
Defined.

End ReportingFacts.

(** ** The loading overlay *)

Section LoadingFacts.
Import InteractiveLoadingManager.
Open Scope R_scope.

Lemma updateStepByProgress_cases (percent : R) (currentStep : nat) :
  (0 <= percent <= 35 -> updateStepByProgress percent currentStep = 0%nat) /\
  (35 < percent <= 80 -> updateStepByProgress percent currentStep = 1%nat) /\
  (80 < percent <= 100 -> updateStepByProgress percent currentStep = 2%nat) /\
  (percent < 0 \/ 100 < percent ->
   updateStepByProgress percent currentStep = currentStep).
Proof.
  unfold updateStepByProgress, steps.
  cbn [List.find]. unfold covers. cbn [progressRange fst snd].
  repeat split; intros H;
    repeat (case_bool_decide; try (exfalso; lra));
    destruct currentStep as [| [| [| n]]]; reflexivity.
Qed.

(** X20. [updateStepByProgress] selects the step by the first range that
    contains the value: 0 to 35 is step 0, above 35 to 80 step 1, above
    80 to 100 step 2, so the shared bounds 35 and 80 belong to the
    earlier step.  A value outside 0 to 100 leaves the current step as it
    is.  Within 0 to 100 the selected step does not depend on the current
    one and never decreases when the value grows. *)
Theorem updateStepByProgress_by_range (percent : R) (currentStep : nat) :
  (0 <= percent <= 35 -> updateStepByProgress percent currentStep = 0%nat) /\
  (35 < percent <= 80 -> updateStepByProgress percent currentStep = 1%nat) /\
  (80 < percent <= 100 -> updateStepByProgress percent currentStep = 2%nat) /\
  (percent < 0 \/ 100 < percent ->
   updateStepByProgress percent currentStep = currentStep) /\
  (forall later otherStep,
     0 <= percent -> percent <= later -> later <= 100 ->
     (updateStepByProgress percent currentStep
      <= updateStepByProgress later otherStep)%nat).
Proof.
  destruct (updateStepByProgress_cases percent currentStep)
    as (H0 & H1 & H2 & H3).
  split; [exact H0 |]. split; [exact H1 |]. split; [exact H2 |].
  split; [exact H3 |].
  intros later otherStep Hlo Hle Hhi.
  destruct (updateStepByProgress_cases later otherStep)
    as (L0 & L1 & L2 & _).
  destruct (Rle_dec percent 35) as [Hp | Hp].
  - rewrite H0 by lra. lia.
  - destruct (Rle_dec percent 80) as [Hq | Hq].
    + rewrite H1 by lra.
      destruct (Rle_dec later 80) as [Hr | Hr].
      * rewrite L1 by lra. lia.
      * rewrite L2 by lra. lia.
    + rewrite H2 by lra. rewrite L2 by lra. lia.
Qed.

End LoadingFacts.

(** ** Deletion: unknown identifiers and the re-render *)

Section DeletionExtras.
Open Scope js_scope.

Lemma deleteFromPage_exact (env : Env) (annotationId : string) (k : nat)
    (s : State) (i : nat) :
  findIndex (hasId (heap s) annotationId) (pageAnnotationsOf k s) = Some i ->
  deleteFromPage env annotationId k s
  = (if Nat.eqb k (currentPage env) then
       if annotationCanvas env then
         match delete i (pageAnnotationsOf k s) with
         | [] => Normal tt
         | _ :: _ => Thrown "TypeError"
         end
       else Normal tt
     else Normal tt,
     set_annotations
       (Map_set k (delete i (pageAnnotationsOf k s)) (annotations s)) s).
Proof.
  unfold deleteFromPage, bind, get. intros Hfind. rewrite Hfind.
  unfold modify.
  destruct (Nat.eqb k (currentPage env)); [| reflexivity].
  destruct (annotationCanvas env); [| reflexivity].
  rewrite renderAnnotations_null. f_equal.
  unfold pageAnnotationsOf at 1. cbn [annotations set_annotations].
  destruct (Map_get k (annotations s)) as [arr |] eqn:Hget.
  - destruct (Map_get_split k arr (annotations s) Hget)
      as (done & rest & Hm & Hk).
    rewrite Hm, Map_set_middle, Map_get_middle by exact Hk. reflexivity.
  - rewrite Map_set_absent by exact Hget.
    assert (Happ : forall m, Map_get k m = None ->
              Map_get k (m ++ [(k, delete i (pageAnnotationsOf k s))])
              = Some (delete i (pageAnnotationsOf k s))).
    { intros m. induction m as [| [k0 v0] m IH]; cbn.
      - rewrite Nat.eqb_refl. reflexivity.
      - destruct (Nat.eqb k0 k); [discriminate | exact IH]. }
    rewrite Happ by exact Hget. reflexivity.
Qed.

Lemma not_in_rest (k : nat) (arr : list loc) (done rest : AnnotationMap) :
  NoDup (map fst (done ++ (k, arr) :: rest)) -> Map_get k rest = None.
Proof.
  rewrite map_app. intros H. apply NoDup_app in H.
  destruct H as (_ & _ & H). cbn [map fst] in H.
  apply NoDup_cons in H. destruct H as [H _].
  apply Map_get_None_keys. rewrite <- list_elem_of_In. exact H.
Qed.

(** The loop of [deleteAnnotation] raises exactly when it removes a
    record from the displayed page and leaves that page non-empty. *)
Lemma deleteAnnotation_forEach_outcome (env : Env) (annotationId : string) :
  forall (todo done : AnnotationMap) (s : State),
  annotations s = done ++ todo ->
  NoDup (map fst (done ++ todo)) ->
  let result := forEach (deleteFromPage env annotationId) (map fst todo) s in
  (exists arr i,
     annotationCanvas env = true /\
     Map_get (currentPage env) todo = Some arr /\
     findIndex (hasId (heap s) annotationId) arr = Some i /\
     2 <= length arr /\
     fst result = Thrown "TypeError" /\
     pageAnnotationsOf (currentPage env) (snd result) = delete i arr) \/
  (~ (annotationCanvas env = true /\
      exists arr i,
        Map_get (currentPage env) todo = Some arr /\
        findIndex (hasId (heap s) annotationId) arr = Some i /\
        2 <= length arr) /\
   fst result = Normal tt).
Proof.
  induction todo as [| [k arr] rest IH]; intros done s Hm Hnd result;
    subst result.
  - right. split; [| reflexivity].
    intros (_ & arr & i & H & _). discriminate H.
  - pose proof (not_in_done k arr done rest Hnd) as Hk.
    pose proof (not_in_rest k arr done rest Hnd) as Hrest.
    assert (Harr : pageAnnotationsOf k s = arr).
    { unfold pageAnnotationsOf. rewrite Hm, Map_get_middle by exact Hk.
      reflexivity. }
    change (map fst ((k, arr) :: rest)) with (k :: map fst rest).
    rewrite forEach_cons_run. cbn [Map_get].
    destruct (findIndex (hasId (heap s) annotationId) arr) as [i |] eqn:Hfind.
    + destruct (findIndex_Some _ _ _ Hfind) as [Hlen _].
      rewrite <- Harr in Hfind.
      rewrite (deleteFromPage_exact env annotationId k s i Hfind).
      rewrite Harr in Hfind |- *. rewrite Hm, Map_set_middle by exact Hk.
      set (s1 := set_annotations (done ++ (k, delete i arr) :: rest) s).
      assert (Hm1 : annotations s1 = (done ++ [(k, delete i arr)]) ++ rest).
      { unfold s1. cbn [annotations set_annotations].
        rewrite <- app_assoc. reflexivity. }
      assert (Hnd1 : NoDup (map fst ((done ++ [(k, delete i arr)]) ++ rest))).
      { rewrite <- app_assoc. cbn [app].
        rewrite map_app in Hnd |- *. exact Hnd. }
      specialize (IH (done ++ [(k, delete i arr)]) s1 Hm1 Hnd1).
      cbv zeta in IH. change (heap s1) with (heap s) in IH.
      destruct (Nat.eqb k (currentPage env)) eqn:E.
      * apply Nat.eqb_eq in E. subst k.
        destruct (annotationCanvas env) eqn:Hc.
        -- destruct (delete i arr) as [| r0 arr0] eqn:Hd.
           ++ right. destruct IH as [(a0 & i0 & _ & H & _) | [_ IH]];
                [congruence |].
              split; [| exact IH].
              intros (_ & a0 & i0 & H & _ & Hl). injection H as <-.
              cbn [length] in Hlen. lia.
           ++ left. exists arr, i. cbn [fst snd].
              split; [reflexivity |]. split; [reflexivity |].
              split; [exact Hfind |].
              split; [cbn [length] in Hlen; lia |].
              split; [reflexivity |].
              unfold pageAnnotationsOf, s1.
              cbn [annotations set_annotations].
              rewrite Map_get_middle by exact Hk. symmetry. exact Hd.
        -- right. destruct IH as [(a0 & i0 & H & _) | [_ IH]];
             [discriminate |].
           split; [| exact IH]. intros [H _]. discriminate.
      * destruct IH as [(a0 & i0 & H1 & H2 & H3 & H4 & H5 & H6) | [Hn IH]].
        -- left. exists a0, i0. repeat (split; [assumption |]). exact H6.
        -- right. split; [| exact IH].
           intros (H1 & a0 & i0 & H2). apply Hn. split; [exact H1 |].
           exists a0, i0. exact H2.
    + rewrite <- Harr in Hfind.
      rewrite (deleteFromPage_missing env annotationId k s Hfind).
      rewrite Harr in Hfind.
      assert (Hm1 : annotations s = (done ++ [(k, arr)]) ++ rest).
      { rewrite <- app_assoc. exact Hm. }
      assert (Hnd1 : NoDup (map fst ((done ++ [(k, arr)]) ++ rest))).
      { rewrite <- app_assoc. exact Hnd. }
      specialize (IH (done ++ [(k, arr)]) s Hm1 Hnd1). cbv zeta in IH.
      destruct (Nat.eqb k (currentPage env)) eqn:E.
      * apply Nat.eqb_eq in E. subst k. right.
        destruct IH as [(a0 & i0 & _ & H & _) | [_ IH]]; [congruence |].
        split; [| exact IH].
        intros (_ & a0 & i0 & H & Hf & _). injection H as <-. congruence.
      * destruct IH as [(a0 & i0 & H1 & H2 & H3 & H4 & H5 & H6) | [Hn IH]].
        -- left. exists a0, i0. repeat (split; [assumption |]). exact H6.
        -- right. split; [| exact IH].
           intros (H1 & a0 & i0 & H2). apply Hn. split; [exact H1 |].
           exists a0, i0. exact H2.
Qed.

(** X21. Deleting an identifier that no record of the store carries
    completes, returns [undefined], leaves the records and the page map
    untouched, and still announces "Annotation deleted". *)
Theorem deleteAnnotation_unknown_id (env : Env) (annotationId : string)
    (s : State) :
  wfMap (annotations s) ->
  countId (heap s) annotationId (annotations s) = 0 ->
  deleteAnnotation env annotationId s
  = (Normal JsUndefined,
     add_notification ("Annotation deleted", "success")%string s).
Proof.
  intros Hwf Hzero. rewrite deleteAnnotation_run.
  destruct (deleteAnnotation_forEach_run env annotationId (annotations s) []
              s eq_refl Hwf) as (todo' & H1 & _ & _ & _ & H4 & H5).
  cbn [app] in H1. specialize (H5 Hzero).
  rewrite H4 in H1 by lia. rewrite removeFrom_none in H1 by exact Hzero.
  rewrite set_annotations_same in H1.
  destruct (forEach (deleteFromPage env annotationId)
                    (map fst (annotations s)) s) as [[[] | e] s1];
    cbn [fst snd] in *; [subst s1; reflexivity | discriminate].
Qed.

Lemma deleteAnnotation_unknown_id_witness :
  deleteAnnotation sampleEnv "missing" overlapStore
  = (Normal JsUndefined,
     add_notification ("Annotation deleted", "success")%string overlapStore).
Proof.
  apply deleteAnnotation_unknown_id; [apply NoDup_singleton | reflexivity].
Defined.

(** When [deleteAnnotation] raises and when it completes. *)
Lemma deleteAnnotation_outcome (env : Env) (annotationId : string)
    (s : State) :
  wfMap (annotations s) ->
  let result := deleteAnnotation env annotationId s in
  let shown := pageAnnotationsOf (currentPage env) s in
  let found := findIndex (hasId (heap s) annotationId) shown in
  (annotationCanvas env = true /\ found <> None /\ 2 <= length shown ->
   fst result = Thrown "TypeError" /\
   pageAnnotationsOf (currentPage env) (snd result)
     = withoutFirst (heap s) annotationId shown /\
   notifications (snd result) = notifications s) /\
  (~ (annotationCanvas env = true /\ found <> None /\ 2 <= length shown) ->
   fst result = Normal JsUndefined /\
   notifications (snd result)
     = notifications s ++ [("Annotation deleted", "success")%string]).
Proof.
  intros Hwf result shown found. subst result shown found.
  rewrite deleteAnnotation_run.
  destruct (deleteAnnotation_forEach_run env annotationId (annotations s) []
              s eq_refl Hwf) as (todo' & H1 & _).
  destruct (deleteAnnotation_forEach_outcome env annotationId (annotations s)
              [] s eq_refl Hwf)
    as [(arr & i & Hc & Hget & Hfind & Hlen & Hthrown & Hpage) | [Hn Hnormal]].
  - assert (Hshown : pageAnnotationsOf (currentPage env) s = arr).
    { unfold pageAnnotationsOf. rewrite Hget. reflexivity. }
    rewrite Hshown.
    destruct (forEach (deleteFromPage env annotationId)
                      (map fst (annotations s)) s) as [[[] | e] s1];
      cbn [fst snd] in *; [discriminate |].
    split.
    + intros _. injection Hthrown as ->. split; [reflexivity |]. split.
      * rewrite Hpage. unfold withoutFirst. rewrite Hfind. reflexivity.
      * subst s1. reflexivity.
    + intros Hnot. exfalso. apply Hnot. split; [exact Hc |].
      split; [congruence | exact Hlen].
  - destruct (forEach (deleteFromPage env annotationId)
                      (map fst (annotations s)) s) as [[[] | e] s1];
      cbn [fst snd] in *; [| discriminate].
    split.
    + intros (Hc & Hfound & Hlen). exfalso. apply Hn. split; [exact Hc |].
      unfold pageAnnotationsOf in Hfound, Hlen.
      destruct (Map_get (currentPage env) (annotations s)) as [arr |];
        [| cbn in Hlen; lia].
      destruct (findIndex (hasId (heap s) annotationId) arr) as [i |] eqn:E;
        [| congruence].
      exists arr, i. repeat split; assumption.
    + intros _. split; [reflexivity |]. subst s1. reflexivity.
Qed.

(** X22. On a page map with distinct keys, [deleteAnnotation] raises a
    [TypeError] exactly when an annotation canvas exists, the displayed
    page holds a record with the identifier, and that page holds at least
    two records: the record has then been removed from the displayed
    page, but no notification is shown.  In every other case the call
    completes, returns [undefined] and shows "Annotation deleted". *)
Theorem deleteAnnotation_raises_iff (env : Env) (annotationId : string)
    (s : State) :
  wfMap (annotations s) ->
  let result := deleteAnnotation env annotationId s in
  let shown := pageAnnotationsOf (currentPage env) s in
  let found := findIndex (hasId (heap s) annotationId) shown in
  (annotationCanvas env = true /\ found <> None /\ 2 <= length shown ->
   fst result = Thrown "TypeError" /\
   pageAnnotationsOf (currentPage env) (snd result)
     = withoutFirst (heap s) annotationId shown /\
   notifications (snd result) = notifications s) /\
  (~ (annotationCanvas env = true /\ found <> None /\ 2 <= length shown) ->
   fst result = Normal JsUndefined /\
   notifications (snd result)
     = notifications s ++ [("Annotation deleted", "success")%string]).
Proof. exact (deleteAnnotation_outcome env annotationId s). Qed.

Lemma deleteAnnotation_raises_iff_witness :
  fst (deleteAnnotation sampleEnv "a1" overlapStore) = Thrown "TypeError".
Proof.
  assert (Hwf : wfMap (annotations overlapStore)).
  { apply NoDup_singleton. }
  refine (proj1 (proj1 (deleteAnnotation_raises_iff
                          sampleEnv "a1" overlapStore Hwf) _)).
  split; [reflexivity |]. split; [discriminate |]. cbn. lia.
Defined.

End DeletionExtras.

(** ** The eraser *)

Section EraserExtras.
Open Scope js_scope.

Lemma hasId_refines (h h' : Heap) (annotationId : string) (r : loc) :
  heapRefines h h' -> hasId h' annotationId r = hasId h annotationId r.
Proof.
  intros [Hlen Href]. unfold hasId.
  destruct (h !! r) as [a |] eqn:Hr.
  - destruct (Href r a Hr) as (a' & -> & Hid & _). rewrite Hid. reflexivity.
  - apply lookup_ge_None in Hr. rewrite <- Hlen in Hr.
    apply lookup_ge_None in Hr. rewrite Hr. reflexivity.
Qed.

Lemma findIndex_ext {A} (f g : A -> bool) (l : list A) :
  (forall a, f a = g a) -> findIndex f l = findIndex g l.
Proof.
  intros H. induction l as [| a l IH]; [reflexivity |].
  cbn. rewrite H, IH. reflexivity.
Qed.

Lemma removeFrom_refines (h h' : Heap) (annotationId : string)
    (m : AnnotationMap) :
  heapRefines h h' ->
  removeFrom h' annotationId m = removeFrom h annotationId m /\
  countId h' annotationId m = countId h annotationId m.
Proof.
  intros Href. split.
  - unfold removeFrom, withoutFirst. apply map_ext. intros [k arr].
    cbn [fst snd].
    rewrite (findIndex_ext (hasId h' annotationId) (hasId h annotationId))
      by (intros r; apply hasId_refines; exact Href).
    reflexivity.
  - unfold countId, countIn. f_equal. apply List.filter_ext.
    intros r. apply hasId_refines. exact Href.
Qed.

Lemma findIndex_In {A} (f : A -> bool) (l : list A) (a : A) :
  In a l -> f a = true -> findIndex f l <> None.
Proof.
  intros Hin Ha. induction l as [| b l IH]; [destruct Hin |].
  cbn. destruct (f b) eqn:Hb; [discriminate |].
  destruct Hin as [-> | Hin]; [congruence |].
  destruct (findIndex f l); [discriminate | exact (IH Hin)].
Qed.

Lemma topmostHit_In (h : Heap) (x y : R) (v : Viewport) (arr : list loc)
    (r : loc) :
  topmostHit h x y v arr = Some r -> In r arr /\ hitsAt h x y v r = true.
Proof.
  unfold topmostHit. intros H. apply List.find_some in H.
  destruct H as [Hin Hhit]. split; [| exact Hhit].
  apply in_rev. exact Hin.
Qed.

Lemma mousedown_eraser_run (env : Env) (v : Viewport) (p : Point)
    (s : State) :
  currentTool s = "eraser"%string ->
  mousedown env v p s
  = match getAnnotationAtPoint (currentPage env) (pt_x p) (pt_y p) v s with
    | (Normal (Some a), s1) =>
        match heap s1 !! a with
        | Some o =>
            match deleteAnnotation env (Annotation.id o) s1 with
            | (Normal _, s2) =>
                match renderAnnotations (currentPage env) (Some v) s2 with
                | (Normal _, s3) =>
                    showNotification
                      (Annotation.type o ++ " annotation erased") "success" s3
                | (Thrown e, s3) => (Thrown e, s3)
                end
            | (Thrown e, s2) => (Thrown e, s2)
            end
        | None => (Normal tt, s1)
        end
    | (Normal None, s1) =>
        showNotification "No annotation found at this location" "info" s1
    | (Thrown e, s1) => (Thrown e, s1)
    end.
Proof.
  intros Ht. unfold mousedown, bind at 1, get, isTool.
  rewrite Ht. cbn [String.eqb Ascii.eqb Bool.eqb].
  unfold bind at 1.
  destruct (getAnnotationAtPoint (currentPage env) (pt_x p) (pt_y p) v s)
    as [[[a |] | e] s1]; [| reflexivity | reflexivity].
  unfold bind at 1, get.
  destruct (heap s1 !! a) as [o |]; [| reflexivity].
  unfold bind at 1.
  destruct (deleteAnnotation env (Annotation.id o) s1) as [[u | e] s2];
    [| reflexivity].
  unfold bind.
  destruct (renderAnnotations (currentPage env) (Some v) s2)
    as [[u' | e] s3]; reflexivity.
Qed.

(** X23. A press of the eraser where no record of the displayed page is
    hit removes nothing: the handler completes, the page map is as
    before, the records are the same objects (at most migrated), and the
    user is told that nothing was found. *)
Theorem eraser_press_misses (env : Env) (v : Viewport) (x y : R)
    (s : State) :
  currentTool s = "eraser"%string ->
  NoDup (pageAnnotationsOf (currentPage env) s) ->
  topmostHit (heap s) x y v (pageAnnotationsOf (currentPage env) s) = None ->
  let result := mousedown env v (mkPoint x y) s in
  fst result = Normal tt /\
  annotations (snd result) = annotations s /\
  heapRefines (heap s) (heap (snd result)) /\
  notifications (snd result)
    = notifications s
      ++ [("No annotation found at this location", "info")%string].
Proof.
  intros Ht Hnd Hnone. cbv zeta.
  rewrite (mousedown_eraser_run env v (mkPoint x y) s Ht). cbn [pt_x pt_y].
  pose proof (getAnnotationAtPoint_run s (currentPage env) x y v Hnd) as Hrun.
  destruct (getAnnotationAtPoint_frame s (currentPage env) x y v)
    as [Hf Href].
  rewrite Hnone in Hrun.
  destruct (getAnnotationAtPoint (currentPage env) x y v s) as [c s1].
  cbn [fst snd] in Hrun, Hf, Href. subst c.
  unfold showNotification, modify. cbn [fst snd].
  split; [reflexivity |].
  split; [exact (f_equal annotations Hf) |].
  split; [exact Href |].
  change (notifications (add_notification
            ("No annotation found at this location", "info")%string s1))
    with (notifications s1
          ++ [("No annotation found at this location", "info")%string]).
  f_equal. exact (f_equal notifications Hf).
Qed.

Lemma eraser_press_misses_witness :
  fst (mousedown sampleEnv sampleViewport (mkPoint 50 50)
         (snd (setTool "eraser" overlapStore)))
  = Normal tt /\
  annotations
    (snd (mousedown sampleEnv sampleViewport (mkPoint 50 50)
            (snd (setTool "eraser" overlapStore))))
  = annotations overlapStore /\
  notifications
    (snd (mousedown sampleEnv sampleViewport (mkPoint 50 50)
            (snd (setTool "eraser" overlapStore))))
  = [("No annotation found at this location", "info")%string].
Proof.
  assert (Hnd : NoDup (pageAnnotationsOf (currentPage sampleEnv)
                         (snd (setTool "eraser" overlapStore)))).
  { apply NoDup_cons.
    split; [intros H; inversion H; subst; inversion H2 |].
    apply NoDup_cons. split; [intros H; inversion H |]. apply NoDup_nil_2. }
  assert (Hmiss : forall a : Annotation.t,
            a = highlightA \/ a = highlightB ->
            hitTest (afterMigration a (Some sampleViewport)) 50 50
                    sampleViewport = false).
  { intros a Ha.
    assert (Hn : areCoordinatesNormalized a (Some sampleViewport) = true).
    { apply areCoordinatesNormalized_true.
      destruct Ha as [-> | ->]; cbn;
        repeat split; apply Rabs_le_iff; lra. }
    rewrite (afterMigration_normalized a sampleViewport Hn).
    destruct (hitTest a 50 50 sampleViewport) eqn:E; [| reflexivity].
    exfalso.
    assert (Hbox : isBoxType (Annotation.type a) = true)
      by (destruct Ha as [-> | ->]; reflexivity).
    apply (hitTest_box a 50 50 sampleViewport Hbox) in E.
    revert E. destruct Ha as [-> | ->];
      unfold inDeviceBox; cbn; unfold Rmin, Rmax;
      repeat match goal with
             | |- context [Rle_dec ?x ?y] => destruct (Rle_dec x y)
             end; lra. }
  assert (Hnone : topmostHit (heap (snd (setTool "eraser" overlapStore)))
                    50 50 sampleViewport
                    (pageAnnotationsOf (currentPage sampleEnv)
                       (snd (setTool "eraser" overlapStore)))
                  = None).
  { unfold topmostHit. apply find_none_all.
    intros r [<- | [<- | []]]; unfold hitsAt.
    - change (heap (snd (setTool "eraser" overlapStore)) !! 1%nat)
        with (Some highlightB).
      cbv beta iota. apply Hmiss. right. reflexivity.
    - change (heap (snd (setTool "eraser" overlapStore)) !! 0%nat)
        with (Some highlightA).
      cbv beta iota. apply Hmiss. left. reflexivity. }
  destruct (eraser_press_misses sampleEnv sampleViewport 50 50
              (snd (setTool "eraser" overlapStore)) eq_refl Hnd Hnone)
    as (H1 & H2 & _ & H4).
  split; [exact H1 |]. split; [exact H2 | exact H4].
Defined.

(** X24. A press of the eraser on a record whose identifier no other
    record carries removes that record and nothing else from the page
    map.  When an annotation canvas exists and the displayed page held at
    least two records, the handler then raises a [TypeError] out of
    [deleteAnnotation] and no notification is shown; otherwise it
    completes and shows "Annotation deleted" followed by the erased
    type. *)
Theorem eraser_press_removes_hit (env : Env) (v : Viewport) (x y : R)
    (s : State) (r : loc) (o : Annotation.t) :
  storeInvariant s ->
  currentTool s = "eraser"%string ->
  topmostHit (heap s) x y v (pageAnnotationsOf (currentPage env) s)
    = Some r ->
  heap s !! r = Some o ->
  countId (heap s) (Annotation.id o) (annotations s) = 1 ->
  let result := mousedown env v (mkPoint x y) s in
  let shown := pageAnnotationsOf (currentPage env) s in
  annotations (snd result)
    = removeFrom (heap s) (Annotation.id o) (annotations s) /\
  countAll (annotations (snd result)) + 1 = countAll (annotations s) /\
  countId (heap (snd result)) (Annotation.id o) (annotations (snd result))
    = 0 /\
  heapRefines (heap s) (heap (snd result)) /\
  (annotationCanvas env = true /\ 2 <= length shown ->
   fst result = Thrown "TypeError" /\
   notifications (snd result) = notifications s) /\
  (~ (annotationCanvas env = true /\ 2 <= length shown) ->
   fst result = Normal tt /\
   notifications (snd result)
     = notifications s
       ++ [("Annotation deleted", "success")%string;
           ((Annotation.type o ++ " annotation erased")%string,
            "success"%string)]).
Proof.
  intros Hinv Ht Hhit Ho Hone. cbv zeta.
  rewrite (mousedown_eraser_run env v (mkPoint x y) s Ht). cbn [pt_x pt_y].
  pose proof (getAnnotationAtPoint_run s (currentPage env) x y v
                (storeInvariant_page_NoDup s (currentPage env) Hinv)) as Hrun.
  destruct (getAnnotationAtPoint_frame s (currentPage env) x y v)
    as [Hf Href].
  rewrite Hhit in Hrun.
  destruct (getAnnotationAtPoint (currentPage env) x y v s) as [c s1].
  cbn [fst snd] in Hrun, Hf, Href. subst c.
  assert (Hann : annotations s1 = annotations s)
    by exact (f_equal annotations Hf).
  assert (Hnot : notifications s1 = notifications s)
    by exact (f_equal notifications Hf).
  assert (Hshown : pageAnnotationsOf (currentPage env) s1
                   = pageAnnotationsOf (currentPage env) s).
  { unfold pageAnnotationsOf. rewrite Hann. reflexivity. }
  destruct (proj2 Href r o Ho) as (o' & Ho' & Hid & Hty & _).
  rewrite Ho', Hid, Hty.
  destruct (removeFrom_refines (heap s) (heap s1) (Annotation.id o)
              (annotations s) Href) as [Hrem Hcount].
  assert (Hwf1 : wfMap (annotations s1)).
  { rewrite Hann. exact (proj1 Hinv). }
  destruct (deleteAnnotation_state env (Annotation.id o) s1 Hwf1)
    as (_ & Hheap2 & _ & _ & Hu & _).
  rewrite Hann, Hcount, Hrem in Hu. specialize (Hu ltac:(lia)).
  destruct (deleteAnnotation_outcome env (Annotation.id o) s1 Hwf1)
    as [Hraise Hcomplete].
  cbv zeta in Hraise, Hcomplete. rewrite Hshown in Hraise, Hcomplete.
  destruct (topmostHit_In _ _ _ _ _ _ Hhit) as [Hin _].
  assert (Hfound : findIndex (hasId (heap s1) (Annotation.id o))
                     (pageAnnotationsOf (currentPage env) s) <> None).
  { apply (findIndex_In _ _ r Hin). unfold hasId. rewrite Ho', Hid.
    apply String.eqb_refl. }
  destruct (removeFrom_counts (heap s) (Annotation.id o) (annotations s))
    as [Hall Hgone]; [lia |].
  assert (Hstate :
    forall s2, annotations s2
               = removeFrom (heap s) (Annotation.id o) (annotations s) ->
    heapRefines (heap s) (heap s2) ->
    annotations s2 = removeFrom (heap s) (Annotation.id o) (annotations s) /\
    countAll (annotations s2) + 1 = countAll (annotations s) /\
    countId (heap s2) (Annotation.id o) (annotations s2) = 0 /\
    heapRefines (heap s) (heap s2)).
  { intros s2 Ha Hr. split; [exact Ha |].
    split; [rewrite Ha; lia |]. split; [| exact Hr].
    rewrite (proj2 (removeFrom_refines (heap s) (heap s2) (Annotation.id o)
                      (annotations s2) Hr)).
    rewrite Ha. exact Hgone. }
  destruct (deleteAnnotation env (Annotation.id o) s1) as [[u | e] s2];
    cbn [fst snd] in *.
  - (* the deletion completed *)
    assert (Hnormal : ~ (annotationCanvas env = true /\
                         findIndex (hasId (heap s1) (Annotation.id o))
                           (pageAnnotationsOf (currentPage env) s) <> None /\
                         2 <= length (pageAnnotationsOf (currentPage env) s))).
    { intros H. destruct (Hraise H) as [H1 _]. discriminate H1. }
    destruct (Hcomplete Hnormal) as [_ Hn2].
    rewrite renderAnnotations_run.
    unfold showNotification, modify. cbn [fst snd].
    cbn [annotations heap add_notification set_heap notifications].
    destruct (Hstate s2 Hu) as (S1 & S2 & S3 & S4);
      [rewrite Hheap2; exact Href |].
    assert (Hr3 : heapRefines (heap s)
              (migrateAll (heap s2) v
                 (pageAnnotationsOf (currentPage env) s2))).
    { eapply heapRefines_trans; [exact S4 | apply migrateAll_heapRefines]. }
    split; [exact S1 |]. split; [exact S2 |].
    split.
    { rewrite (proj2 (removeFrom_refines (heap s) _ (Annotation.id o)
                        (annotations s2) Hr3)).
      rewrite S1. exact Hgone. }
    split; [exact Hr3 |].
    split.
    + intros [Hc Hlen]. exfalso. apply Hnormal. auto.
    + intros _. split; [reflexivity |].
      rewrite Hn2, Hnot, <- app_assoc. reflexivity.
  - (* the deletion raised *)
    assert (Hraised : annotationCanvas env = true /\
                      findIndex (hasId (heap s1) (Annotation.id o))
                        (pageAnnotationsOf (currentPage env) s) <> None /\
                      2 <= length (pageAnnotationsOf (currentPage env) s)).
    { destruct (annotationCanvas env).
      - destruct (le_lt_dec 2 (length (pageAnnotationsOf (currentPage env) s)))
          as [Hl | Hl]; [auto |].
        destruct Hcomplete as [H1 _]; [| discriminate H1].
        intros (_ & _ & H). lia.
      - destruct Hcomplete as [H1 _]; [| discriminate H1].
        intros [H _]. discriminate H. }
    destruct (Hraise Hraised) as (Hth & _ & Hn2). injection Hth as ->.
    destruct (Hstate s2 Hu) as (S1 & S2 & S3 & S4);
      [rewrite Hheap2; exact Href |].
    split; [exact S1 |]. split; [exact S2 |]. split; [exact S3 |].
    split; [exact S4 |].
    split.
    + intros _. split; [reflexivity |]. rewrite Hn2. exact Hnot.
    + intros Hn. exfalso. apply Hn. split; [apply Hraised |].
      apply Hraised.
Qed.

Lemma eraser_press_removes_hit_witness :
  fst (mousedown sampleEnv sampleViewport (mkPoint 250 120)
         (snd (setTool "eraser" overlapStore)))
  = Thrown "TypeError".
Proof.
  assert (Hinv : storeInvariant (snd (setTool "eraser" overlapStore))).
  { split; [apply NoDup_singleton |]. split.
    - apply NoDup_cons.
      split; [intros H; inversion H; subst; inversion H2 |].
      apply NoDup_cons. split; [intros H; inversion H |]. apply NoDup_nil_2.
    - intros r [<- | [<- | []]]; cbn; lia. }
  assert (Hhit : topmostHit (heap (snd (setTool "eraser" overlapStore)))
                   250 120 sampleViewport
                   (pageAnnotationsOf (currentPage sampleEnv)
                      (snd (setTool "eraser" overlapStore)))
                 = Some 1%nat).
  { apply (topmostHit_last _ 250 120 sampleViewport [0%nat] 1%nat).
    unfold hitsAt.
    change (heap (snd (setTool "eraser" overlapStore)) !! 1%nat)
      with (Some highlightB).
    cbv beta iota. rewrite afterMigration_normalized.
    - apply hitTest_box; [reflexivity |].
      unfold inDeviceBox; cbn; unfold Rmin, Rmax;
        repeat match goal with
               | |- context [Rle_dec ?a ?b] => destruct (Rle_dec a b)
               end; lra.
    - apply areCoordinatesNormalized_true; cbn;
        repeat split; apply Rabs_le_iff; lra. }
  refine (proj1 (proj1 (proj2 (proj2 (proj2 (proj2
            (eraser_press_removes_hit sampleEnv sampleViewport 250 120
               (snd (setTool "eraser" overlapStore)) 1%nat highlightB
               Hinv eq_refl Hhit eq_refl eq_refl))))) _)).
  split; [reflexivity | cbn; lia].
Defined.

End EraserExtras.

(** ** Creation followed by deletion *)

Section CreateDelete.
Open Scope js_scope.

Lemma hasId_old (h : Heap) (a : Annotation.t) (annotationId : string)
    (r : loc) :
  r < length h -> hasId (h ++ [a]) annotationId r = hasId h annotationId r.
Proof.
  intros Hr. unfold hasId. rewrite lookup_app_l by exact Hr. reflexivity.
Qed.

Lemma hasId_new (h : Heap) (a : Annotation.t) :
  hasId (h ++ [a]) (Annotation.id a) (length h) = true.
Proof.
  unfold hasId. rewrite list_lookup_middle by reflexivity.
  apply String.eqb_refl.
Qed.

Lemma countIn_app (h : Heap) (annotationId : string) (l1 l2 : list loc) :
  countIn h annotationId (l1 ++ l2)
  = countIn h annotationId l1 + countIn h annotationId l2.
Proof. unfold countIn. rewrite List.filter_app, length_app. reflexivity. Qed.

Lemma countIn_old (h : Heap) (a : Annotation.t) (annotationId : string)
    (arr : list loc) :
  (forall r, In r arr -> r < length h) ->
  countIn (h ++ [a]) annotationId arr = countIn h annotationId arr.
Proof.
  intros Hv. unfold countIn. f_equal. apply List.filter_ext_in.
  intros r Hr. apply hasId_old. exact (Hv r Hr).
Qed.

Lemma findIndex_absent {A} (f : A -> bool) (l : list A) :
  length (List.filter f l) = 0 -> findIndex f l = None.
Proof.
  induction l as [| a l IH]; [reflexivity |].
  cbn. destruct (f a); [discriminate |].
  intros H. rewrite (IH H). reflexivity.
Qed.

Lemma withoutFirst_last (h : Heap) (annotationId : string) (arr : list loc)
    (l : loc) :
  countIn h annotationId arr = 0 ->
  hasId h annotationId l = true ->
  withoutFirst h annotationId (arr ++ [l]) = arr.
Proof.
  unfold countIn, withoutFirst. intros Hzero Hl.
  induction arr as [| r arr IH]; cbn [app findIndex].
  - rewrite Hl. reflexivity.
  - cbn [List.filter] in Hzero.
    destruct (hasId h annotationId r); [discriminate |].
    specialize (IH Hzero).
    destruct (findIndex (hasId h annotationId) (arr ++ [l])) as [i |].
    + change (delete (S i) (r :: arr ++ [l]))
        with (r :: delete i (arr ++ [l])).
      rewrite IH. reflexivity.
    + exfalso. apply (f_equal (@length loc)) in IH.
      rewrite length_app in IH. cbn in IH. lia.
Qed.

(** What [ensurePage] and [push] followed by [deleteAnnotation] of the
    new identifier leave of the page map. *)
Lemma push_then_delete (env : Env) (pageNum : nat) (a : Annotation.t)
    (n : string * string) (s : State) :
  storeInvariant s ->
  countId (heap s) (Annotation.id a) (annotations s) = 0 ->
  let s1 :=
    add_notification n
      (snd (pushAnnotation pageNum a (snd (ensurePage pageNum s)))) in
  let result := deleteAnnotation env (Annotation.id a) s1 in
  (forall k, pageAnnotationsOf k (snd result) = pageAnnotationsOf k s) /\
  countAll (annotations (snd result)) = countAll (annotations s) /\
  Map_has pageNum (annotations (snd result)) = true /\
  heap (snd result) = heap s ++ [a].
Proof.
  intros Hinv Hfresh s1 result. subst result.
  pose proof Hinv as (Hwf & Hnd & Hrefs).
  destruct (ensure_push_shape pageNum a s)
    as (done & arr & rest & Hm & Hk & Harr & Hm' & Hh').
  assert (Hann1 : annotations s1
                  = done ++ (pageNum, arr ++ [length (heap s)]) :: rest)
    by exact Hm'.
  assert (Hheap1 : heap s1 = heap s ++ [a]) by exact Hh'.
  assert (Hinv1 : storeInvariant s1).
  { apply (storeInvariant_ext
             (snd (pushAnnotation pageNum a (snd (ensurePage pageNum s)))));
      [reflexivity | reflexivity |].
    apply storeInvariant_ensure_push. exact Hinv. }
  (* the records of [s] seen as [done], [arr] and [rest] *)
  assert (Hold : allRecords (annotations s)
                 = allRecords done ++ arr ++ allRecords rest).
  { destruct Hm as [-> | (-> & -> & ->)].
    - rewrite allRecords_app, allRecords_cons. reflexivity.
    - cbn [app]. rewrite app_nil_r. reflexivity. }
  unfold refsValid in Hrefs. rewrite Hold in Hrefs.
  unfold countId in Hfresh. rewrite Hold, !countIn_app in Hfresh.
  assert (Vd : forall r, In r (allRecords done) -> r < length (heap s)).
  { intros r Hr. apply Hrefs. apply in_or_app. left. exact Hr. }
  assert (Va : forall r, In r arr -> r < length (heap s)).
  { intros r Hr. apply Hrefs. apply in_or_app. right.
    apply in_or_app. left. exact Hr. }
  assert (Vr : forall r, In r (allRecords rest) -> r < length (heap s)).
  { intros r Hr. apply Hrefs. apply in_or_app. right.
    apply in_or_app. right. exact Hr. }
  assert (Zd : countId (heap s1) (Annotation.id a) done = 0).
  { unfold countId. rewrite Hheap1, countIn_old by exact Vd. lia. }
  assert (Za : countIn (heap s1) (Annotation.id a) arr = 0).
  { rewrite Hheap1, countIn_old by exact Va. lia. }
  assert (Zr : countId (heap s1) (Annotation.id a) rest = 0).
  { unfold countId. rewrite Hheap1, countIn_old by exact Vr. lia. }
  assert (Hnew : hasId (heap s1) (Annotation.id a) (length (heap s)) = true).
  { rewrite Hheap1. apply hasId_new. }
  assert (Hcount : countId (heap s1) (Annotation.id a) (annotations s1) = 1).
  { rewrite Hann1. unfold countId.
    rewrite allRecords_app, allRecords_cons, !countIn_app.
    fold (countId (heap s1) (Annotation.id a) done).
    fold (countId (heap s1) (Annotation.id a) rest).
    rewrite Zd, Za, Zr. unfold countIn. cbn [List.filter].
    rewrite Hnew. reflexivity. }
  destruct (deleteAnnotation_state env (Annotation.id a) s1 (proj1 Hinv1))
    as (_ & Hh2 & _ & _ & Hu & _).
  specialize (Hu ltac:(lia)).
  assert (Hrem : removeFrom (heap s1) (Annotation.id a) (annotations s1)
                 = done ++ (pageNum, arr) :: rest).
  { rewrite Hann1. unfold removeFrom. rewrite map_app. cbn [map fst snd].
    fold (removeFrom (heap s1) (Annotation.id a) done).
    fold (removeFrom (heap s1) (Annotation.id a) rest).
    rewrite (removeFrom_none _ _ done Zd), (removeFrom_none _ _ rest Zr).
    rewrite (withoutFirst_last _ _ arr _ Za Hnew). reflexivity. }
  rewrite Hrem in Hu.
  split; [| split; [| split]].
  - intros k. unfold pageAnnotationsOf. rewrite Hu.
    destruct Hm as [-> | (-> & -> & ->)]; [reflexivity |].
    destruct (Nat.eq_dec k pageNum) as [-> | Hne].
    + rewrite Map_get_middle by exact Hk.
      rewrite (proj2 (Map_get_None_keys pageNum done) Hk). reflexivity.
    + assert (Happ : forall m, Map_get k (m ++ [(pageNum, [])])
                               = Map_get k m).
      { intros m. induction m as [| [k0 v0] m IH]; cbn.
        - destruct (Nat.eqb pageNum k) eqn:E; [| reflexivity].
          apply Nat.eqb_eq in E. congruence.
        - destruct (Nat.eqb k0 k); [reflexivity | exact IH]. }
      rewrite Happ. reflexivity.
  - rewrite Hu. unfold countAll. rewrite Hold.
    rewrite allRecords_app, allRecords_cons. reflexivity.
  - rewrite Hu. unfold Map_has. rewrite Map_get_middle by exact Hk.
    reflexivity.
  - rewrite Hh2. exact Hheap1.
Qed.

(** X25. Creating a box annotation or a note under an identifier that no
    stored record carries and then deleting that identifier brings every
    page array back to what it was, whether or not the deletion raised:
    the store counts as many records as before.  What stays behind is the
    key of the page in the map and the unreferenced object. *)
Theorem create_then_delete_restores (env : Env) (pageNum : nat)
    (x1 y1 x2 y2 : R) (tool color newId now : string) (s : State) :
  storeInvariant s ->
  countId (heap s) newId (annotations s) = 0 ->
  let box :=
    snd (createAnnotation pageNum x1 y1 x2 y2 tool color newId now s) in
  let note := snd (createNoteAnnotation env pageNum x1 y1 newId now s) in
  (forall k,
     pageAnnotationsOf k (snd (deleteAnnotation env newId box))
     = pageAnnotationsOf k s) /\
  countAll (annotations (snd (deleteAnnotation env newId box)))
    = countAll (annotations s) /\
  Map_has pageNum (annotations (snd (deleteAnnotation env newId box)))
    = true /\
  length (heap (snd (deleteAnnotation env newId box)))
    = S (length (heap s)) /\
  (forall k,
     pageAnnotationsOf k (snd (deleteAnnotation env newId note))
     = pageAnnotationsOf k s) /\
  countAll (annotations (snd (deleteAnnotation env newId note)))
    = countAll (annotations s).
Proof.
  intros Hinv Hfresh. cbv zeta.
  pose (boxRecord :=
    {| Annotation.id := newId;
       Annotation.type := tool;
       Annotation.color :=
         if String.eqb tool "underline" then COLORS.UNDERLINE_RED else color;
       Annotation.coordinates :=
         mkCoordinates (Rmin x1 x2) (Rmin y1 y2) (Rmax x1 x2) (Rmax y1 y2);
       Annotation.path := None;
       Annotation.page := pageNum;
       Annotation.content := None;
       Annotation.timestamp := now |}).
  pose (noteRecord' :=
    {| Annotation.id := newId;
       Annotation.type := "note";
       Annotation.color := COLORS.NOTE_BACKGROUND;
       Annotation.coordinates :=
         mkCoordinates x1 y1
           (x1 + match layerViewport env with
                 | Some v => 24 / width v
                 | None => 2 / 100
                 end)
           (y1 + match layerViewport env with
                 | Some v => 24 / height v
                 | None => 2 / 100
                 end);
       Annotation.path := None;
       Annotation.page := pageNum;
       Annotation.content := Some EmptyString;
       Annotation.timestamp := now |}).
  assert (Ebox :
    snd (createAnnotation pageNum x1 y1 x2 y2 tool color newId now s)
    = add_notification ((tool ++ " annotation added")%string,
                        "success"%string)
        (snd (pushAnnotation pageNum boxRecord
                (snd (ensurePage pageNum s))))) by reflexivity.
  assert (Enote :
    snd (createNoteAnnotation env pageNum x1 y1 newId now s)
    = add_notification ("Note created - click to edit"%string,
                        "success"%string)
        (snd (pushAnnotation pageNum noteRecord'
                (snd (ensurePage pageNum s))))) by reflexivity.
  rewrite Ebox, Enote.
  destruct (push_then_delete env pageNum boxRecord
              ((tool ++ " annotation added")%string, "success"%string)
              s Hinv Hfresh) as (B1 & B2 & B3 & B4).
  destruct (push_then_delete env pageNum noteRecord'
              ("Note created - click to edit"%string, "success"%string)
              s Hinv Hfresh) as (N1 & N2 & _).
  cbv zeta in B1, B2, B3, B4, N1, N2.
  split; [exact B1 |]. split; [exact B2 |]. split; [exact B3 |].
  split; [| split; [exact N1 | exact N2]].
  change (Annotation.id boxRecord) with newId in B4.
  rewrite B4, length_app. cbn [length]. lia.
Qed.

Lemma create_then_delete_restores_witness :
  countAll
    (annotations
       (snd (deleteAnnotation sampleEnv "a9"
               (snd (createAnnotation 1 (1/10) (1/10) (2/10) (2/10)
                       "highlight" "#ffff00" "a9" "now" overlapStore)))))
  = countAll (annotations overlapStore).
Proof.
  assert (Hinv : storeInvariant overlapStore).
  { split; [apply NoDup_singleton |]. split.
    - apply NoDup_cons.
      split; [intros H; inversion H; subst; inversion H2 |].
      apply NoDup_cons. split; [intros H; inversion H |]. apply NoDup_nil_2.
    - intros r [<- | [<- | []]]; cbn; lia. }
  exact (proj1 (proj2 (create_then_delete_restores
                         sampleEnv 1 (1/10) (1/10) (2/10) (2/10)
                         "highlight" "#ffff00" "a9" "now" overlapStore
                         Hinv eq_refl))).
Defined.

End CreateDelete.

(** ** What moving the pointer leaves alone *)

Section PointerMove.
Open Scope js_scope.

Lemma recordsKept_refl (s : State) : recordsKept s s.
Proof. repeat split. intros l a Ha. exists a. split; [exact Ha |].
  apply sameIdentity_refl. Qed.

Lemma recordsKept_frame (s0 s1 s2 : State) :
  set_heap (heap s1) s2 = s1 -> heapRefines (heap s1) (heap s2) ->
  recordsKept s0 s1 -> recordsKept s0 s2.
Proof.
  intros Hf Hr (H1 & H2 & H3 & H4 & H5).
  split; [rewrite <- H1; exact (f_equal annotations Hf) |].
  split; [rewrite <- H2; exact (f_equal notifications Hf) |].
  split; [rewrite <- H3; exact (f_equal currentTool Hf) |].
  split; [rewrite <- H4; exact (f_equal currentColor Hf) |].
  eapply heapRefines_trans; [exact H5 | exact Hr].
Qed.

Lemma kept_migrate (s0 : State) (r : loc) (viewport : option Viewport) :
  preserves (recordsKept s0) (migratePixelToNormalized r viewport).
Proof.
  intros s H.
  destruct (migratePixelToNormalized_run s r viewport) as (_ & _ & _ & _ & Hf).
  exact (recordsKept_frame s0 s _ Hf (migrate_heapRefines s r viewport) H).
Qed.

Lemma kept_render (s0 : State) (pageNum : nat) (viewport : option Viewport) :
  preserves (recordsKept s0) (renderAnnotations pageNum viewport).
Proof.
  intros s H. destruct (render_frame pageNum viewport s) as [Hf Hr].
  exact (recordsKept_frame s0 s _ Hf Hr H).
Qed.

Lemma kept_getAnnotationAtPoint (s0 : State) (pageNum : nat) (x y : R)
    (v : Viewport) :
  preserves (recordsKept s0) (getAnnotationAtPoint pageNum x y v).
Proof.
  intros s H. destruct (getAnnotationAtPoint_frame s pageNum x y v)
    as [Hf Hr].
  exact (recordsKept_frame s0 s _ Hf Hr H).
Qed.

Lemma kept_mousemove (s0 : State) (env : Env) (v : Viewport)
    (coords : Point) :
  preserves (recordsKept s0) (mousemove env v coords).
Proof.
  unfold mousemove. apply preserves_bind; [apply preserves_get |].
  intros s1. destruct (isTool s1 "eraser").
  - apply preserves_bind; [apply kept_getAnnotationAtPoint |].
    intros hovered. unfold showEraserHover.
    apply preserves_bind; [apply kept_render |]. intros _.
    destruct hovered as [a |]; [| apply preserves_ret].
    apply preserves_bind; [apply kept_migrate |]. intros _.
    apply preserves_ret.
  - destruct (negb (g_isDrawing (gesture s1)) || isTool s1 "select" || false);
      [apply preserves_ret |].
    apply preserves_bind;
      [apply preserves_modify; intros s H; exact H |]. intros _.
    apply preserves_bind; [apply preserves_get |]. intros s2.
    destruct (isTool s2 "draw"); [| apply kept_render].
    destruct (currentStroke s2); [| apply preserves_throw].
    apply preserves_bind;
      [apply preserves_modify; intros s H; exact H |]. intros _.
    apply kept_render.
Qed.

(** X26. Moving the pointer, with any tool and whether or not it raises,
    never creates, removes or reorders a record and shows no
    notification: the page map, the log, the tool and the colour are as
    before, and every record is the same object with the same id, type,
    colour, page, content and timestamp (a legacy record may have been
    migrated).  The same holds along a whole drag. *)
Theorem mousemove_keeps_records (env : Env) (v : Viewport)
    (pts : list Point) (s : State) :
  (forall p, recordsKept s (snd (mousemove env v p s))) /\
  recordsKept s (dragThrough env v pts s).
Proof.
  split.
  - intros p. apply kept_mousemove. apply recordsKept_refl.
  - unfold dragThrough.
    assert (H : forall s1, recordsKept s s1 ->
              recordsKept s
                (fold_left (fun s p => snd (mousemove env v p s)) pts s1)).
    { induction pts as [| p pts IH]; intros s1 H1; [exact H1 |].
      cbn [fold_left]. apply IH. apply kept_mousemove. exact H1. }
    apply H. apply recordsKept_refl.
Qed.

End PointerMove.

(** ** Normalized coordinates and zoom *)

Section Zoom.
Open Scope R_scope.

(** X27. A point recorded in normalized coordinates under one viewport
    and displayed under another lands at the same relative position: each
    device coordinate is multiplied by the ratio of the viewport sizes,
    so a viewport [k] times as large shows it at [k] times the
    coordinates.  Going from normalized to device coordinates and back
    under one viewport gives the normalized point again. *)
Theorem normalized_position_follows_zoom (x y : R) (v1 v2 : Viewport) :
  0 < width v1 -> 0 < height v1 ->
  toDevice (canvasToNormalized x y v1) v2
    = mkPoint (x * (width v2 / width v1)) (y * (height v2 / height v1)) /\
  (forall k, width v2 = k * width v1 -> height v2 = k * height v1 ->
     toDevice (canvasToNormalized x y v1) v2 = mkPoint (k * x) (k * y)) /\
  canvasToNormalized (pt_x (normalizedToCanvas x y v1))
                     (pt_y (normalizedToCanvas x y v1)) v1
    = mkPoint x y.
Proof.
  intros Hw Hh. unfold toDevice, normalizedToCanvas, canvasToNormalized.
  cbn [pt_x pt_y]. split; [| split].
  - f_equal; field; lra.
  - intros k -> ->. f_equal; field; lra.
  - f_equal; field; lra.
Qed.

Lemma normalized_position_follows_zoom_witness :
  toDevice (canvasToNormalized 100 150 sampleViewport)
           (mkViewport 2000 2000 0 2)
  = mkPoint (2 * 100) (2 * 150).
Proof.
  assert (Hw : 0 < width sampleViewport) by (cbn; lra).
  assert (Hh : 0 < height sampleViewport) by (cbn; lra).
  apply (proj1 (proj2 (normalized_position_follows_zoom
                         100 150 sampleViewport (mkViewport 2000 2000 0 2)
                         Hw Hh)) 2); cbn; lra.
Defined.

End Zoom.
